(** * Audio output engine of vdr-plugin-softhddevice (audio.c)

    A shallow embedding of the ring-of-rings code path of [audio.c]
    (the one compiled with [USE_AUDIORING] and [USE_AUDIO_THREAD]):
    the sample filters, the channel remixer, the ring of audio ring
    buffers and the public operations built on them.

    C integers are modelled as [Z]; every conversion to a fixed width
    type is written out with one of the [wrap_*] functions below.
    Signed division is C's truncating division, [Z.quot]. *)

From Stdlib Require Import ZArith List Lia Bool.
From stdpp Require Import base list.
Import ListNotations.
Local Open Scope Z_scope.

(** ** Machine integers *)

Module CInt.

(** Conversion to an unsigned type of [w] bits. *)
Definition wrap_u (w : Z) (x : Z) : Z := x mod 2 ^ w.

(** Conversion to a signed two's-complement type of [w] bits. *)
Definition wrap_s (w : Z) (x : Z) : Z :=
  (x + 2 ^ (w - 1)) mod 2 ^ w - 2 ^ (w - 1).

Definition wrap_s8 := wrap_s 8.
Definition wrap_s16 := wrap_s 16.
Definition wrap_s32 := wrap_s 32.
Definition wrap_s64 := wrap_s 64.
Definition wrap_u32 := wrap_u 32.
Definition wrap_u64 := wrap_u 64.

Definition INT16_MIN : Z := -32768.
Definition INT16_MAX : Z := 32767.
Definition INT32_MIN : Z := -2147483648.
Definition INT32_MAX : Z := 2147483647.
Definition INT64_MIN : Z := -9223372036854775808.
Definition INT64_MAX : Z := 9223372036854775807.

Definition is_int16 (x : Z) : Prop := INT16_MIN <= x <= INT16_MAX.
Definition is_int32 (x : Z) : Prop := INT32_MIN <= x <= INT32_MAX.
Definition is_int64 (x : Z) : Prop := INT64_MIN <= x <= INT64_MAX.

(** C truth value of an integer used as a condition. *)
Definition truthy (x : Z) : bool := negb (x =? 0).

(** [for (i = start; i < bound; i += step) body]: the loop is run
    on at most [fuel] iterations; callers pass a fuel that the
    loop condition exhausts first. *)
Fixpoint c_for {S : Type} (fuel : nat) (i bound step : Z)
    (body : Z -> S -> S) (s : S) : S :=
  match fuel with
  | O => s
  | Datatypes.S fuel' =>
      if i <? bound
      then c_for fuel' (i + step) bound step body (body i s)
      else s
  end.

End CInt.

Import CInt.

(** ** Sample buffers

    An [int16_t *] buffer is a list of sample values. Reading outside
    the list (undefined in C) yields 0 and writing outside it is
    dropped. *)

Abbreviation samples := (list Z).

(** [p[i]] *)
Definition rd (p : samples) (i : Z) : Z :=
  if i <? 0 then 0 else nth (Z.to_nat i) p 0.

(** [p[i] = v], with the conversion of the [int] value to [int16_t]. *)
Definition wr (p : samples) (i : Z) (v : Z) : samples :=
  if i <? 0 then p else <[Z.to_nat i := wrap_s16 v]> p.

(** The byte at offset [b] of a sample buffer (little-endian host). *)
Definition byte_at (p : samples) (b : Z) : Z :=
  if Z.even b then wrap_u 16 (rd p (b / 2)) mod 256
  else wrap_u 16 (rd p (b / 2)) / 256.

(** [memset(p, 0, count)]: [count] is a number of bytes. All samples
    that lie wholly below [count] are cleared; when [count] is odd the
    low byte of the following sample is cleared too. *)
Definition memset0 (p : samples) (count : Z) : samples :=
  let whole := c_for (Z.to_nat (count / 2)) 0 (count / 2) 1
                 (fun i q => wr q i 0) p in
  if Z.odd count && (0 <? count)
  then wr whole (count / 2)
         (wrap_u 16 (rd whole (count / 2)) / 256 * 256)
  else whole.

(** [memcpy(out, in, count)] for an even number of bytes. *)
Definition memcpy16 (out in_ : samples) (count : Z) : samples :=
  c_for (Z.to_nat (count / 2)) 0 (count / 2) 1
    (fun i q => wr q i (rd in_ i)) out.

(** ** Channel remix *)

Module Remix.

Definition AudioBytesProSample : Z := 2.

(** [AudioMono2Stereo] *)
Definition AudioMono2Stereo (in_ : samples) (frames : Z) (out : samples)
    : samples :=
  c_for (Z.to_nat frames) 0 frames 1
    (fun i out =>
       let t := rd in_ i in
       wr (wr out (i * 2 + 0) t) (i * 2 + 1) t)
    out.

(** The loop body of [AudioStereo2Mono]:
    [out[i / 2] = (in[i + 0] + in[i + 1]) / 2;] *)
Definition stereo2mono_step (in_ : samples) (i : Z) (out : samples)
    : samples :=
  wr out (Z.quot i 2) (Z.quot (rd in_ (i + 0) + rd in_ (i + 1)) 2).

(** [AudioStereo2Mono]: [for (i = 0; i < frames; i += 2) ...] *)
Definition AudioStereo2Mono (in_ : samples) (frames : Z) (out : samples)
    : samples :=
  c_for (Z.to_nat frames) 0 frames 2 (stereo2mono_step in_) out.

(** The [switch (in_chan)] of [AudioSurround2Stereo]: the two
    accumulators [l] and [r] for the frame starting at [in_];
    [None] is the [abort()] of the default case. *)
Definition surround_lr (in_chan : Z) (in_ : Z -> Z) : option (Z * Z) :=
  if in_chan =? 3 then
    Some (in_ 0 * 600 + in_ 2 * 400,
          in_ 1 * 600 + in_ 2 * 400)
  else if in_chan =? 4 then
    Some (in_ 0 * 600 + in_ 2 * 400,
          in_ 1 * 600 + in_ 3 * 400)
  else if in_chan =? 5 then
    Some (in_ 0 * 500 + in_ 2 * 200 + in_ 4 * 300,
          in_ 1 * 500 + in_ 3 * 200 + in_ 4 * 300)
  else if in_chan =? 6 then
    Some (in_ 0 * 400 + in_ 2 * 200 + in_ 4 * 300 + in_ 5 * 300,
          in_ 1 * 400 + in_ 3 * 200 + in_ 4 * 300 + in_ 5 * 100)
  else if in_chan =? 7 then
    Some (in_ 0 * 400 + in_ 2 * 200 + in_ 4 * 300 + in_ 5 * 100,
          in_ 1 * 400 + in_ 3 * 200 + in_ 4 * 300 + in_ 6 * 100)
  else if in_chan =? 8 then
    Some (in_ 0 * 400 + in_ 2 * 150 + in_ 4 * 250 + in_ 5 * 100
            + in_ 6 * 100,
          in_ 1 * 400 + in_ 3 * 150 + in_ 4 * 250 + in_ 5 * 100
            + in_ 7 * 100)
  else None.

(** [AudioSurround2Stereo]: [while (frames--) { ...; in += in_chan;
    out[0] = l / 1000; out[1] = r / 1000; out += 2; }]. The moving
    pointers are the offsets [ip] and [op]. *)
Fixpoint AudioSurround2Stereo_loop (frames : nat) (in_ : samples) (ip : Z)
    (in_chan : Z) (out : samples) (op : Z) : option samples :=
  match frames with
  | O => Some out
  | S frames' =>
      match surround_lr in_chan (fun k => rd in_ (ip + k)) with
      | None => None
      | Some (l, r) =>
          AudioSurround2Stereo_loop frames' in_ (ip + in_chan) in_chan
            (wr (wr out (op + 0) (Z.quot l 1000)) (op + 1) (Z.quot r 1000))
            (op + 2)
      end
  end.

Definition AudioSurround2Stereo (in_ : samples) (in_chan frames : Z)
    (out : samples) : option samples :=
  AudioSurround2Stereo_loop (Z.to_nat frames) in_ 0 in_chan out 0.

(** [AudioUpmix]: copy [in_chan] channels, silence the rest. *)
Fixpoint AudioUpmix_loop (frames : nat) (in_ : samples) (ip : Z)
    (in_chan : Z) (out : samples) (op : Z) (out_chan : Z) : samples :=
  match frames with
  | O => out
  | S frames' =>
      let copied :=
        c_for (Z.to_nat in_chan) 0 in_chan 1
          (fun i q => wr q (op + i) (rd in_ (ip + i))) out in
      let i := Z.max 0 in_chan in
      let filled :=
        c_for (Z.to_nat (out_chan - i)) i out_chan 1
          (fun i q => wr q (op + i) 0) copied in
      AudioUpmix_loop frames' in_ (ip + Z.max 0 in_chan) in_chan filled
        (op + Z.max i out_chan) out_chan
  end.

Definition AudioUpmix (in_ : samples) (in_chan frames : Z) (out : samples)
    (out_chan : Z) : samples :=
  AudioUpmix_loop (Z.to_nat frames) in_ 0 in_chan out 0 out_chan.

(** [AudioResample]: dispatch on [in_chan * 8 + out_chan]. *)
Definition AudioResample (in_ : samples) (in_chan frames : Z)
    (out : samples) (out_chan : Z) : option samples :=
  let sel := in_chan * 8 + out_chan in
  if (sel =? 1 * 8 + 1) || (sel =? 2 * 8 + 2) || (sel =? 3 * 8 + 3)
     || (sel =? 4 * 8 + 4) || (sel =? 5 * 8 + 5) || (sel =? 6 * 8 + 6)
     || (sel =? 7 * 8 + 7) || (sel =? 8 * 8 + 8)
  then Some (memcpy16 out in_ (frames * in_chan * AudioBytesProSample))
  else if sel =? 2 * 8 + 1 then Some (AudioStereo2Mono in_ frames out)
  else if sel =? 1 * 8 + 2 then Some (AudioMono2Stereo in_ frames out)
  else if (sel =? 3 * 8 + 2) || (sel =? 4 * 8 + 2) || (sel =? 5 * 8 + 2)
          || (sel =? 6 * 8 + 2) || (sel =? 7 * 8 + 2) || (sel =? 8 * 8 + 2)
  then AudioSurround2Stereo in_ in_chan frames out
  else if sel =? 5 * 8 + 6 then Some (AudioUpmix in_ in_chan frames out out_chan)
  else Some (memset0 out (frames * out_chan * AudioBytesProSample)).

End Remix.

(** ** Sample filters *)

Module Filter.

Definition AudioNormSamples : Z := 4096.
Definition AudioNormMaxIndex : Z := 128.
Definition AudioMinNormalize : Z := 100.

(** The saturation every filter ends with:
    [if (t < INT16_MIN) t = INT16_MIN; else if (t > INT16_MAX) t = INT16_MAX;] *)
Definition clamp16 (t : Z) : Z :=
  if t <? INT16_MIN then INT16_MIN
  else if t >? INT16_MAX then INT16_MAX
  else t.

(** [t = (samples[i] * factor) / 1000] in [int] arithmetic, then
    saturate and store; the common tail of the three filters. *)
Definition scale_sample (factor : Z) (i : Z) (p : samples) : samples :=
  let t := Z.quot (wrap_s32 (rd p i * factor)) 1000 in
  wr p i (clamp16 t).

Definition scale_buffer (factor : Z) (p : samples) (count : Z) : samples :=
  let n := Z.quot count Remix.AudioBytesProSample in
  c_for (Z.to_nat n) 0 n 1 (scale_sample factor) p.

(** [AudioSoftAmplifier], reading the globals [AudioMute] and
    [AudioAmplifier]. *)
Definition AudioSoftAmplifier (AudioMute : bool) (AudioAmplifier : Z)
    (p : samples) (count : Z) : samples :=
  if AudioMute || negb (truthy AudioAmplifier)
  then memset0 p count
  else scale_buffer AudioAmplifier p count.

(** The globals of the normaliser and of the compressor. *)
Record Filters := mkFilters {
  AudioNormAverage : list Z;
  AudioNormIndex : Z;
  AudioNormReady : Z;
  AudioNormCounter : Z;
  AudioNormalizeFactor : Z;
  AudioMaxNormalize : Z;
  AudioCompressionFactor : Z;
  AudioMaxCompression : Z
}.

(** [AudioCompressor] *)
Definition AudioCompressor (f : Filters) (p : samples) (count : Z)
    : Filters * samples :=
  let n := Z.quot count Remix.AudioBytesProSample in
  let max_sample :=
    c_for (Z.to_nat n) 0 n 1
      (fun i m => let t := Z.abs (rd p i) in if t >? m then t else m) 0 in
  if max_sample >? 0 then
    let factor := Z.quot (INT16_MAX * 1000) max_sample in
    let c0 :=
      Z.quot (wrap_s32 (AudioCompressionFactor f * 950 + factor * 50)) 1000 in
    let c1 := if c0 >? factor then factor else c0 in
    let c2 := if c1 >? AudioMaxCompression f
              then AudioMaxCompression f else c1 in
    (mkFilters (AudioNormAverage f) (AudioNormIndex f) (AudioNormReady f)
       (AudioNormCounter f) (AudioNormalizeFactor f) (AudioMaxNormalize f)
       c2 (AudioMaxCompression f),
     scale_buffer c2 p count)
  else (f, p).

(** One pass of the [do { ... } while (l > 0)] body of
    [AudioNormalizer]: [data] is the offset of the moving pointer. *)
Definition normalizer_block (f : Filters) (p : samples) (data l : Z)
    : Filters * Z :=
  let n := if AudioNormCounter f + l >? AudioNormSamples
           then AudioNormSamples - AudioNormCounter f else l in
  let ix := Z.to_nat (AudioNormIndex f) in
  let avg :=
    c_for (Z.to_nat n) 0 n 1
      (fun i avg =>
         let t := rd p (data + i) in
         wrap_u32 (avg + wrap_u32 (Z.quot (wrap_s32 (t * t)) AudioNormSamples)))
      (nth ix (AudioNormAverage f) 0) in
  let average := <[ix := avg]> (AudioNormAverage f) in
  let counter := AudioNormCounter f + n in
  if counter >=? AudioNormSamples then
    let ready_factor :=
      if AudioNormReady f <? AudioNormMaxIndex
      then (AudioNormReady f + 1, AudioNormalizeFactor f)
      else
        let sum :=
          c_for (Z.to_nat AudioNormMaxIndex) 0 AudioNormMaxIndex 1
            (fun i a =>
               wrap_u32 (a + nth (Z.to_nat i) average 0 / AudioNormMaxIndex))
            0 in
        if sum >? 0 then
          (* (uint32_t) sqrt(avg) is the integer square root *)
          let factor :=
            wrap_s32 ((INT16_MAX / 8 * 1000) / wrap_u32 (Z.sqrt sum)) in
          let n0 :=
            Z.quot (wrap_s32 (AudioNormalizeFactor f * 500 + factor * 500))
              1000 in
          let n1 := if n0 <? AudioMinNormalize then AudioMinNormalize else n0 in
          let n2 := if n1 >? AudioMaxNormalize f
                    then AudioMaxNormalize f else n1 in
          (AudioNormReady f, n2)
        else (AudioNormReady f, AudioNormalizeFactor f) in
    let index := Z.rem (AudioNormIndex f + 1) AudioNormMaxIndex in
    (mkFilters (<[Z.to_nat index := 0]> average) index (fst ready_factor) 0
       (snd ready_factor) (AudioMaxNormalize f)
       (AudioCompressionFactor f) (AudioMaxCompression f),
     n)
  else
    (mkFilters average (AudioNormIndex f) (AudioNormReady f) counter
       (AudioNormalizeFactor f) (AudioMaxNormalize f)
       (AudioCompressionFactor f) (AudioMaxCompression f),
     n).

Fixpoint normalizer_loop (fuel : nat) (f : Filters) (p : samples)
    (data l : Z) : Filters :=
  match fuel with
  | O => f
  | S fuel' =>
      let '(f', n) := normalizer_block f p data l in
      if l - n >? 0 then normalizer_loop fuel' f' p (data + n) (l - n)
      else f'
  end.

(** [AudioNormalizer] *)
Definition AudioNormalizer (f : Filters) (p : samples) (count : Z)
    : Filters * samples :=
  let l := Z.quot count Remix.AudioBytesProSample in
  let f' := normalizer_loop (S (Z.to_nat l)) f p 0 l in
  (f', scale_buffer (AudioNormalizeFactor f') p count).

(** [AudioResetCompressor] and [AudioResetNormalizer] *)
Definition AudioResetCompressor (f : Filters) : Filters :=
  mkFilters (AudioNormAverage f) (AudioNormIndex f) (AudioNormReady f)
    (AudioNormCounter f) (AudioNormalizeFactor f) (AudioMaxNormalize f)
    (if 2000 >? AudioMaxCompression f then AudioMaxCompression f else 2000)
    (AudioMaxCompression f).

Definition AudioResetNormalizer (f : Filters) : Filters :=
  mkFilters
    (c_for (Z.to_nat AudioNormMaxIndex) 0 AudioNormMaxIndex 1
       (fun i a => <[Z.to_nat i := 0]> a) (AudioNormAverage f))
    (AudioNormIndex f) 0 0 1000 (AudioMaxNormalize f)
    (AudioCompressionFactor f) (AudioMaxCompression f).

End Filter.

(** ** The byte ring buffer *)

Module Ring.

(** Modelled from the spec: the byte ring buffer of [ringbuffer.c],
    which is not part of [audio.c]. It is the black box of the
    specification's section 6.2: a bounded FIFO of bytes where
    [write] stores as many bytes as fit and reports how many, and
    [read_advance] drops bytes from the front. *)
Record RingBuffer := mkRingBuffer {
  Size : Z;
  Bytes : list Z
}.

(** Modelled from the spec: [new(capacity)] of [ringbuffer.c]. *)
Definition RingBufferNew (size : Z) : RingBuffer := mkRingBuffer size [].

(** Modelled from the spec: [reset] of [ringbuffer.c]. *)
Definition RingBufferReset (rb : RingBuffer) : RingBuffer :=
  mkRingBuffer (Size rb) [].

(** Modelled from the spec: [used_bytes()] of [ringbuffer.c]. *)
Definition RingBufferUsedBytes (rb : RingBuffer) : Z :=
  Z.of_nat (length (Bytes rb)).

(** Modelled from the spec: [free_bytes()] of [ringbuffer.c]. *)
Definition RingBufferFreeBytes (rb : RingBuffer) : Z :=
  Size rb - RingBufferUsedBytes rb.

(** The first [n] bytes of the memory at [buf]. *)
Definition bytes_of (buf : samples) (n : Z) : list Z :=
  map (fun b => byte_at buf (Z.of_nat b)) (seq 0 (Z.to_nat n)).

(** Modelled from the spec: [write(p, n)] of [ringbuffer.c], called as
    [RingBufferWrite(rb, buf, cnt)]; the result is the new ring and the
    number of bytes stored. *)
Definition RingBufferWrite (rb : RingBuffer) (buf : samples) (cnt : Z)
    : RingBuffer * Z :=
  let n := Z.max 0 (Z.min cnt (RingBufferFreeBytes rb)) in
  (mkRingBuffer (Size rb) (Bytes rb ++ bytes_of buf n), n).

(** Modelled from the spec: [read_advance(n)] of [ringbuffer.c],
    called as [RingBufferReadAdvance(rb, cnt)]. *)
Definition RingBufferReadAdvance (rb : RingBuffer) (cnt : Z) : RingBuffer :=
  let n := Z.max 0 (Z.min cnt (RingBufferUsedBytes rb)) in
  mkRingBuffer (Size rb) (drop (Z.to_nat n) (Bytes rb)).

End Ring.

Import Ring.

(** ** The ring of audio ring buffers and the public operations *)

Definition AUDIO_RING_MAX : Z := 8.
Definition AudioRatesMax : Z := 2.
Definition AudioRatesTable : list Z := [44100; 48000].
Definition AudioRingBufferSize : Z := 3 * 5 * 7 * 8 * 2 * 1000.

(** [INT64_C(0x8000000000000000)] converted to [int64_t]. *)
Definition PTS_SENTINEL : Z := wrap_s64 0x8000000000000000.

(** [struct _audio_ring_ring_] *)
Record AudioRingRing := mkAudioRingRing {
  FlushBuffers : bool;
  UseAc3 : Z;
  PacketSize : Z;
  HwSampleRate : Z;
  HwChannels : Z;
  InSampleRate : Z;
  InChannels : Z;
  PTS : Z;
  RingBuffer_ : RingBuffer
}.

(** Globals that the modelled operations read but never assign.
    [AudioChannelMatrix] holds the rows of
    [static int AudioChannelMatrix[AudioRatesMax][9]];
    [AudioChannelMatrixAround k] is the [int] the process holds [k]
    places from the start of that table, for the places that lie
    before or behind it. *)
Record Config := mkConfig {
  AudioThread : bool;
  AudioBufferTime : Z;
  VideoAudioDelay : Z;
  AudioSoftVolume : bool;
  AudioNormalize : bool;
  AudioCompression : bool;
  AudioMute : bool;
  AudioAmplifier : Z;
  AudioChannelMatrix : list (list Z);
  AudioChannelMatrixAround : Z -> Z
}.

(** The file-scope variables of the ring-of-rings code. *)
Record Audio := mkAudio {
  AudioRing : list AudioRingRing;
  AudioRingWrite : Z;
  AudioRingRead : Z;
  AudioRingFilled : Z;
  AudioStartThreshold : Z;
  AudioRunning : bool;
  AudioVideoIsReady : bool;
  AudioSkip : Z;
  filters : Filter.Filters;
  config : Config
}.

Definition set_AudioRing (v : list AudioRingRing) (a : Audio) : Audio :=
  mkAudio v (AudioRingWrite a) (AudioRingRead a) (AudioRingFilled a)
    (AudioStartThreshold a) (AudioRunning a) (AudioVideoIsReady a)
    (AudioSkip a) (filters a) (config a).

Definition set_AudioRingWrite (v : Z) (a : Audio) : Audio :=
  mkAudio (AudioRing a) v (AudioRingRead a) (AudioRingFilled a)
    (AudioStartThreshold a) (AudioRunning a) (AudioVideoIsReady a)
    (AudioSkip a) (filters a) (config a).

Definition set_AudioRingRead (v : Z) (a : Audio) : Audio :=
  mkAudio (AudioRing a) (AudioRingWrite a) v (AudioRingFilled a)
    (AudioStartThreshold a) (AudioRunning a) (AudioVideoIsReady a)
    (AudioSkip a) (filters a) (config a).

Definition set_AudioRingFilled (v : Z) (a : Audio) : Audio :=
  mkAudio (AudioRing a) (AudioRingWrite a) (AudioRingRead a) v
    (AudioStartThreshold a) (AudioRunning a) (AudioVideoIsReady a)
    (AudioSkip a) (filters a) (config a).

Definition set_AudioStartThreshold (v : Z) (a : Audio) : Audio :=
  mkAudio (AudioRing a) (AudioRingWrite a) (AudioRingRead a)
    (AudioRingFilled a) v (AudioRunning a) (AudioVideoIsReady a)
    (AudioSkip a) (filters a) (config a).

Definition set_AudioRunning (v : bool) (a : Audio) : Audio :=
  mkAudio (AudioRing a) (AudioRingWrite a) (AudioRingRead a)
    (AudioRingFilled a) (AudioStartThreshold a) v (AudioVideoIsReady a)
    (AudioSkip a) (filters a) (config a).

Definition set_AudioVideoIsReady (v : bool) (a : Audio) : Audio :=
  mkAudio (AudioRing a) (AudioRingWrite a) (AudioRingRead a)
    (AudioRingFilled a) (AudioStartThreshold a) (AudioRunning a) v
    (AudioSkip a) (filters a) (config a).

Definition set_AudioSkip (v : Z) (a : Audio) : Audio :=
  mkAudio (AudioRing a) (AudioRingWrite a) (AudioRingRead a)
    (AudioRingFilled a) (AudioStartThreshold a) (AudioRunning a)
    (AudioVideoIsReady a) v (filters a) (config a).

Definition set_filters (v : Filter.Filters) (a : Audio) : Audio :=
  mkAudio (AudioRing a) (AudioRingWrite a) (AudioRingRead a)
    (AudioRingFilled a) (AudioStartThreshold a) (AudioRunning a)
    (AudioVideoIsReady a) (AudioSkip a) v (config a).

(** A slot that was never set up: static storage is zeroed. *)
Definition zero_ring : AudioRingRing :=
  mkAudioRingRing false 0 0 0 0 0 0 0 (RingBufferNew AudioRingBufferSize).

(** [AudioRing[i]] *)
Definition ring_at (a : Audio) (i : Z) : AudioRingRing :=
  nth (Z.to_nat i) (AudioRing a) zero_ring.

(** [AudioRing[i] = r] *)
Definition set_ring_at (i : Z) (r : AudioRingRing) (a : Audio) : Audio :=
  set_AudioRing (<[Z.to_nat i := r]> (AudioRing a)) a.

Definition with_RingBuffer (rb : RingBuffer) (r : AudioRingRing)
    : AudioRingRing :=
  mkAudioRingRing (FlushBuffers r) (UseAc3 r) (PacketSize r) (HwSampleRate r)
    (HwChannels r) (InSampleRate r) (InChannels r) (PTS r) rb.

Definition with_PTS (pts : Z) (r : AudioRingRing) : AudioRingRing :=
  mkAudioRingRing (FlushBuffers r) (UseAc3 r) (PacketSize r) (HwSampleRate r)
    (HwChannels r) (InSampleRate r) (InChannels r) pts (RingBuffer_ r).

Definition with_PacketSize (n : Z) (r : AudioRingRing) : AudioRingRing :=
  mkAudioRingRing (FlushBuffers r) (UseAc3 r) n (HwSampleRate r)
    (HwChannels r) (InSampleRate r) (InChannels r) (PTS r) (RingBuffer_ r).

(** The search loop of [AudioRingAdd]:
    [for (u = 0; u < AudioRatesMax; ++u) if (AudioRatesTable[u] == sample_rate) break;] *)
Fixpoint search_rate (table : list Z) (u : Z) (sample_rate : Z) : Z :=
  match table with
  | [] => u
  | r :: table' =>
      if r =? sample_rate then u else search_rate table' (u + 1) sample_rate
  end.

(** [AudioChannelMatrix[u][channels]]. Neither [AudioRingAdd] nor its
    caller checks [channels] against the nine columns, so the read is
    the [int] at place [u * 9 + channels] of the table laid out row
    after row: an entry of row [u] for a column from 0 to 8, an entry
    of the other row when the place still falls inside the table, and
    what lies around the table otherwise. *)
Definition matrix_at (a : Audio) (u channels : Z) : Z :=
  let k := u * 9 + channels in
  if (0 <=? k) && (k <? AudioRatesMax * 9)
  then nth (Z.to_nat (k mod 9))
         (nth (Z.to_nat (k / 9)) (AudioChannelMatrix (config a)) []) 0
  else AudioChannelMatrixAround (config a) k.

(** [AudioRingAdd]: the return value and the new state. *)
Definition AudioRingAdd (sample_rate channels use_ac3 : Z) (a : Audio)
    : Z * Audio :=
  let u := search_rate AudioRatesTable 0 sample_rate in
  if u =? AudioRatesMax then (-1, a)
  else if negb (truthy (matrix_at a u channels)) then (-1, a)
  else if AudioRingFilled a =? AUDIO_RING_MAX then (-1, a)
  else
    let w := Z.rem (AudioRingWrite a + 1) AUDIO_RING_MAX in
    let a1 := set_AudioRingWrite w a in
    let r :=
      mkAudioRingRing true (wrap_s8 use_ac3) 0
        sample_rate (wrap_u32 (matrix_at a u channels))
        sample_rate (wrap_u32 channels)
        PTS_SENTINEL (RingBufferReset (RingBuffer_ (ring_at a1 w))) in
    let a2 := set_ring_at w r a1 in
    let a3 := set_AudioRingFilled (AudioRingFilled a2 + 1) a2 in
    let a4 := if AudioThread (config a3) then set_AudioRunning true a3
              else a3 in
    (0, a4).

(** [AudioSetup]: [freq] and [channels] are the values behind the two
    pointers, which are never written on this code path. *)
Definition AudioSetup (freq channels use_ac3 : Z) (a : Audio) : Z * Audio :=
  if negb (truthy freq) || negb (truthy channels) then (-1, a)
  else AudioRingAdd (wrap_u32 freq) channels use_ac3 a.

(** The polling loop that ends [AudioFlushBuffers]:
    [for (i = 0; i < 24 * 2; ++i) { if (!AudioRunning) { AudioRunning = 1; ... }
       if (!atomic_read(&AudioRingFilled)) break; usleep(1 * 1000); }].
    Only the caller's own assignments are modelled; what the playback
    thread does while the caller sleeps is not. *)
Fixpoint AudioFlushBuffers_wait (n : nat) (a : Audio) : Audio :=
  match n with
  | O => a
  | S n' =>
      let a1 := if negb (AudioRunning a) then set_AudioRunning true a else a in
      if negb (truthy (AudioRingFilled a1)) then a1
      else AudioFlushBuffers_wait n' a1
  end.

(** [AudioFlushBuffers] (returns [void]). *)
Definition AudioFlushBuffers (a : Audio) : Audio :=
  let old := AudioRingWrite a in
  let w := Z.rem (AudioRingWrite a + 1) AUDIO_RING_MAX in
  let a1 := set_AudioRingWrite w a in
  let o := ring_at a1 old in
  let n := ring_at a1 w in
  let r :=
    mkAudioRingRing true (UseAc3 o) (PacketSize n)
      (HwSampleRate o) (HwChannels o) (InSampleRate o) (InChannels o)
      PTS_SENTINEL
      (RingBufferReadAdvance (RingBuffer_ n)
         (RingBufferUsedBytes (RingBuffer_ n))) in
  let a2 := set_ring_at w r a1 in
  let a3 := set_AudioVideoIsReady false a2 in
  let a4 := set_AudioSkip 0 a3 in
  let a5 := set_AudioRingFilled (AudioRingFilled a4 + 1) a4 in
  AudioFlushBuffers_wait (Z.to_nat (24 * 2)) a5.

(** The divisor [HwSampleRate * HwChannels * AudioBytesProSample] of
    the clock computations, an [unsigned] product. *)
Definition bytes_per_second (r : AudioRingRing) : Z :=
  wrap_u32 (HwSampleRate r * HwChannels r * Remix.AudioBytesProSample).

(** [AudioGetDelay]; [module_delay] is what [AudioUsedModule->GetDelay()]
    returns when it is called. *)
Definition AudioGetDelay (module_delay : Z) (a : Audio) : Z :=
  if negb (AudioRunning a) then 0
  else if negb (truthy (HwSampleRate (ring_at a (AudioRingRead a)))) then 0
  else if truthy (AudioRingFilled a) then 0
  else
    let r := ring_at a (AudioRingRead a) in
    wrap_s64
      (module_delay
       + Z.quot (wrap_s64 (RingBufferUsedBytes (RingBuffer_ r) * 90 * 1000))
           (bytes_per_second r)).

(** [AudioSetClock] *)
Definition AudioSetClock (pts : Z) (a : Audio) : Audio :=
  set_ring_at (AudioRingWrite a)
    (with_PTS pts (ring_at a (AudioRingWrite a))) a.

(** [AudioGetClock] *)
Definition AudioGetClock (module_delay : Z) (a : Audio) : Z :=
  let r := ring_at a (AudioRingRead a) in
  if negb (PTS r =? PTS_SENTINEL) then
    let delay := AudioGetDelay module_delay a in
    if truthy delay then
      if truthy (UseAc3 r) then wrap_s64 (PTS r + 0 * 90 - delay)
      else wrap_s64 (PTS r + 0 * 90 - delay)
    else PTS_SENTINEL
  else PTS_SENTINEL.

(** The memory [alloca(n)] returns: [n] bytes, that is [n / 2] samples,
    whose initial contents [scratch] are whatever the stack held. *)
Definition alloca (n : Z) (scratch : samples) : samples :=
  take (Z.to_nat (n / 2)) (scratch ++ replicate (Z.to_nat (n / 2)) 0).

(** [frames = count / (InChannels * AudioBytesProSample)], an unsigned
    division whose result is stored in an [int]. *)
Definition enqueue_frames (count : Z) (r : AudioRingRing) : Z :=
  wrap_s32
    (wrap_u32 count / wrap_u32 (InChannels r * Remix.AudioBytesProSample)).

(** [frames * HwChannels * AudioBytesProSample], an [unsigned] product:
    the size of the converted buffer. *)
Definition enqueue_size (count : Z) (r : AudioRingRing) : Z :=
  wrap_u32 (enqueue_frames count r * HwChannels r * Remix.AudioBytesProSample).

(** The value of [count] once the input is in hardware format: the
    number of bytes handed to the ring. *)
Definition hw_count (count : Z) (r : AudioRingRing) : Z :=
  if truthy (UseAc3 r) then count else wrap_s32 (enqueue_size count r).

(** The conversion step of [AudioEnqueue]: the buffer that goes to the
    ring, its size in bytes and the new filter state. [None] is the
    [abort()] of the remixer. *)
Definition enqueue_convert (scratch samples_ : samples) (count : Z)
    (a : Audio) : option (samples * Z * Filter.Filters) :=
  let r := ring_at a (AudioRingWrite a) in
  if truthy (UseAc3 r) then Some (samples_, count, filters a)
  else
    let frames := enqueue_frames count r in
    match Remix.AudioResample samples_ (wrap_s32 (InChannels r)) frames
            (alloca (enqueue_size count r) scratch)
            (wrap_s32 (HwChannels r)) with
    | None => None
    | Some buffer =>
        let count' := wrap_s32 (enqueue_size count r) in
        let '(f1, b1) :=
          if AudioCompression (config a)
          then Filter.AudioCompressor (filters a) buffer count'
          else (filters a, buffer) in
        let '(f2, b2) :=
          if AudioNormalize (config a)
          then Filter.AudioNormalizer f1 b1 count'
          else (f1, b1) in
        Some (b2, count', f2)
    end.

(** The start check of [AudioEnqueue], entered when [!AudioRunning]. *)
Definition enqueue_start (a : Audio) : Audio :=
  let w := AudioRingWrite a in
  let skip := AudioSkip a in
  let a1 :=
    if truthy skip then
      let n := RingBufferUsedBytes (RingBuffer_ (ring_at a w)) in
      let skip' := if n <? wrap_u32 skip then wrap_s32 n else skip in
      let a' := set_AudioSkip (wrap_s32 (AudioSkip a - skip')) a in
      set_ring_at w
        (with_RingBuffer
           (RingBufferReadAdvance (RingBuffer_ (ring_at a' w))
              (wrap_u64 skip'))
           (ring_at a' w)) a'
    else a in
  let n := RingBufferUsedBytes (RingBuffer_ (ring_at a1 w)) in
  if (wrap_u32 (AudioStartThreshold a1 * 4) <? n)
     || (AudioVideoIsReady a1 && (AudioStartThreshold a1 <? n))
  then set_AudioRunning true a1
  else a1.

(** The clock update that ends [AudioEnqueue]; [count] is the number
    of bytes handed to the ring. *)
Definition enqueue_clock (count : Z) (a : Audio) : Audio :=
  let w := AudioRingWrite a in
  let r := ring_at a w in
  if negb (PTS r =? PTS_SENTINEL) then
    set_ring_at w
      (with_PTS
         (wrap_s64
            (PTS r + Z.quot (wrap_s64 (count * 90 * 1000))
                       (bytes_per_second r)))
         r) a
  else a.

(** [AudioEnqueue]. [scratch] is the indeterminate content of the
    [alloca] buffer; [None] is [abort()]. *)
Definition AudioEnqueue (scratch samples_ : samples) (count : Z) (a : Audio)
    : option Audio :=
  let w := AudioRingWrite a in
  if negb (truthy (HwSampleRate (ring_at a w))) then Some a
  else
    let a1 :=
      if negb (truthy (PacketSize (ring_at a w)))
      then set_ring_at w (with_PacketSize (wrap_s16 count) (ring_at a w)) a
      else a in
    match enqueue_convert scratch samples_ count a1 with
    | None => None
    | Some (buffer, count', f) =>
        let a2 := set_filters f a1 in
        let a3 :=
          set_ring_at w
            (with_RingBuffer
               (fst (RingBufferWrite (RingBuffer_ (ring_at a2 w)) buffer
                       (wrap_u64 count')))
               (ring_at a2 w)) a2 in
        let a4 := if negb (AudioRunning a3) then enqueue_start a3 else a3 in
        Some (enqueue_clock count' a4)
    end.

(** ** The ALSA driver's setup *)

(** What the ALSA library answers during one [AlsaSetup]. *)
Record AlsaAnswers := mkAlsaAnswers {
  AlsaPCMHandle : bool;
  AlsaOpenPCM : bool;
  snd_pcm_set_params : Z;
  period_size_bytes : Z
}.

(** [AlsaSetup]; [freq] and [channels] are the values behind the
    pointers, [period_size_bytes] is
    [snd_pcm_frames_to_bytes(AlsaPCMHandle, period_size)]. *)
Definition AlsaSetup (alsa : AlsaAnswers) (freq channels use_ac3 : Z)
    (a : Audio) : Z * Audio :=
  if negb (AlsaPCMHandle alsa) then (-1, a)
  else if negb (AlsaOpenPCM alsa) then (-1, a)
  else if truthy (snd_pcm_set_params alsa) then (-1, a)
  else
    let t0 := wrap_u32 (period_size_bytes alsa) in
    let delay :=
      if VideoAudioDelay (config a) >? 0
      then wrap_s32 (AudioBufferTime (config a)
                     + Z.quot (VideoAudioDelay (config a)) 90)
      else AudioBufferTime (config a) in
    let bytes :=
      wrap_u32
        (wrap_s32 (freq * channels * Remix.AudioBytesProSample * delay))
      / 1000 in
    let t1 := if t0 <? bytes then bytes else t0 in
    let t2 := if t1 >? AudioRingBufferSize / 3
              then AudioRingBufferSize / 3 else t1 in
    (0, set_AudioStartThreshold t2 a).

(** ** States used in examples *)

(** The channel matrix [AudioInit] builds when the device supports
    two-channel output only. *)
Definition stereo_matrix : list (list Z) :=
  [[0; 2; 2; 2; 2; 2; 2; 2; 2]; [0; 2; 2; 2; 2; 2; 2; 2; 2]].

Definition default_filters : Filter.Filters :=
  Filter.mkFilters (replicate 128 0) 0 0 0 1000 2000 2000 3000.

Definition default_config : Config :=
  mkConfig true 336 0 false false false false 1000 stereo_matrix
    (fun _ => 0).

(** The state [AudioInit] leaves on an ALSA device that plays two
    channels only: eight empty slots, nothing queued, the playback
    thread created and waiting, and the start threshold of the last
    probing [AlsaSetup] (48 kHz, two channels, a period of
    [period_bytes] bytes). *)
Definition audio_after_init (cfg : Config) (period_bytes : Z) : Audio :=
  snd (AlsaSetup (mkAlsaAnswers true true 0 period_bytes) 48000 2 0
         (mkAudio (replicate 8 zero_ring) 0 0 0 0 false false 0
            default_filters cfg)).

Definition init_audio : Audio := audio_after_init default_config 4608.

(** Eight set-ups in a row while the playback thread drains nothing:
    every slot is in flight. *)
Definition full_audio : Audio :=
  Nat.iter 8 (fun a => snd (AudioSetup 48000 2 0 a)) init_audio.

(** What the playback thread leaves when it has taken over the one
    queued segment (flush scan: flag cleared, read index on the
    segment, nothing left queued), found less than a threshold in it
    and gone back to wait. *)
Definition segment_taken (a : Audio) : Audio :=
  let w := AudioRingWrite a in
  let r := ring_at a w in
  set_AudioRunning false
    (set_AudioRingFilled 0
       (set_AudioRingRead w
          (set_ring_at w
             (mkAudioRingRing false (UseAc3 r) (PacketSize r)
                (HwSampleRate r) (HwChannels r) (InSampleRate r)
                (InChannels r) (PTS r) (RingBuffer_ r)) a))).

(** One 48 kHz stereo segment set up and taken over by the waiting
    playback thread, its clock set to one second. *)
Definition waiting_audio : Audio :=
  AudioSetClock 90000
    (segment_taken (snd (AudioSetup 48000 2 0 init_audio))).

(** The same with a buffer time of 1 ms and a period of 64 bytes, so
    that the start threshold is 192 bytes. *)
Definition quick_audio : Audio :=
  AudioSetClock 90000
    (segment_taken
       (snd (AudioSetup 48000 2 0
               (audio_after_init
                  (mkConfig true 1 0 false false false false 1000
                     stereo_matrix (fun _ => 0)) 64)))).

(** What the clock computations need of the write segment. *)
Definition format_of (a : Audio)
    : Z * nat * (Z * Z * Z * Z * Z) :=
  let r := ring_at a (AudioRingWrite a) in
  (AudioRingWrite a, length (AudioRing a),
   (UseAc3 r, InChannels r, HwChannels r, HwSampleRate r, PTS r)).

(** Channel counts that [AudioInit] can put into a segment. *)
Definition channels_ok (r : AudioRingRing) : Prop :=
  truthy (UseAc3 r) = true
  \/ (1 <= InChannels r <= 8 /\ 1 <= HwChannels r <= 8).

(** The accumulated sums of the 5.1 case for the frame that starts at
    offset [ip] of [in_]. *)
Definition l6 (in_ : samples) (ip : Z) : Z :=
  rd in_ (ip + 0) * 400 + rd in_ (ip + 2) * 200 + rd in_ (ip + 4) * 300
  + rd in_ (ip + 5) * 300.

Definition r6 (in_ : samples) (ip : Z) : Z :=
  rd in_ (ip + 1) * 400 + rd in_ (ip + 3) * 200 + rd in_ (ip + 4) * 300
  + rd in_ (ip + 5) * 100.

(** When [AudioRingAdd] refuses a request. *)
Definition add_rejected (sample_rate channels : Z) (a : Audio) : Prop :=
  (sample_rate <> 44100 /\ sample_rate <> 48000)
  \/ (sample_rate = 44100 /\ matrix_at a 0 channels = 0)
  \/ (sample_rate = 48000 /\ matrix_at a 1 channels = 0)
  \/ AudioRingFilled a = 8.

(** ** Further operations of [audio.c] *)

(** The [onoff] convention of the configuration setters: a negative
    value toggles bit 0 of the [char] flag ([flag ^= 1]), any other
    value is stored ([flag = onoff]). *)
Definition set_onoff (onoff flag : Z) : Z :=
  if onoff <? 0 then wrap_s8 (Z.lxor flag 1) else wrap_s8 onoff.

(** [AudioSetSoftvol]: the new value of [AudioSoftVolume]. *)
Definition AudioSetSoftvol (onoff : Z) (AudioSoftVolume_ : Z) : Z :=
  set_onoff onoff AudioSoftVolume_.

(** [AudioSetNormalize]: the new [AudioNormalize] flag and filter
    globals. *)
Definition AudioSetNormalize (onoff maxfac : Z) (AudioNormalize_ : Z)
    (f : Filter.Filters) : Z * Filter.Filters :=
  (set_onoff onoff AudioNormalize_,
   Filter.mkFilters (Filter.AudioNormAverage f) (Filter.AudioNormIndex f)
     (Filter.AudioNormReady f) (Filter.AudioNormCounter f)
     (Filter.AudioNormalizeFactor f) maxfac
     (Filter.AudioCompressionFactor f) (Filter.AudioMaxCompression f)).

(** [AudioSetCompression]: the new [AudioCompression] flag and filter
    globals. *)
Definition AudioSetCompression (onoff maxfac : Z) (AudioCompression_ : Z)
    (f : Filter.Filters) : Z * Filter.Filters :=
  let c0 := if negb (truthy (Filter.AudioCompressionFactor f))
            then 1000 else Filter.AudioCompressionFactor f in
  let c1 := if c0 >? maxfac then maxfac else c0 in
  (set_onoff onoff AudioCompression_,
   Filter.mkFilters (Filter.AudioNormAverage f) (Filter.AudioNormIndex f)
     (Filter.AudioNormReady f) (Filter.AudioNormCounter f)
     (Filter.AudioNormalizeFactor f) (Filter.AudioMaxNormalize f)
     c1 maxfac).

(** [AudioSetBufferTime]: the new value of [AudioBufferTime]. *)
Definition AudioSetBufferTime (delay : Z) : Z :=
  if negb (truthy delay) then 336 else delay.

(** The two volume globals that are not part of [Config]. *)
Record Mixer := mkMixer {
  AudioVolume : Z;
  AudioStereoDescent : Z
}.

Definition set_config (v : Config) (a : Audio) : Audio :=
  mkAudio (AudioRing a) (AudioRingWrite a) (AudioRingRead a)
    (AudioRingFilled a) (AudioStartThreshold a) (AudioRunning a)
    (AudioVideoIsReady a) (AudioSkip a) (filters a) v.

Definition with_volume (mute : bool) (amplifier : Z) (c : Config) : Config :=
  mkConfig (AudioThread c) (AudioBufferTime c) (VideoAudioDelay c)
    (AudioSoftVolume c) (AudioNormalize c) (AudioCompression c)
    mute amplifier (AudioChannelMatrix c) (AudioChannelMatrixAround c).

(** [AudioSetVolume]: the new globals and, when the software volume is
    off, the value handed to [AudioUsedModule->SetVolume]. *)
Definition AudioSetVolume (volume : Z) (m : Mixer) (a : Audio)
    : Mixer * Audio * option Z :=
  let r := ring_at a (AudioRingRead a) in
  let volume' :=
    if truthy (AudioStereoDescent m) && (InChannels r =? 2)
       && negb (truthy (UseAc3 r))
    then
      let v := wrap_s32 (volume - AudioStereoDescent m) in
      if v <? 0 then 0 else if v >? 1000 then 1000 else v
    else volume in
  (mkMixer volume (AudioStereoDescent m),
   set_config (with_volume (negb (truthy volume)) volume' (config a)) a,
   if negb (AudioSoftVolume (config a)) then Some volume' else None).

(** [AudioSetStereoDescent] *)
Definition AudioSetStereoDescent (delta : Z) (m : Mixer) (a : Audio)
    : Mixer * Audio * option Z :=
  AudioSetVolume (AudioVolume m) (mkMixer (AudioVolume m) delta) a.

(** [AudioVideoReady] *)
Definition AudioVideoReady (pts : Z) (a : Audio) : Audio :=
  if pts =? PTS_SENTINEL then a
  else
    let w := AudioRingWrite a in
    let r := ring_at a w in
    if negb (truthy (HwSampleRate r)) || negb (truthy (HwChannels r))
       || (PTS r =? PTS_SENTINEL)
    then set_AudioVideoIsReady true a
    else
      let used := RingBufferUsedBytes (RingBuffer_ r) in
      let audio_pts :=
        wrap_s64
          (wrap_u64
             (wrap_u64 (PTS r)
              - wrap_u64 (used * 90 * 1000) / bytes_per_second r)) in
      let a1 :=
        if negb (AudioRunning a) then
          let skip :=
            wrap_s32
              (wrap_s64
                 (pts - 15 * 20 * 90
                  - wrap_s32 (AudioBufferTime (config a) * 90)
                  - audio_pts + VideoAudioDelay (config a))) in
          let a2 :=
            if (skip >? 0) && (skip <? 2000 * 90) then
              let skip1 :=
                wrap_s32
                  (wrap_s64
                     (Z.quot (wrap_s64 (skip * HwSampleRate r)) (1000 * 90)
                      * HwChannels r * Remix.AudioBytesProSample)) in
              let a3 :=
                if wrap_u32 skip1 >? used
                then set_AudioSkip
                       (wrap_s32 (wrap_u64 (wrap_u64 skip1 - used))) a
                else a in
              let skip2 :=
                if wrap_u32 skip1 >? used then wrap_s32 used else skip1 in
              set_ring_at w
                (with_RingBuffer
                   (RingBufferReadAdvance (RingBuffer_ (ring_at a3 w))
                      (wrap_u64 skip2))
                   (ring_at a3 w)) a3
            else a in
          let used' := RingBufferUsedBytes (RingBuffer_ (ring_at a2 w)) in
          if AudioStartThreshold a2 <? used'
          then set_AudioRunning true a2
          else a2
        else a in
      set_AudioVideoIsReady true a1.

(** The flush scan at the head of the playback thread's loop:
    [filled = atomic_read(&AudioRingFilled); read = AudioRingRead;
     while (filled--) { read = (read + 1) % AUDIO_RING_MAX;
       if (AudioRing[read].FlushBuffers) { ... flush = 1; } }].
    The result is the [flush] flag and the new state. *)
Fixpoint flush_scan (fuel : nat) (filled read : Z) (flush : bool)
    (a : Audio) : bool * Audio :=
  match fuel with
  | O => (flush, a)
  | S fuel' =>
      if negb (truthy filled) then (flush, a)
      else
        let filled' := filled - 1 in
        let read' := Z.rem (read + 1) AUDIO_RING_MAX in
        let r := ring_at a read' in
        if FlushBuffers r then
          let a1 :=
            set_ring_at read'
              (mkAudioRingRing false (UseAc3 r) (PacketSize r)
                 (HwSampleRate r) (HwChannels r) (InSampleRate r)
                 (InChannels r) (PTS r) (RingBuffer_ r)) a in
          let a2 := set_AudioRingRead read' a1 in
          let a3 := set_AudioRingFilled filled' a2 in
          flush_scan fuel' filled' read' true a3
        else flush_scan fuel' filled' read' flush a
  end.

Definition thread_flush_scan (a : Audio) : bool * Audio :=
  flush_scan (Z.to_nat (AudioRingFilled a)) (AudioRingFilled a)
    (AudioRingRead a) false a.

(** [AudioNextRing]; [Setup] is [AudioUsedModule->Setup] applied to
    the values behind its pointers. The result is the return value,
    the volume globals, the state and the value handed to
    [AudioUsedModule->SetVolume], if any. *)
Definition AudioNextRing (Setup : Z -> Z -> Z -> Audio -> Z * Audio)
    (m : Mixer) (a : Audio) : Z * Mixer * Audio * option Z :=
  let r := ring_at a (AudioRingRead a) in
  let use_ac3 := UseAc3 r in
  let sample_rate := wrap_s32 (HwSampleRate r) in
  let channels := wrap_s32 (HwChannels r) in
  let '(ret, a1) := Setup sample_rate channels use_ac3 a in
  if truthy ret then
    let r1 := ring_at a1 (AudioRingRead a1) in
    (-1, m,
     set_ring_at (AudioRingRead a1)
       (mkAudioRingRing (FlushBuffers r1) (UseAc3 r1) (PacketSize r1)
          0 (HwChannels r1) 0 (InChannels r1) (PTS r1) (RingBuffer_ r1))
       a1,
     None)
  else
    let '(m2, a2, hw) := AudioSetVolume (AudioVolume m) m a1 in
    let a3 :=
      set_filters
        (Filter.AudioResetNormalizer (Filter.AudioResetCompressor (filters a2)))
        a2 in
    (if AudioStartThreshold a3
        >=? RingBufferUsedBytes
              (RingBuffer_ (ring_at a3 (AudioRingRead a3)))
     then 1 else 0,
     m2, a3, hw).

(** The [switch (chan)] of [AudioInit] that picks a hardware channel
    count for an input count the hardware does not play, with its
    fall-through from each case into the next. [hw c] is
    [AudioChannelsInHw[c]]. *)
Definition matrix_case8 (hw : Z -> Z) : Z :=
  if truthy (hw 6) then 6
  else if truthy (hw 2) then 2
  else if truthy (hw 1) then 1
  else 0.

Definition matrix_case7 (hw : Z -> Z) : Z :=
  if truthy (hw 8) then 8 else matrix_case8 hw.

Definition matrix_case6 (hw : Z -> Z) : Z :=
  if truthy (hw 7) then 7 else matrix_case7 hw.

Definition matrix_case5 (hw : Z -> Z) : Z :=
  if truthy (hw 6) then 6 else matrix_case6 hw.

Definition matrix_case4 (hw : Z -> Z) : Z :=
  if truthy (hw 5) then 5 else matrix_case5 hw.

Definition matrix_case2 (hw : Z -> Z) : Z :=
  if truthy (hw 4) then 4 else matrix_case4 hw.

Definition matrix_switch (hw : Z -> Z) (chan : Z) : Z :=
  if chan =? 1 then (if truthy (hw 2) then 2 else 0)
  else if (chan =? 2) || (chan =? 3) then matrix_case2 hw
  else if chan =? 4 then matrix_case4 hw
  else if chan =? 5 then matrix_case5 hw
  else if chan =? 6 then matrix_case6 hw
  else if chan =? 7 then matrix_case7 hw
  else if chan =? 8 then matrix_case8 hw
  else 0.

(** One entry of the table [AudioInit] builds:
    [AudioChannelMatrix[u][chan]] for [chan] from 1 to 8, from
    [AudioRatesInHw[u]] and [AudioChannelsInHw]. *)
Definition matrix_entry (rate_in_hw : Z) (AudioChannelsInHw : list Z)
    (chan : Z) : Z :=
  let hw := fun c => nth (Z.to_nat c) AudioChannelsInHw 0 in
  if negb (truthy rate_in_hw) then 0
  else if truthy (hw chan) then chan
  else matrix_switch hw chan.

(** The table itself; column 0 is never assigned and stays 0. *)
Definition build_matrix (AudioRatesInHw AudioChannelsInHw : list Z)
    : list (list Z) :=
  map (fun rate_in_hw =>
         0 :: map (matrix_entry rate_in_hw AudioChannelsInHw)
                [1; 2; 3; 4; 5; 6; 7; 8])
    AudioRatesInHw.

(** [AlsaGetDelay] of the ring code; [snd_pcm_delay] is the library's
    answer ([None] when it fails). *)
Definition AlsaGetDelay (AlsaPCMHandle_ : bool) (snd_pcm_delay : option Z)
    (a : Audio) : Z :=
  let r := ring_at a (AudioRingRead a) in
  if negb AlsaPCMHandle_ || negb (truthy (HwSampleRate r)) then 0
  else
    let delay := match snd_pcm_delay with Some d => d | None => 0 end in
    let delay := if delay <? 0 then 0 else delay in
    Z.quot (wrap_s64 (delay * 90 * 1000)) (HwSampleRate r).

(** The bounds the normaliser keeps on its globals: the sample
    counter stays inside a block, the block index inside the table of
    averages. *)
Definition norm_wf (f : Filter.Filters) : Prop :=
  0 <= Filter.AudioNormCounter f < Filter.AudioNormSamples
  /\ 0 <= Filter.AudioNormIndex f < Filter.AudioNormMaxIndex
  /\ length (Filter.AudioNormAverage f) = Z.to_nat Filter.AudioNormMaxIndex.

(** The loop of [AudioCompressor] that finds the loudest sample. *)
Definition peak_step (p : samples) (i m : Z) : Z :=
  let t := Z.abs (rd p i) in if t >? m then t else m.

(** The ring of rings as [AudioRingInit] lays it out: eight slots and
    both indices inside them. *)
Definition ring_ok (a : Audio) : Prop :=
  length (AudioRing a) = Z.to_nat AUDIO_RING_MAX
  /\ 0 <= AudioRingWrite a < AUDIO_RING_MAX
  /\ 0 <= AudioRingRead a < AUDIO_RING_MAX.

(** [RingBufferUsedBytes(AudioRing[i].RingBuffer)] *)
Definition used_at (a : Audio) (i : Z) : Z :=
  RingBufferUsedBytes (RingBuffer_ (ring_at a i)).

(** The fields of a segment that only [AudioRingAdd],
    [AudioFlushBuffers] and the playback thread assign. *)
Definition slot_format (r : AudioRingRing)
    : bool * Z * Z * Z * Z * Z :=
  (FlushBuffers r, UseAc3 r, HwSampleRate r, HwChannels r, InSampleRate r,
   InChannels r).

(** [a'] differs from [a] at most in the write segment's packet size,
    PTS and ring, in the filter state, the pending skip and the
    running flag. *)
Definition producer_frame (a a' : Audio) : Prop :=
  AudioRingWrite a' = AudioRingWrite a
  /\ AudioRingRead a' = AudioRingRead a
  /\ AudioRingFilled a' = AudioRingFilled a
  /\ AudioStartThreshold a' = AudioStartThreshold a
  /\ AudioVideoIsReady a' = AudioVideoIsReady a
  /\ config a' = config a
  /\ length (AudioRing a') = length (AudioRing a)
  /\ slot_format (ring_at a' (AudioRingWrite a))
     = slot_format (ring_at a (AudioRingWrite a))
  /\ (forall i, Z.to_nat i <> Z.to_nat (AudioRingWrite a) ->
        ring_at a' i = ring_at a i).

(** The fields of a segment other than its flush flag. *)
Definition slot_data (r : AudioRingRing)
    : Z * Z * Z * Z * Z * Z * Z * RingBuffer :=
  (UseAc3 r, PacketSize r, HwSampleRate r, HwChannels r, InSampleRate r,
   InChannels r, PTS r, RingBuffer_ r).

(** The three assignments of the flush scan at a marked segment:
    [AudioRing[read].FlushBuffers = 0; AudioRingRead = read;
     atomic_set(&AudioRingFilled, filled);] *)
Definition scan_hit (read filled : Z) (a : Audio) : Audio :=
  let r := ring_at a read in
  set_AudioRingFilled filled
    (set_AudioRingRead read
       (set_ring_at read
          (mkAudioRingRing false (UseAc3 r) (PacketSize r)
             (HwSampleRate r) (HwChannels r) (InSampleRate r)
             (InChannels r) (PTS r) (RingBuffer_ r)) a)).

(** The slot [j] places after [read]. *)
Definition slot_after (read j : Z) : Z := Z.rem (read + j) AUDIO_RING_MAX.

(** Case analysis on every test of a C truth value in the goal. *)
Ltac split_truthy :=
  repeat match goal with
         | |- context [truthy ?x] =>
             let E := fresh "E" in destruct (truthy x) eqn:E
         end.

(** * Properties *)

(** ** Machine integers and sample buffers *)

Lemma wrap_s_small (w x : Z) :
  0 < w -> - 2 ^ (w - 1) <= x < 2 ^ (w - 1) -> wrap_s w x = x.
Proof.
  intros Hw Hx. unfold wrap_s.
  assert (E : 2 ^ w = 2 * 2 ^ (w - 1)).
  { replace w with (Z.succ (w - 1)) at 1 by lia.
    rewrite Z.pow_succ_r by lia. reflexivity. }
  rewrite Z.mod_small by lia. lia.
Qed.

Lemma wrap_s_range (w x : Z) :
  0 < w -> - 2 ^ (w - 1) <= wrap_s w x < 2 ^ (w - 1).
Proof.
  intros Hw. unfold wrap_s.
  assert (E : 2 ^ w = 2 * 2 ^ (w - 1)).
  { replace w with (Z.succ (w - 1)) at 1 by lia.
    rewrite Z.pow_succ_r by lia. reflexivity. }
  assert (P : 0 < 2 ^ (w - 1)) by (apply Z.pow_pos_nonneg; lia).
  pose proof (Z.mod_pos_bound (x + 2 ^ (w - 1)) (2 ^ w) ltac:(lia)). lia.
Qed.

Lemma wrap_s16_small (x : Z) : is_int16 x -> wrap_s16 x = x.
Proof.
  unfold is_int16, INT16_MIN, INT16_MAX. intros H.
  apply wrap_s_small; [lia | change (2 ^ (16 - 1)) with 32768; lia].
Qed.

Lemma wrap_s16_range (x : Z) : is_int16 (wrap_s16 x).
Proof.
  pose proof (wrap_s_range 16 x ltac:(lia)) as H.
  change (2 ^ (16 - 1)) with 32768 in H.
  unfold is_int16, INT16_MIN, INT16_MAX, wrap_s16. lia.
Qed.

Lemma wrap_s32_small (x : Z) : is_int32 x -> wrap_s32 x = x.
Proof.
  unfold is_int32, INT32_MIN, INT32_MAX. intros H.
  apply wrap_s_small; [lia | change (2 ^ (32 - 1)) with 2147483648; lia].
Qed.

Lemma wrap_s64_small (x : Z) : is_int64 x -> wrap_s64 x = x.
Proof.
  unfold is_int64, INT64_MIN, INT64_MAX. intros H.
  apply wrap_s_small;
    [lia | change (2 ^ (64 - 1)) with 9223372036854775808; lia].
Qed.

Lemma wrap_u32_small (x : Z) : 0 <= x < 2 ^ 32 -> wrap_u32 x = x.
Proof. intros H. unfold wrap_u32, wrap_u. apply Z.mod_small. exact H. Qed.

Lemma length_wr (p : samples) (i v : Z) : length (wr p i v) = length p.
Proof. unfold wr. destruct (i <? 0); [reflexivity | apply length_insert]. Qed.

Lemma rd_wr_eq (p : samples) (i v : Z) :
  0 <= i -> (Z.to_nat i < length p)%nat -> rd (wr p i v) i = wrap_s16 v.
Proof.
  intros Hi Hl. unfold rd, wr.
  destruct (Z.ltb_spec i 0); [lia |].
  rewrite nth_lookup, list_lookup_insert_eq by exact Hl. reflexivity.
Qed.

Lemma rd_wr_ne (p : samples) (i j v : Z) : i <> j -> rd (wr p i v) j = rd p j.
Proof.
  intros Hne. unfold rd, wr.
  destruct (Z.ltb_spec j 0); [reflexivity |].
  destruct (Z.ltb_spec i 0); [reflexivity |].
  rewrite !nth_lookup, list_lookup_insert_ne by lia. reflexivity.
Qed.

Lemma rd_outside (p : samples) (i : Z) :
  (length p <= Z.to_nat i)%nat -> rd p i = 0.
Proof.
  intros H. unfold rd. destruct (i <? 0); [reflexivity |].
  apply nth_overflow. exact H.
Qed.

(** A counting loop leaves through its condition: any two fuels that
    cover the distance to the bound give the same result. *)
Lemma c_for_enough_fuel {S : Type} (body : Z -> S -> S) (bound step : Z)
    (f1 f2 : nat) (i : Z) (s : S) :
  0 < step ->
  bound - i <= step * Z.of_nat f1 ->
  bound - i <= step * Z.of_nat f2 ->
  c_for f1 i bound step body s = c_for f2 i bound step body s.
Proof.
  intros Hstep. revert f2 i s.
  induction f1 as [| f1 IH]; intros f2 i s H1 H2.
  - destruct f2 as [| f2]; [reflexivity |]. simpl.
    destruct (Z.ltb_spec i bound); [lia | reflexivity].
  - simpl. destruct (Z.ltb_spec i bound) as [Hlt | Hge].
    + destruct f2 as [| f2]; [simpl in H2; lia |]. simpl.
      destruct (Z.ltb_spec i bound); [| lia].
      apply IH; lia.
    + destruct f2 as [| f2]; [reflexivity |]. simpl.
      destruct (Z.ltb_spec i bound); [lia | reflexivity].
Qed.

(** A loop that rewrites one sample per round, [p[i] = f(p[i])] for
    [i] from [lo] up to [hi], changes exactly those samples. *)
Lemma c_for_pointwise (f : Z -> Z) (hi : Z) (fuel : nat) (lo : Z)
    (p : samples) (k : Z) :
  0 <= lo -> hi - lo <= Z.of_nat fuel ->
  rd (c_for fuel lo hi 1 (fun i q => wr q i (f (rd q i))) p) k =
  if (lo <=? k) && (k <? hi) && (k <? Z.of_nat (length p))
  then wrap_s16 (f (rd p k)) else rd p k.
Proof.
  revert lo p. induction fuel as [| fuel IH]; intros lo p Hlo Hfuel.
  - simpl. destruct (Z.leb_spec lo k), (Z.ltb_spec k hi); simpl;
      try reflexivity; lia.
  - simpl. destruct (Z.ltb_spec lo hi) as [Hlt | Hge].
    + rewrite IH by lia. rewrite length_wr.
      destruct (Z.eq_dec k lo) as [-> | Hne].
      * destruct (Z.leb_spec (lo + 1) lo); [lia |]. simpl.
        destruct (Z.leb_spec lo lo); [| lia].
        destruct (Z.ltb_spec lo hi); [| lia]. simpl.
        destruct (Z.ltb_spec lo (Z.of_nat (length p))).
        -- apply rd_wr_eq; lia.
        -- unfold wr. destruct (lo <? 0); [reflexivity |].
           rewrite list_insert_ge by lia. reflexivity.
      * rewrite !rd_wr_ne by lia.
        destruct (Z.leb_spec (lo + 1) k), (Z.leb_spec lo k); simpl;
          try reflexivity; lia.
    + destruct (Z.leb_spec lo k), (Z.ltb_spec k hi); simpl;
        try reflexivity; lia.
Qed.

(** ** Channel remix *)

(** The loop counter advances by two, so the loop never stores at or
    beyond sample [(frames + 1) / 2]. *)
Lemma AudioStereo2Mono_loop_untouched (in_ : samples) (frames : Z)
    (fuel : nat) (i : Z) (out : samples) (k : Z) :
  0 <= i -> (frames + 1) / 2 <= k ->
  rd (c_for fuel i frames 2 (Remix.stereo2mono_step in_) out) k = rd out k.
Proof.
  revert i out. induction fuel as [| fuel IH]; intros i out Hi Hk.
  - reflexivity.
  - simpl. destruct (Z.ltb_spec i frames) as [Hlt | Hge]; [| reflexivity].
    rewrite IH by lia. unfold Remix.stereo2mono_step. apply rd_wr_ne.
    rewrite Z.quot_div_nonneg by lia.
    assert (i / 2 < (frames + 1) / 2); [| lia].
    apply Z.div_lt_upper_bound; [lia |].
    pose proof (Z.mul_div_le (frames + 1) 2 ltac:(lia)).
    pose proof (Z.mod_pos_bound (frames + 1) 2 ltac:(lia)).
    pose proof (Z.div_mod (frames + 1) 2 ltac:(lia)). lia.
Qed.

(** Nor does it store below the sample its counter stands for. *)
Lemma AudioStereo2Mono_loop_below (in_ : samples) (frames : Z)
    (fuel : nat) (i : Z) (out : samples) (k : Z) :
  0 <= i -> 2 * k + 1 < i ->
  rd (c_for fuel i frames 2 (Remix.stereo2mono_step in_) out) k = rd out k.
Proof.
  revert i out. induction fuel as [| fuel IH]; intros i out Hi Hk.
  - reflexivity.
  - simpl. destruct (Z.ltb_spec i frames) as [Hlt | Hge]; [| reflexivity].
    rewrite IH by lia. unfold Remix.stereo2mono_step. apply rd_wr_ne.
    rewrite Z.quot_div_nonneg by lia.
    pose proof (Z.mod_pos_bound i 2 ltac:(lia)).
    pose proof (Z.div_mod i 2 ltac:(lia)). lia.
Qed.

(** What the loop does store: output sample [k] is the mean of input
    samples [2k] and [2k + 1], as long as [2k] is below [frames]. *)
Lemma AudioStereo2Mono_loop_written (in_ : samples) (frames : Z)
    (fuel : nat) (m : Z) (out : samples) (k : Z) :
  0 <= m -> frames - 2 * m <= Z.of_nat fuel ->
  m <= k -> 2 * k < frames -> (Z.to_nat k < length out)%nat ->
  rd (c_for fuel (2 * m) frames 2 (Remix.stereo2mono_step in_) out) k =
  wrap_s16 (Z.quot (rd in_ (2 * k) + rd in_ (2 * k + 1)) 2).
Proof.
  revert m out. induction fuel as [| fuel IH]; intros m out Hm Hfuel Hk Hlt Hl.
  - simpl in Hfuel. lia.
  - simpl. destruct (Z.ltb_spec (2 * m) frames); [| lia].
    assert (Hq : Z.quot (2 * m) 2 = m).
    { rewrite Z.quot_div_nonneg by lia.
      rewrite Z.mul_comm. apply Z.div_mul. lia. }
    replace (2 * m + 2) with (2 * (m + 1)) by lia.
    destruct (Z.eq_dec k m) as [-> | Hne].
    + replace (2 * (m + 1)) with (2 * m + 2) by lia.
      rewrite AudioStereo2Mono_loop_below by lia.
      unfold Remix.stereo2mono_step. rewrite Hq.
      rewrite rd_wr_eq by lia.
      replace (2 * m + 0) with (2 * m) by lia. reflexivity.
    + apply IH; try lia.
      unfold Remix.stereo2mono_step. rewrite length_wr. exact Hl.
Qed.

Lemma AudioStereo2Mono_lower_half (in_ out : samples) (frames k : Z) :
  0 <= k -> 2 * k < frames -> (Z.to_nat k < length out)%nat ->
  is_int16 (rd in_ (2 * k)) -> is_int16 (rd in_ (2 * k + 1)) ->
  rd (Remix.AudioStereo2Mono in_ frames out) k =
  Z.quot (rd in_ (2 * k) + rd in_ (2 * k + 1)) 2.
Proof.
  intros Hk Hlt Hl H0 H1. unfold Remix.AudioStereo2Mono.
  change 0 with (2 * 0) at 1.
  rewrite AudioStereo2Mono_loop_written by lia.
  apply wrap_s16_small.
  unfold is_int16, INT16_MIN, INT16_MAX in *.
  Z.to_euclidean_division_equations. lia.
Qed.

(** C1. [AudioStereo2Mono] called on [frames] stereo frames does not
    produce [frames] mono samples: its loop counter runs over frames
    but advances by two, so every output sample from index
    [(frames + 1) / 2] on keeps the value the buffer held before the
    call. *)
Theorem AudioStereo2Mono_leaves_upper_half (in_ out : samples)
    (frames k : Z) :
  (frames + 1) / 2 <= k ->
  rd (Remix.AudioStereo2Mono in_ frames out) k = rd out k.
Proof.
  intros Hk. unfold Remix.AudioStereo2Mono.
  apply AudioStereo2Mono_loop_untouched; [lia | exact Hk].
Qed.

(** Two frames in, one sample out: frame 1 is never mixed. *)
Lemma AudioStereo2Mono_two_frames :
  (2 + 1) / 2 <= 1 /\
  rd (Remix.AudioStereo2Mono [100; 200; 300; 500] 2 [7; 7]) 1 = rd [7; 7] 1.
Proof.
  split; [vm_compute; discriminate |].
  apply (AudioStereo2Mono_leaves_upper_half [100; 200; 300; 500] [7; 7] 2 1).
  vm_compute. discriminate.
Defined.

Example stereo2mono_example :
  Remix.AudioStereo2Mono [100; 200; 300; 500] 2 [7; 7] = [150; 7]
  /\ Z.quot (300 + 500) 2 = 400.
Proof. split; reflexivity. Qed.

Section Surround2Stereo.

Variable in_ : samples.
Variable in_chan : Z.

Lemma AudioSurround2Stereo_loop_length (n : nat) (ip : Z)
    (out : samples) (op : Z) (out' : samples) :
  Remix.AudioSurround2Stereo_loop n in_ ip in_chan out op = Some out' ->
  length out' = length out.
Proof.
  revert ip out op. induction n as [| n IH]; intros ip out op; simpl.
  - intros [= <-]. reflexivity.
  - destruct (Remix.surround_lr in_chan _) as [[l r] |]; [| discriminate].
    intros H. apply IH in H. rewrite H, !length_wr. reflexivity.
Qed.

(** The output pointer only moves forward. *)
Lemma AudioSurround2Stereo_loop_below (n : nat) (ip : Z)
    (out : samples) (op : Z) (out' : samples) (k : Z) :
  Remix.AudioSurround2Stereo_loop n in_ ip in_chan out op = Some out' ->
  k < op -> rd out' k = rd out k.
Proof.
  revert ip out op. induction n as [| n IH]; intros ip out op; simpl.
  - intros [= <-]. reflexivity.
  - destruct (Remix.surround_lr in_chan _) as [[l r] |]; [| discriminate].
    intros H Hk. rewrite (IH _ _ _ H) by lia.
    rewrite !rd_wr_ne by lia. reflexivity.
Qed.

End Surround2Stereo.

Lemma AudioSurround2Stereo_loop_six (in_ : samples) (n : nat) (ip : Z)
    (out : samples) (op : Z) :
  0 <= op ->
  exists out',
    Remix.AudioSurround2Stereo_loop n in_ ip 6 out op = Some out' /\
    forall j : Z,
      0 <= j < Z.of_nat n ->
      (Z.to_nat (op + 2 * j + 1) < length out)%nat ->
      rd out' (op + 2 * j) = wrap_s16 (Z.quot (l6 in_ (ip + 6 * j)) 1000) /\
      rd out' (op + 2 * j + 1) = wrap_s16 (Z.quot (r6 in_ (ip + 6 * j)) 1000).
Proof.
  revert ip out op. induction n as [| n IH]; intros ip out op Hop.
  - exists out. split; [reflexivity | intros j Hj; lia].
  - cbn [Remix.AudioSurround2Stereo_loop]. unfold Remix.surround_lr.
    change (6 =? 3) with false. change (6 =? 4) with false.
    change (6 =? 5) with false. change (6 =? 6) with true. cbv iota.
    set (out1 := wr (wr out (op + 0) _) (op + 1) _).
    destruct (IH (ip + 6) out1 (op + 2) ltac:(lia)) as (out' & Hrun & Hfr).
    exists out'. split; [exact Hrun |].
    intros j Hj Hlen.
    assert (Hlen1 : length out1 = length out)
      by (unfold out1; rewrite !length_wr; reflexivity).
    destruct (Z.eq_dec j 0) as [-> | Hne].
    + rewrite !(AudioSurround2Stereo_loop_below _ _ _ _ _ _ _ _ Hrun)
        by lia.
      replace (op + 2 * 0) with (op + 0) by lia.
      replace (ip + 6 * 0) with ip by lia.
      unfold out1. split.
      * rewrite rd_wr_ne by lia. rewrite rd_wr_eq by lia. reflexivity.
      * replace (op + 0 + 1) with (op + 1) by lia.
        rewrite rd_wr_eq; [reflexivity | lia |].
        rewrite length_wr. lia.
    + specialize (Hfr (j - 1) ltac:(lia)).
      replace (op + 2 + 2 * (j - 1)) with (op + 2 * j) in Hfr by lia.
      replace (ip + 6 + 6 * (j - 1)) with (ip + 6 * j) in Hfr by lia.
      apply Hfr. rewrite Hlen1. exact Hlen.
Qed.

(** The right weights add up to 1000, so the right output always fits
    a sample. *)
Lemma r6_fits (in_ : samples) (ip : Z) :
  is_int16 (rd in_ (ip + 1)) -> is_int16 (rd in_ (ip + 3)) ->
  is_int16 (rd in_ (ip + 4)) -> is_int16 (rd in_ (ip + 5)) ->
  is_int16 (Z.quot (r6 in_ ip) 1000).
Proof.
  unfold is_int16, INT16_MIN, INT16_MAX, r6. intros H1 H3 H4 H5.
  Z.to_euclidean_division_equations. lia.
Qed.

(** C8, amended. For every 5.1 input frame [(L, R, Ls, Rs, C, LFE)]
    of 16-bit samples the downmix stores
    [right = (R*400 + Rs*200 + C*300 + LFE*100) / 1000], and it stores
    [left = (L*400 + Ls*200 + C*300 + LFE*300) / 1000] whenever that
    quotient fits a 16-bit sample; each sum is divided once, at the
    end, by C's truncating division. *)
Theorem AudioSurround2Stereo_5_1_frame (in_ out : samples) (frames j : Z) :
  0 <= j < frames ->
  (Z.to_nat (2 * j + 1) < length out)%nat ->
  let L := rd in_ (6 * j + 0) in
  let R := rd in_ (6 * j + 1) in
  let Ls := rd in_ (6 * j + 2) in
  let Rs := rd in_ (6 * j + 3) in
  let C := rd in_ (6 * j + 4) in
  let LFE := rd in_ (6 * j + 5) in
  is_int16 R -> is_int16 Rs -> is_int16 C -> is_int16 LFE ->
  exists out',
    Remix.AudioSurround2Stereo in_ 6 frames out = Some out' /\
    rd out' (2 * j + 1) =
      Z.quot (R * 400 + Rs * 200 + C * 300 + LFE * 100) 1000 /\
    (is_int16 (Z.quot (L * 400 + Ls * 200 + C * 300 + LFE * 300) 1000) ->
     rd out' (2 * j) =
       Z.quot (L * 400 + Ls * 200 + C * 300 + LFE * 300) 1000).
Proof.
  intros Hj Hlen L R Ls Rs C LFE HR HRs HC HLFE.
  unfold Remix.AudioSurround2Stereo.
  destruct (AudioSurround2Stereo_loop_six in_ (Z.to_nat frames) 0 out 0
              ltac:(lia)) as (out' & Hrun & Hfr).
  exists out'. split; [exact Hrun |].
  specialize (Hfr j ltac:(lia) Hlen).
  replace (0 + 2 * j) with (2 * j) in Hfr by lia.
  replace (0 + 6 * j) with (6 * j) in Hfr by lia.
  destruct Hfr as [Hl Hr]. split.
  - rewrite Hr. apply wrap_s16_small. apply r6_fits; assumption.
  - intros Hfit. rewrite Hl. apply wrap_s16_small. exact Hfit.
Qed.

Lemma AudioSurround2Stereo_5_1_frame_witness :
  exists out',
    Remix.AudioSurround2Stereo [1000; 2000; 3000; 4000; 5000; 0] 6 1 [0; 0]
      = Some out' /\
    rd out' (2 * 0 + 1) = 3100 /\ rd out' (2 * 0) = 2500.
Proof.
  destruct (AudioSurround2Stereo_5_1_frame
              [1000; 2000; 3000; 4000; 5000; 0] [0; 0] 1 0)
    as (out' & Hrun & Hr & Hl);
    try (vm_compute; split; discriminate).
  - lia.
  - simpl. lia.
  - exists out'. split; [exact Hrun |]. split; [exact Hr |].
    apply Hl. vm_compute. split; discriminate.
Defined.

(** C8 as stated fails when the left sum overflows a sample: the left
    weights add up to 1200, and the quotient is stored into an
    [int16_t]. *)
Lemma AudioSurround2Stereo_5_1_left_overflow :
  Remix.AudioSurround2Stereo
    [32767; 32767; 32767; 32767; 32767; 32767] 6 1 [0; 0]
  = Some [-26216; 32767]
  /\ Z.quot (32767 * 400 + 32767 * 200 + 32767 * 300 + 32767 * 300) 1000
     = 39320.
Proof. split; reflexivity. Qed.

(** ** Sample filters *)

Lemma clamp16_min_max (t : Z) :
  Filter.clamp16 t = Z.max INT16_MIN (Z.min INT16_MAX t).
Proof.
  unfold Filter.clamp16, INT16_MIN, INT16_MAX.
  destruct (Z.ltb_spec t (-32768)); [lia |].
  destruct (Z.gtb_spec t 32767); lia.
Qed.

Lemma clamp16_fits (t : Z) : is_int16 (Filter.clamp16 t).
Proof.
  rewrite clamp16_min_max. unfold is_int16, INT16_MIN, INT16_MAX. lia.
Qed.

(** After the scaling loop every sample below [count / 2] is the
    saturated product. *)
Lemma scale_buffer_sample (factor : Z) (p : samples) (count i : Z) :
  0 <= i < count / 2 -> (Z.to_nat i < length p)%nat ->
  rd (Filter.scale_buffer factor p count) i =
  Filter.clamp16 (Z.quot (wrap_s32 (rd p i * factor)) 1000).
Proof.
  intros Hi Hlen. unfold Filter.scale_buffer, Remix.AudioBytesProSample.
  assert (Hq : Z.quot count 2 = count / 2).
  { apply Z.quot_div_nonneg; [| lia].
    destruct (Z.lt_ge_cases count 0) as [Hneg |]; [| assumption].
    pose proof (Z.div_lt_upper_bound count 2 0 ltac:(lia) ltac:(lia)). lia. }
  rewrite Hq.
  change (Filter.scale_sample factor) with
    (fun (i : Z) (q : samples) =>
       wr q i ((fun x => Filter.clamp16 (Z.quot (wrap_s32 (x * factor)) 1000))
                 (rd q i))).
  rewrite c_for_pointwise by lia.
  destruct (Z.leb_spec 0 i); [| lia].
  destruct (Z.ltb_spec i (count / 2)); [| lia].
  destruct (Z.ltb_spec i (Z.of_nat (length p))); [| lia].
  simpl. apply wrap_s16_small, clamp16_fits.
Qed.

Lemma low_byte_cleared (x : Z) :
  wrap_u 16 (wrap_s16 (wrap_u 16 x / 256 * 256)) mod 256 = 0.
Proof.
  unfold wrap_u, wrap_s16, wrap_s.
  change (2 ^ 16) with 65536. change (2 ^ (16 - 1)) with 32768.
  Z.to_euclidean_division_equations. lia.
Qed.

(** [memset(p, 0, count)] leaves no non-zero byte below [count]. *)
Lemma memset0_byte (p : samples) (count b : Z) :
  0 <= b < count -> byte_at (memset0 p count) b = 0.
Proof.
  intros Hb. unfold memset0.
  set (whole := c_for _ 0 (count / 2) 1 _ p).
  assert (Hwhole : forall k, 0 <= k < count / 2 -> rd whole k = 0).
  { intros k Hk. unfold whole.
    change (fun (i : Z) (q : samples) => wr q i 0) with
      (fun (i : Z) (q : samples) => wr q i ((fun _ : Z => 0) (rd q i))).
    rewrite c_for_pointwise by lia.
    destruct (Z.leb_spec 0 k); [| lia].
    destruct (Z.ltb_spec k (count / 2)); [| lia].
    destruct (Z.ltb_spec k (Z.of_nat (length p))); simpl.
    - reflexivity.
    - apply rd_outside. lia. }
  assert (Hzero : forall q : samples, rd q (b / 2) = 0 -> byte_at q b = 0).
  { intros q Hq. unfold byte_at. rewrite Hq.
    destruct (Z.even b); reflexivity. }
  assert (Hb2 : 0 <= b / 2) by (apply Z.div_pos; lia).
  assert (Hdm := Z.div_mod b 2 ltac:(lia)).
  assert (Hdm' := Z.div_mod count 2 ltac:(lia)).
  assert (Hm := Z.mod_pos_bound b 2 ltac:(lia)).
  assert (Hm' := Z.mod_pos_bound count 2 ltac:(lia)).
  destruct (Z.odd count) eqn:Hodd; simpl.
  - destruct (Z.ltb_spec 0 count); [| lia].
    destruct (Z.eq_dec (b / 2) (count / 2)) as [Heq | Hne].
    + assert (Hcm : count mod 2 = 1).
      { rewrite Zmod_odd, Hodd. reflexivity. }
      assert (Hbm : b mod 2 = 0) by lia.
      unfold byte_at.
      assert (Heven : Z.even b = true).
      { rewrite Zmod_even in Hbm. destruct (Z.even b); [reflexivity | lia]. }
      rewrite Heven, Heq.
      destruct (le_lt_dec (length whole) (Z.to_nat (count / 2))) as [Hout | Hin].
      * rewrite rd_outside by (rewrite length_wr; exact Hout). reflexivity.
      * rewrite rd_wr_eq by lia. apply low_byte_cleared.
    + apply Hzero. rewrite rd_wr_ne by lia. apply Hwhole. lia.
  - apply Hzero, Hwhole.
    assert (Hcm : count mod 2 = 0).
    { rewrite Zmod_odd, Hodd. reflexivity. }
    lia.
Qed.

(** C9. [AudioSoftAmplifier]: when muted or when the gain is 0, every
    byte of the [count]-byte buffer is zero afterwards; otherwise each
    sample becomes [sample * amplifier / 1000] (C's [int] product and
    truncating division) clamped into [[INT16_MIN, INT16_MAX]], and no
    output sample lies outside that range. *)
Theorem AudioSoftAmplifier_correct (mute : bool) (amp : Z) (p : samples)
    (count : Z) :
  (mute = true \/ amp = 0 ->
   forall b : Z,
     0 <= b < count ->
     byte_at (Filter.AudioSoftAmplifier mute amp p count) b = 0) /\
  (mute = false -> amp <> 0 ->
   forall i : Z,
     0 <= i < count / 2 -> (Z.to_nat i < length p)%nat ->
     is_int16 (rd (Filter.AudioSoftAmplifier mute amp p count) i) /\
     (is_int32 (rd p i * amp) ->
      rd (Filter.AudioSoftAmplifier mute amp p count) i =
      Z.max INT16_MIN (Z.min INT16_MAX (Z.quot (rd p i * amp) 1000)))).
Proof.
  split.
  - intros Hsilent b Hb. unfold Filter.AudioSoftAmplifier.
    assert (Hcond : mute || negb (truthy amp) = true).
    { destruct Hsilent as [-> | ->]; [reflexivity |].
      unfold truthy. simpl. apply orb_true_r. }
    rewrite Hcond. apply memset0_byte. exact Hb.
  - intros Hmute Hamp i Hi Hlen. unfold Filter.AudioSoftAmplifier.
    assert (Hcond : mute || negb (truthy amp) = false).
    { rewrite Hmute. unfold truthy. simpl.
      destruct (Z.eqb_spec amp 0); [contradiction | reflexivity]. }
    rewrite Hcond, scale_buffer_sample by assumption. split.
    + apply clamp16_fits.
    + intros Hprod. rewrite wrap_s32_small by exact Hprod.
      apply clamp16_min_max.
Qed.

Lemma AudioSoftAmplifier_correct_witness :
  byte_at (Filter.AudioSoftAmplifier true 2000 [100; -20000; 30000; 5] 5) 4
    = 0
  /\ rd (Filter.AudioSoftAmplifier false 2000 [100; -20000; 30000; 5] 8) 2
     = Z.max INT16_MIN (Z.min INT16_MAX (Z.quot (30000 * 2000) 1000)).
Proof.
  split.
  - apply (proj1 (AudioSoftAmplifier_correct true 2000
                    [100; -20000; 30000; 5] 5)).
    + left. reflexivity.
    + lia.
  - apply (proj2 (AudioSoftAmplifier_correct false 2000
                    [100; -20000; 30000; 5] 8)).
    + reflexivity.
    + discriminate.
    + split; [lia | reflexivity].
    + simpl. lia.
    + vm_compute. split; discriminate.
Defined.

(** ** Ring of rings *)

Lemma ring_at_set_ring_at (a : Audio) (i : Z) (r : AudioRingRing) :
  (Z.to_nat i < length (AudioRing a))%nat ->
  ring_at (set_ring_at i r a) i = r.
Proof.
  intros H. unfold ring_at, set_ring_at. simpl.
  rewrite nth_lookup, list_lookup_insert_eq by exact H. reflexivity.
Qed.

Lemma search_rate_table (sample_rate : Z) :
  search_rate AudioRatesTable 0 sample_rate =
  if 44100 =? sample_rate then 0 else if 48000 =? sample_rate then 1 else 2.
Proof. reflexivity. Qed.

(** The refusals of [AudioRingAdd]: it returns -1 and leaves the whole
    state as it was when the rate is neither 44100 nor 48000, when the
    [int] it reads at [AudioChannelMatrix[u][channels]] is zero, or
    when eight segments are in flight; in every other case it returns
    0. For a channel count from 0 to 8 the [int] read is the entry of
    the rate and the count. *)
Theorem AudioRingAdd_result (sample_rate channels use_ac3 : Z) (a : Audio) :
  (add_rejected sample_rate channels a ->
   AudioRingAdd sample_rate channels use_ac3 a = (-1, a))
  /\ (~ add_rejected sample_rate channels a ->
      fst (AudioRingAdd sample_rate channels use_ac3 a) = 0).
Proof.
  unfold add_rejected, AudioRingAdd. rewrite search_rate_table.
  unfold AudioRatesMax, AUDIO_RING_MAX, truthy.
  destruct (Z.eqb_spec 44100 sample_rate) as [E1 | N1].
  - change (0 =? 2) with false. cbv iota.
    destruct (Z.eqb_spec (matrix_at a 0 channels) 0) as [M | M]; simpl.
    + split; [reflexivity | intros H; exfalso; apply H; right; left; auto].
    + destruct (Z.eqb_spec (AudioRingFilled a) 8) as [F | F].
      * split; [reflexivity | intros H; exfalso; apply H; auto].
      * split; [| intros _; reflexivity].
        intros [[H _] | [[_ H] | [[H _] | H]]]; congruence.
  - destruct (Z.eqb_spec 48000 sample_rate) as [E2 | N2].
    + change (1 =? 2) with false. cbv iota.
      destruct (Z.eqb_spec (matrix_at a 1 channels) 0) as [M | M]; simpl.
      * split; [reflexivity |].
        intros H; exfalso; apply H; right; right; left; auto.
      * destruct (Z.eqb_spec (AudioRingFilled a) 8) as [F | F].
        -- split; [reflexivity | intros H; exfalso; apply H; auto 6].
        -- split; [| intros _; reflexivity].
           intros [[_ H] | [[H _] | [[_ H] | H]]]; congruence.
    + change (2 =? 2) with true. cbv iota.
      split; [reflexivity |].
      intros H; exfalso; apply H; left; split; congruence.
Qed.

Lemma AudioRingAdd_result_witness :
  AudioRingAdd 32000 2 0 init_audio = (-1, init_audio)
  /\ AudioRingAdd 48000 2 0 full_audio = (-1, full_audio)
  /\ fst (AudioRingAdd 48000 2 0 init_audio) = 0.
Proof.
  split; [| split].
  - apply (proj1 (AudioRingAdd_result 32000 2 0 init_audio)).
    left. split; discriminate.
  - apply (proj1 (AudioRingAdd_result 48000 2 0 full_audio)).
    right. right. right. reflexivity.
  - apply (proj2 (AudioRingAdd_result 48000 2 0 init_audio)).
    intros [[_ H] | [[H _] | [[_ H] | H]]];
      first [apply H; reflexivity | discriminate H].
Defined.

(** The polling loop of [AudioFlushBuffers] assigns nothing but the
    running flag. *)
Lemma AudioFlushBuffers_wait_state (n : nat) (a : Audio) :
  AudioFlushBuffers_wait n a = a
  \/ AudioFlushBuffers_wait n a = set_AudioRunning true a.
Proof.
  revert a. induction n as [| n IH]; intros a; simpl.
  - left. reflexivity.
  - destruct (AudioRunning a) eqn:Hrun; simpl.
    + destruct (truthy (AudioRingFilled a)); simpl; [apply IH | auto].
    + destruct (truthy (AudioRingFilled a)); simpl; [| auto].
      right. destruct (IH (set_AudioRunning true a)) as [-> | ->];
        reflexivity.
Qed.

(** C3. With all eight segments in flight [AudioFlushBuffers] does not
    fail: it has no check of the filled count and no return value. It
    moves the write index on to the next slot, which is still queued
    for playback, overwrites that slot and counts a ninth segment. *)
Theorem AudioFlushBuffers_on_full_ring (a : Audio) :
  AudioRingFilled a = AUDIO_RING_MAX ->
  (Z.to_nat (Z.rem (AudioRingWrite a + 1) AUDIO_RING_MAX)
   < length (AudioRing a))%nat ->
  let a' := AudioFlushBuffers a in
  AudioRingWrite a' = Z.rem (AudioRingWrite a + 1) AUDIO_RING_MAX
  /\ AudioRingFilled a' = AUDIO_RING_MAX + 1
  /\ PTS (ring_at a' (AudioRingWrite a')) = PTS_SENTINEL
  /\ FlushBuffers (ring_at a' (AudioRingWrite a')) = true.
Proof.
  intros Hfull Hlen a'. subst a'. unfold AudioFlushBuffers.
  match goal with
  | |- context [AudioFlushBuffers_wait ?n ?x] =>
      destruct (AudioFlushBuffers_wait_state n x) as [-> | ->]
  end; unfold ring_at;
    cbn [AudioRing AudioRingWrite AudioRingFilled set_AudioRunning
         set_AudioRingFilled set_AudioSkip set_AudioVideoIsReady
         set_ring_at set_AudioRing set_AudioRingWrite];
    (split; [reflexivity |]; split; [rewrite Hfull; reflexivity |]);
    rewrite nth_lookup, list_lookup_insert_eq by exact Hlen;
    split; reflexivity.
Qed.

Lemma AudioFlushBuffers_on_full_ring_witness :
  AudioRingRead full_audio = 0
  /\ AudioRingWrite full_audio = 0
  /\ AudioRingWrite (AudioFlushBuffers full_audio) = 1
  /\ AudioRingFilled (AudioFlushBuffers full_audio) = 9.
Proof.
  split; [reflexivity |]. split; [reflexivity |].
  destruct (AudioFlushBuffers_on_full_ring full_audio) as (Hw & Hf & _).
  - reflexivity.
  - vm_compute. lia.
  - split; [exact Hw | exact Hf].
Defined.

(** Scenario 6 of the specification: the ninth set-up is refused. *)
Example ninth_setup_refused :
  AudioRingFilled full_audio = 8
  /\ AudioSetup 48000 2 0 full_audio = (-1, full_audio).
Proof. split; reflexivity. Qed.

(** ** Clock *)

(** C2, amended. [AudioGetClock] returns the read segment's PTS minus
    [AudioGetDelay()] (a 64-bit difference) when that PTS is not the
    sentinel and the delay is not 0; it returns the sentinel when the
    PTS is the sentinel or the delay is 0. *)
Theorem AudioGetClock_result (module_delay : Z) (a : Audio) :
  let r := ring_at a (AudioRingRead a) in
  let delay := AudioGetDelay module_delay a in
  (PTS r <> PTS_SENTINEL -> delay <> 0 ->
   AudioGetClock module_delay a = wrap_s64 (PTS r - delay)
   /\ (is_int64 (PTS r - delay) ->
       AudioGetClock module_delay a = PTS r - delay))
  /\ (PTS r = PTS_SENTINEL \/ delay = 0 ->
      AudioGetClock module_delay a = PTS_SENTINEL).
Proof.
  intros r delay. unfold AudioGetClock. fold r. fold delay. unfold truthy.
  replace (PTS r + 0 * 90 - delay) with (PTS r - delay) by lia.
  destruct (Z.eqb_spec (PTS r) PTS_SENTINEL) as [Hs | Hs]; simpl.
  - split; [contradiction | reflexivity].
  - destruct (Z.eqb_spec delay 0) as [Hd | Hd]; simpl.
    + split; [contradiction | reflexivity].
    + split.
      * intros _ _.
        assert (E : (if negb (UseAc3 r =? 0)
                     then wrap_s64 (PTS r - delay)
                     else wrap_s64 (PTS r - delay))
                    = wrap_s64 (PTS r - delay))
          by (destruct (negb (UseAc3 r =? 0)); reflexivity).
        rewrite E. split; [reflexivity |].
        intros Hfit. apply wrap_s64_small. exact Hfit.
      * intros [H | H]; contradiction.
Qed.

(** With the thread at work the clock is the PTS minus the delay;
    with the thread waiting it is the sentinel. *)
Lemma AudioGetClock_result_witness :
  AudioGetClock 2700 (set_AudioRunning true waiting_audio) = 90000 - 2700
  /\ AudioGetClock 2700 waiting_audio = PTS_SENTINEL.
Proof.
  split.
  - apply (proj1 (AudioGetClock_result 2700
                    (set_AudioRunning true waiting_audio))).
    + vm_compute. discriminate.
    + vm_compute. discriminate.
    + vm_compute. split; discriminate.
  - apply (proj2 (AudioGetClock_result 2700 waiting_audio)).
    right. reflexivity.
Defined.

(** C2 as stated fails while the thread is not running: the read
    segment has a valid PTS, the delay is 0, and the clock is the
    sentinel, not the PTS. *)
Lemma AudioGetClock_sentinel_with_valid_pts :
  PTS (ring_at waiting_audio (AudioRingRead waiting_audio)) = 90000
  /\ 90000 <> PTS_SENTINEL
  /\ AudioGetDelay 2700 waiting_audio = 0
  /\ AudioGetClock 2700 waiting_audio = PTS_SENTINEL
  /\ AudioGetClock 2700 waiting_audio <> 90000 - 0.
Proof. repeat split; vm_compute; discriminate. Qed.

(** ** Enqueue *)

(** C10. Before any successful set-up every slot has a zero hardware
    sample rate; [AudioEnqueue] then returns at once and the state,
    with every ring, PTS, packet size and the running flag, is what it
    was. *)
Theorem AudioEnqueue_before_setup (scratch samples_ : samples) (count : Z)
    (a : Audio) :
  Forall (fun r => HwSampleRate r = 0) (AudioRing a) ->
  AudioEnqueue scratch samples_ count a = Some a.
Proof.
  intros Hall. unfold AudioEnqueue.
  assert (Hw : HwSampleRate (ring_at a (AudioRingWrite a)) = 0).
  { unfold ring_at.
    destruct (nth_in_or_default (Z.to_nat (AudioRingWrite a)) (AudioRing a)
                zero_ring) as [Hin | ->]; [| reflexivity].
    rewrite List.Forall_forall in Hall. apply Hall. exact Hin. }
  rewrite Hw. reflexivity.
Qed.

Lemma AudioEnqueue_before_setup_witness :
  AudioEnqueue [] [1; 2; 3; 4] 8 init_audio = Some init_audio.
Proof.
  apply (AudioEnqueue_before_setup [] [1; 2; 3; 4] 8 init_audio).
  vm_compute. repeat constructor.
Defined.

(** The remixer never reaches [abort()] on channel counts from 1 to 8. *)
Lemma AudioSurround2Stereo_loop_returns (in_ : samples) (in_chan : Z)
    (n : nat) (ip : Z) (out : samples) (op : Z) :
  3 <= in_chan <= 8 ->
  is_Some (Remix.AudioSurround2Stereo_loop n in_ ip in_chan out op).
Proof.
  intros Hc. revert ip out op. induction n as [| n IH]; intros ip out op.
  - simpl. eauto.
  - cbn [Remix.AudioSurround2Stereo_loop].
    assert (Hlr : is_Some
                    (Remix.surround_lr in_chan (fun k => rd in_ (ip + k)))).
    { assert (Hcases : in_chan = 3 \/ in_chan = 4 \/ in_chan = 5
                       \/ in_chan = 6 \/ in_chan = 7 \/ in_chan = 8) by lia.
      destruct Hcases as [-> | [-> | [-> | [-> | [-> | ->]]]]];
        unfold Remix.surround_lr; simpl; eauto. }
    destruct Hlr as [[l r] ->]. apply IH.
Qed.

Lemma AudioResample_returns (in_ : samples) (in_chan frames : Z)
    (out : samples) (out_chan : Z) :
  1 <= in_chan <= 8 -> 1 <= out_chan <= 8 ->
  is_Some (Remix.AudioResample in_ in_chan frames out out_chan).
Proof.
  intros Hi Ho. unfold Remix.AudioResample.
  repeat match goal with
         | |- context [if ?c then _ else _] => destruct c eqn:?
         end; eauto.
  apply AudioSurround2Stereo_loop_returns.
  repeat match goal with
         | H : (_ || _) = true |- _ => apply orb_true_iff in H; destruct H
         | H : (_ =? _) = true |- _ => apply Z.eqb_eq in H
         end; lia.
Qed.

Lemma enqueue_convert_returns (scratch samples_ : samples) (count : Z)
    (a : Audio) :
  channels_ok (ring_at a (AudioRingWrite a)) ->
  exists buffer f,
    enqueue_convert scratch samples_ count a
    = Some (buffer, hw_count count (ring_at a (AudioRingWrite a)), f).
Proof.
  intros Hok. unfold enqueue_convert, hw_count.
  destruct (truthy (UseAc3 (ring_at a (AudioRingWrite a)))) eqn:Hac3.
  - eauto.
  - destruct Hok as [Hok | [Hin Hhw]]; [congruence |].
    rewrite !wrap_s32_small
      by (unfold is_int32, INT32_MIN, INT32_MAX; lia).
    destruct (AudioResample_returns samples_
                (InChannels (ring_at a (AudioRingWrite a)))
                (enqueue_frames count (ring_at a (AudioRingWrite a)))
                (alloca (enqueue_size count (ring_at a (AudioRingWrite a)))
                   scratch)
                (HwChannels (ring_at a (AudioRingWrite a))) Hin Hhw)
      as [buffer ->].
    destruct (AudioCompression (config a));
      [destruct (Filter.AudioCompressor _ _ _) as [f1 b1] |];
      (destruct (AudioNormalize (config a));
        [destruct (Filter.AudioNormalizer _ _ _) as [f2 b2] |]); eauto.
Qed.

(** Storing into the write slot a record that agrees with the old one
    on format and clock changes nothing the clock depends on. *)
Lemma format_of_set_ring_at (a : Audio) (r : AudioRingRing) :
  (Z.to_nat (AudioRingWrite a) < length (AudioRing a))%nat ->
  UseAc3 r = UseAc3 (ring_at a (AudioRingWrite a)) ->
  InChannels r = InChannels (ring_at a (AudioRingWrite a)) ->
  HwChannels r = HwChannels (ring_at a (AudioRingWrite a)) ->
  HwSampleRate r = HwSampleRate (ring_at a (AudioRingWrite a)) ->
  PTS r = PTS (ring_at a (AudioRingWrite a)) ->
  format_of (set_ring_at (AudioRingWrite a) r a) = format_of a.
Proof.
  intros Hlen H1 H2 H3 H4 H5. unfold format_of.
  change (AudioRingWrite (set_ring_at (AudioRingWrite a) r a))
    with (AudioRingWrite a).
  rewrite ring_at_set_ring_at by exact Hlen.
  rewrite H1, H2, H3, H4, H5. unfold set_ring_at. simpl.
  rewrite length_insert. reflexivity.
Qed.

Lemma format_of_in_range (a b : Audio) :
  format_of b = format_of a ->
  (Z.to_nat (AudioRingWrite a) < length (AudioRing a))%nat ->
  AudioRingWrite b = AudioRingWrite a
  /\ (Z.to_nat (AudioRingWrite b) < length (AudioRing b))%nat.
Proof.
  unfold format_of. intros [= Hw Hl _ _ _ _ _] Hlen.
  rewrite Hw, Hl. auto.
Qed.

Lemma enqueue_start_format (a : Audio) :
  (Z.to_nat (AudioRingWrite a) < length (AudioRing a))%nat ->
  format_of (enqueue_start a) = format_of a.
Proof.
  intros Hlen. unfold enqueue_start.
  set (a1 := if truthy (AudioSkip a) then _ else a).
  assert (H1 : format_of a1 = format_of a).
  { unfold a1. destruct (truthy (AudioSkip a)); [| reflexivity].
    set (a' := set_AudioSkip _ a).
    change (ring_at a' (AudioRingWrite a))
      with (ring_at a (AudioRingWrite a)).
    change (format_of a) with (format_of a').
    apply (format_of_set_ring_at a'); [exact Hlen | reflexivity ..]. }
  destruct (_ || _); [| exact H1].
  rewrite <- H1. reflexivity.
Qed.

Lemma format_of_fields (a b : Audio) (count : Z) :
  format_of b = format_of a ->
  let ra := ring_at a (AudioRingWrite a) in
  let rb := ring_at b (AudioRingWrite b) in
  hw_count count rb = hw_count count ra
  /\ (channels_ok ra -> channels_ok rb)
  /\ bytes_per_second rb = bytes_per_second ra
  /\ HwSampleRate rb = HwSampleRate ra
  /\ PTS rb = PTS ra.
Proof.
  intros H ra rb. unfold format_of in H. fold ra rb in H.
  injection H as Hw Hl H1 H2 H3 H4 H5.
  unfold hw_count, enqueue_size, enqueue_frames, channels_ok,
    bytes_per_second.
  rewrite H1, H2, H3, H4, H5. auto.
Qed.

(** [AudioEnqueue] on a set-up segment, cut at the point where the
    bytes are in the ring: [a3] is the state there. *)
Lemma AudioEnqueue_steps (scratch samples_ : samples) (count : Z)
    (a : Audio) :
  (Z.to_nat (AudioRingWrite a) < length (AudioRing a))%nat ->
  HwSampleRate (ring_at a (AudioRingWrite a)) <> 0 ->
  channels_ok (ring_at a (AudioRingWrite a)) ->
  exists a3,
    format_of a3 = format_of a
    /\ AudioRunning a3 = AudioRunning a
    /\ AudioVideoIsReady a3 = AudioVideoIsReady a
    /\ AudioStartThreshold a3 = AudioStartThreshold a
    /\ AudioEnqueue scratch samples_ count a
       = Some (enqueue_clock (hw_count count (ring_at a (AudioRingWrite a)))
                 (if negb (AudioRunning a3) then enqueue_start a3 else a3)).
Proof.
  intros Hlen Hrate Hok. unfold AudioEnqueue.
  assert (Ht : truthy (HwSampleRate (ring_at a (AudioRingWrite a))) = true).
  { unfold truthy. destruct (Z.eqb_spec (HwSampleRate
      (ring_at a (AudioRingWrite a))) 0); [contradiction | reflexivity]. }
  rewrite Ht. cbn [negb].
  set (a1 := if negb (truthy (PacketSize (ring_at a (AudioRingWrite a))))
             then _ else a).
  assert (H1 : format_of a1 = format_of a
               /\ AudioRunning a1 = AudioRunning a
               /\ AudioVideoIsReady a1 = AudioVideoIsReady a
               /\ AudioStartThreshold a1 = AudioStartThreshold a).
  { unfold a1. destruct (negb _); [| auto].
    split; [| auto].
    apply format_of_set_ring_at; [exact Hlen | reflexivity ..]. }
  destruct H1 as (Hf1 & Hr1 & Hv1 & Ht1).
  destruct (format_of_fields a a1 count Hf1) as (Hc & Hok1 & _).
  destruct (format_of_in_range a a1 Hf1 Hlen) as [Hw1 Hlen1].
  destruct (enqueue_convert_returns scratch samples_ count a1 (Hok1 Hok))
    as (buffer & f & Hconv).
  rewrite Hconv, Hc.
  set (a2 := set_filters f a1).
  rewrite <- Hw1.
  set (a3 := set_ring_at (AudioRingWrite a1) _ a2).
  exists a3. split; [| auto].
  rewrite <- Hf1. change (format_of a1) with (format_of a2).
  unfold a3. change (AudioRingWrite a1) with (AudioRingWrite a2).
  apply format_of_set_ring_at; [exact Hlen1 | reflexivity ..].
Qed.

Lemma enqueue_clock_pts (count : Z) (a : Audio) :
  (Z.to_nat (AudioRingWrite a) < length (AudioRing a))%nat ->
  let r := ring_at a (AudioRingWrite a) in
  let a' := enqueue_clock count a in
  PTS (ring_at a' (AudioRingWrite a')) =
  if PTS r =? PTS_SENTINEL then PTS r
  else wrap_s64 (PTS r + Z.quot (wrap_s64 (count * 90 * 1000))
                           (bytes_per_second r)).
Proof.
  intros Hlen r a'. unfold a', enqueue_clock. fold r.
  destruct (PTS r =? PTS_SENTINEL); cbn [negb]; [reflexivity |].
  change (AudioRingWrite (set_ring_at _ _ a)) with (AudioRingWrite a).
  rewrite ring_at_set_ring_at by exact Hlen. reflexivity.
Qed.

Lemma hw_count_fits (count : Z) (r : AudioRingRing) :
  is_int32 count -> is_int32 (hw_count count r).
Proof.
  intros Hc. unfold hw_count. destruct (truthy (UseAc3 r)); [exact Hc |].
  pose proof (wrap_s_range 32 (enqueue_size count r) ltac:(lia)) as H.
  change (2 ^ (32 - 1)) with 2147483648 in H.
  unfold is_int32, INT32_MIN, INT32_MAX, wrap_s32. lia.
Qed.

(** C6. An [AudioEnqueue] that hands [b] bytes (counted after the
    remix, in the segment's hardware format) to the write segment
    advances a PTS that is not the sentinel by exactly
    [b * 90000 / (HwSampleRate * HwChannels * 2)] ticks, and leaves a
    sentinel PTS as it is. *)
Theorem AudioEnqueue_advances_pts (scratch samples_ : samples) (count : Z)
    (a : Audio) :
  let r := ring_at a (AudioRingWrite a) in
  let b := hw_count count r in
  let ticks := Z.quot (b * 90000) (HwSampleRate r * HwChannels r * 2) in
  (Z.to_nat (AudioRingWrite a) < length (AudioRing a))%nat ->
  channels_ok r ->
  is_int32 count ->
  0 < HwSampleRate r * HwChannels r * 2 < 2 ^ 32 ->
  exists a',
    AudioEnqueue scratch samples_ count a = Some a'
    /\ (PTS r = PTS_SENTINEL ->
        PTS (ring_at a' (AudioRingWrite a')) = PTS_SENTINEL)
    /\ (PTS r <> PTS_SENTINEL ->
        PTS (ring_at a' (AudioRingWrite a')) = wrap_s64 (PTS r + ticks)
        /\ (is_int64 (PTS r + ticks) ->
            PTS (ring_at a' (AudioRingWrite a')) = PTS r + ticks)).
Proof.
  intros r b ticks Hlen Hok Hcount Hdiv.
  assert (Hrate : HwSampleRate r <> 0) by (intros E; rewrite E in Hdiv; lia).
  destruct (AudioEnqueue_steps scratch samples_ count a Hlen Hrate Hok)
    as (a3 & Hf3 & _ & _ & _ & Hrun).
  fold r in Hrun. fold b in Hrun.
  set (a4 := if negb (AudioRunning a3) then enqueue_start a3 else a3)
    in Hrun.
  assert (Hf4 : format_of a4 = format_of a).
  { unfold a4. destruct (negb (AudioRunning a3)); [| exact Hf3].
    rewrite <- Hf3. apply enqueue_start_format.
    apply (format_of_in_range a a3 Hf3 Hlen). }
  destruct (format_of_in_range a a4 Hf4 Hlen) as [Hw4 Hlen4].
  destruct (format_of_fields a a4 count Hf4) as (_ & _ & Hbps & _ & Hpts).
  fold r in Hbps, Hpts.
  exists (enqueue_clock b a4). split; [exact Hrun |].
  rewrite (enqueue_clock_pts b a4 Hlen4), Hbps, Hpts.
  assert (Hb : is_int32 b) by (apply hw_count_fits; exact Hcount).
  assert (Hticks : Z.quot (wrap_s64 (b * 90 * 1000)) (bytes_per_second r)
                   = ticks).
  { unfold ticks, bytes_per_second, Remix.AudioBytesProSample.
    rewrite wrap_u32_small by lia.
    rewrite wrap_s64_small; [f_equal; lia |].
    unfold is_int32, INT32_MIN, INT32_MAX in Hb.
    unfold is_int64, INT64_MIN, INT64_MAX. lia. }
  rewrite Hticks. split.
  - intros Hs. rewrite Hs, Z.eqb_refl. reflexivity.
  - intros Hs. destruct (Z.eqb_spec (PTS r) PTS_SENTINEL); [contradiction |].
    split; [reflexivity |]. intros Hfit. apply wrap_s64_small. exact Hfit.
Qed.

Lemma AudioEnqueue_advances_pts_witness :
  exists a',
    AudioEnqueue [] (replicate 96 0) 192 waiting_audio = Some a'
    /\ PTS (ring_at a' (AudioRingWrite a')) = 90000 + 90.
Proof.
  destruct (AudioEnqueue_advances_pts [] (replicate 96 0) 192 waiting_audio)
    as (a' & Hrun & _ & Hpts).
  - vm_compute. lia.
  - right. vm_compute. repeat split; discriminate.
  - vm_compute. split; discriminate.
  - vm_compute. split; reflexivity.
  - exists a'. split; [exact Hrun |].
    apply Hpts.
    + vm_compute. discriminate.
    + vm_compute. split; discriminate.
Defined.

(** The start check raises the running flag without the video-ready
    signal only on more than four thresholds of data. *)
Lemma enqueue_start_gate (a : Audio) :
  (Z.to_nat (AudioRingWrite a) < length (AudioRing a))%nat ->
  AudioRunning a = false ->
  AudioVideoIsReady a = false ->
  AudioRunning (enqueue_start a) = true ->
  AudioRingWrite (enqueue_start a) = AudioRingWrite a
  /\ (Z.to_nat (AudioRingWrite a) < length (AudioRing (enqueue_start a)))%nat
  /\ wrap_u32 (AudioStartThreshold a * 4)
     < RingBufferUsedBytes
         (RingBuffer_ (ring_at (enqueue_start a) (AudioRingWrite a))).
Proof.
  intros Hlen Hrun Hvideo. unfold enqueue_start.
  set (a1 := if truthy (AudioSkip a) then _ else a).
  assert (H1 : AudioRingWrite a1 = AudioRingWrite a
               /\ length (AudioRing a1) = length (AudioRing a)
               /\ AudioRunning a1 = AudioRunning a
               /\ AudioVideoIsReady a1 = AudioVideoIsReady a
               /\ AudioStartThreshold a1 = AudioStartThreshold a).
  { unfold a1. destruct (truthy (AudioSkip a)); [| auto 6].
    unfold set_ring_at. simpl. rewrite length_insert. auto 6. }
  destruct H1 as (Hw1 & Hl1 & Hr1 & Hv1 & Ht1).
  rewrite Hv1, Hvideo, Ht1. cbn [andb]. rewrite orb_false_r.
  destruct (Z.ltb_spec (wrap_u32 (AudioStartThreshold a * 4))
              (RingBufferUsedBytes
                 (RingBuffer_ (ring_at a1 (AudioRingWrite a)))))
    as [Hlt | Hge].
  - intros _. change (AudioRing (set_AudioRunning true a1))
      with (AudioRing a1).
    change (AudioRingWrite (set_AudioRunning true a1))
      with (AudioRingWrite a1).
    change (ring_at (set_AudioRunning true a1) (AudioRingWrite a))
      with (ring_at a1 (AudioRingWrite a)).
    rewrite Hl1. auto.
  - rewrite Hr1, Hrun. discriminate.
Qed.

Lemma enqueue_clock_frame (count : Z) (a : Audio) :
  (Z.to_nat (AudioRingWrite a) < length (AudioRing a))%nat ->
  AudioRunning (enqueue_clock count a) = AudioRunning a
  /\ AudioRingWrite (enqueue_clock count a) = AudioRingWrite a
  /\ RingBuffer_ (ring_at (enqueue_clock count a) (AudioRingWrite a))
     = RingBuffer_ (ring_at a (AudioRingWrite a)).
Proof.
  intros Hlen. unfold enqueue_clock.
  destruct (negb _); [| auto].
  rewrite ring_at_set_ring_at by exact Hlen. auto.
Qed.

(** C4, amended. While the video-ready flag is false, [AudioEnqueue]
    turns the running flag from false to true only if the write
    segment then holds more than four start thresholds of bytes. A
    successful [AudioSetup] is different: whenever the playback thread
    exists it sets the running flag at once, on a write segment it has
    just emptied. *)
Theorem AudioEnqueue_start_needs_four_thresholds :
  (forall (scratch samples_ : samples) (count : Z) (a a' : Audio),
      (Z.to_nat (AudioRingWrite a) < length (AudioRing a))%nat ->
      0 <= AudioStartThreshold a <= AudioRingBufferSize / 3 ->
      AudioVideoIsReady a = false ->
      AudioRunning a = false ->
      AudioEnqueue scratch samples_ count a = Some a' ->
      AudioRunning a' = true ->
      4 * AudioStartThreshold a' <
      RingBufferUsedBytes (RingBuffer_ (ring_at a' (AudioRingWrite a'))))
  /\ (forall (freq channels use_ac3 : Z) (a : Audio),
         (length (AudioRing a) = Z.to_nat AUDIO_RING_MAX)%nat ->
         0 <= AudioRingWrite a ->
         AudioThread (config a) = true ->
         fst (AudioSetup freq channels use_ac3 a) = 0 ->
         let a' := snd (AudioSetup freq channels use_ac3 a) in
         AudioRunning a' = true
         /\ RingBufferUsedBytes (RingBuffer_ (ring_at a' (AudioRingWrite a')))
            = 0).
Proof.
  split.
  - intros scratch samples_ count a a' Hlen Hthr Hvideo Hrun Henq Hrun'.
    unfold AudioEnqueue in Henq.
    destruct (negb (truthy (HwSampleRate (ring_at a (AudioRingWrite a))))).
    { injection Henq as <-. congruence. }
    set (a1 := if negb (truthy (PacketSize (ring_at a (AudioRingWrite a))))
               then _ else a) in Henq.
    destruct (enqueue_convert scratch samples_ count a1)
      as [[[buffer c] f] |]; [| discriminate].
    set (a3 := set_ring_at (AudioRingWrite a) _ (set_filters f a1)) in Henq.
    assert (H3 : AudioRingWrite a3 = AudioRingWrite a
                 /\ length (AudioRing a3) = length (AudioRing a)
                 /\ AudioRunning a3 = AudioRunning a
                 /\ AudioVideoIsReady a3 = AudioVideoIsReady a
                 /\ AudioStartThreshold a3 = AudioStartThreshold a).
    { unfold a3, a1, set_ring_at. destruct (negb (truthy (PacketSize _)));
        simpl; rewrite ?length_insert; auto 6. }
    destruct H3 as (Hw3 & Hl3 & Hr3 & Hv3 & Ht3).
    rewrite Hr3, Hrun in Henq. cbn [negb] in Henq.
    injection Henq as <-.
    assert (Hlen3 : (Z.to_nat (AudioRingWrite a3)
                     < length (AudioRing a3))%nat)
      by (rewrite Hw3, Hl3; exact Hlen).
    assert (Hlen4 : (Z.to_nat (AudioRingWrite (enqueue_start a3))
                     < length (AudioRing (enqueue_start a3)))%nat).
    { pose proof (enqueue_start_format a3 Hlen3) as Hf.
      apply (format_of_in_range a3 _ Hf Hlen3). }
    destruct (enqueue_clock_frame c (enqueue_start a3) Hlen4)
      as (Hrc & Hwc & Hbc).
    rewrite Hrc in Hrun'.
    destruct (enqueue_start_gate a3 Hlen3 (eq_trans Hr3 Hrun)
                (eq_trans Hv3 Hvideo) Hrun') as (Hws & _ & Hgate).
    rewrite Hwc, Hbc, Hws.
    assert (Htc : AudioStartThreshold (enqueue_clock c (enqueue_start a3))
                  = AudioStartThreshold a3).
    { unfold enqueue_clock, enqueue_start.
      repeat match goal with
             | |- context [if ?x then _ else _] => destruct x
             end; reflexivity. }
    rewrite Htc. rewrite wrap_u32_small in Hgate; [lia |].
    rewrite Ht3. change (AudioRingBufferSize / 3) with 560000 in Hthr.
    change (2 ^ 32) with 4294967296. lia.
  - intros freq channels use_ac3 a Hlen Hw Hthread Hret a'.
    unfold a'. unfold AudioSetup in *.
    destruct (negb (truthy freq) || negb (truthy channels));
      [discriminate Hret |].
    unfold AudioRingAdd in *.
    destruct (_ =? AudioRatesMax); [discriminate Hret |].
    destruct (negb (truthy (matrix_at a _ channels)));
      [discriminate Hret |].
    destruct (AudioRingFilled a =? AUDIO_RING_MAX); [discriminate Hret |].
    cbn [snd fst config set_AudioRingFilled set_ring_at set_AudioRing
         set_AudioRingWrite].
    rewrite Hthread.
    assert (Hr : 0 <= Z.rem (AudioRingWrite a + 1) AUDIO_RING_MAX
                 < AUDIO_RING_MAX).
    { apply Z.rem_bound_pos; unfold AUDIO_RING_MAX; lia. }
    split; [reflexivity |].
    cbn [AudioRingWrite set_AudioRunning set_AudioRingFilled].
    unfold ring_at at 1.
    cbn [AudioRing set_AudioRunning set_AudioRingFilled set_ring_at
         set_AudioRing].
    rewrite nth_lookup, list_lookup_insert_eq; [reflexivity |].
    cbn [AudioRing set_AudioRingWrite]. rewrite Hlen. lia.
Qed.

Lemma AudioEnqueue_start_needs_four_thresholds_witness :
  (let a' := default quick_audio
               (AudioEnqueue [] (replicate 400 0) 800 quick_audio) in
   4 * AudioStartThreshold a' <
   RingBufferUsedBytes (RingBuffer_ (ring_at a' (AudioRingWrite a'))))
  /\ AudioRunning (snd (AudioSetup 44100 2 0 waiting_audio)) = true.
Proof.
  split.
  - apply (proj1 AudioEnqueue_start_needs_four_thresholds
             [] (replicate 400 0) 800 quick_audio).
    + vm_compute. lia.
    + vm_compute. split; discriminate.
    + reflexivity.
    + reflexivity.
    + vm_compute. reflexivity.
    + vm_compute. reflexivity.
  - apply (proj2 AudioEnqueue_start_needs_four_thresholds
             44100 2 0 waiting_audio).
    + reflexivity.
    + vm_compute. discriminate.
    + reflexivity.
    + reflexivity.
Defined.

(** C4 as stated fails on the first set-up after [AudioInit]: the
    video is not ready, the flag goes from false to true, and the
    write segment is empty. *)
Lemma AudioSetup_starts_on_empty_segment :
  let a := init_audio in
  let a' := snd (AudioSetup 48000 2 0 a) in
  AudioVideoIsReady a = false
  /\ AudioRunning a = false
  /\ fst (AudioSetup 48000 2 0 a) = 0
  /\ AudioVideoIsReady a' = false
  /\ AudioRunning a' = true
  /\ AudioStartThreshold a' = 64512
  /\ RingBufferUsedBytes (RingBuffer_ (ring_at a' (AudioRingWrite a'))) = 0
  /\ ~ (4 * AudioStartThreshold a' <
        RingBufferUsedBytes (RingBuffer_ (ring_at a' (AudioRingWrite a')))).
Proof. vm_compute. repeat split; intros H; discriminate H. Qed.

(** ** Start threshold *)

(** C7. A successful [AlsaSetup] leaves the start threshold at
    [min (RING_SIZE / 3) (max period_bytes (rate * channels * 2 * target_ms / 1000))]
    with [target_ms = audio_buffer_time + max 0 (video_audio_delay / 90)]
    and [RING_SIZE = 1680000], for a target that is not negative and a
    byte product that fits an [int]. *)
Theorem AlsaSetup_start_threshold (alsa : AlsaAnswers)
    (freq channels use_ac3 : Z) (a : Audio) :
  let target_ms :=
    AudioBufferTime (config a) + Z.max 0 (VideoAudioDelay (config a) / 90) in
  fst (AlsaSetup alsa freq channels use_ac3 a) = 0 ->
  0 <= period_size_bytes alsa < 2 ^ 32 ->
  is_int32 target_ms ->
  0 <= freq * channels * 2 * target_ms <= INT32_MAX ->
  AudioStartThreshold (snd (AlsaSetup alsa freq channels use_ac3 a)) =
  Z.min (1680000 / 3)
    (Z.max (period_size_bytes alsa)
       (freq * channels * 2 * target_ms / 1000)).
Proof.
  intros target_ms Hret Hperiod Htarget Hprod. unfold AlsaSetup in *.
  destruct (negb (AlsaPCMHandle alsa)); [discriminate Hret |].
  destruct (negb (AlsaOpenPCM alsa)); [discriminate Hret |].
  destruct (truthy (snd_pcm_set_params alsa)); [discriminate Hret |].
  cbn [snd AudioStartThreshold set_AudioStartThreshold].
  assert (Hdelay :
            (if VideoAudioDelay (config a) >? 0
             then wrap_s32 (AudioBufferTime (config a)
                            + Z.quot (VideoAudioDelay (config a)) 90)
             else AudioBufferTime (config a)) = target_ms).
  { unfold target_ms in *.
    destruct (Z.gtb_spec (VideoAudioDelay (config a)) 0) as [Hpos | Hneg].
    - rewrite Z.quot_div_nonneg by lia.
      assert (0 <= VideoAudioDelay (config a) / 90)
        by (apply Z.div_pos; lia).
      rewrite Z.max_r in Htarget by lia. rewrite Z.max_r by lia.
      apply wrap_s32_small. exact Htarget.
    - assert (VideoAudioDelay (config a) / 90 <= 0).
      { apply Z.div_le_upper_bound; lia. }
      rewrite Z.max_l by lia. lia. }
  rewrite Hdelay. unfold Remix.AudioBytesProSample.
  rewrite wrap_s32_small
    by (unfold is_int32, INT32_MIN, INT32_MAX in *; lia).
  rewrite !wrap_u32_small
    by (unfold INT32_MAX in *; change (2 ^ 32) with 4294967296 in *; lia).
  change (AudioRingBufferSize / 3) with 560000.
  change (1680000 / 3) with 560000.
  set (bytes := freq * channels * 2 * target_ms / 1000).
  destruct (Z.ltb_spec (period_size_bytes alsa) bytes);
    match goal with
    | |- context [?x >? 560000] => destruct (Z.gtb_spec x 560000)
    end; lia.
Qed.

(** Whatever the driver answers, the threshold a successful
    [AlsaSetup] leaves is at most a third of the ring. *)
Lemma AlsaSetup_threshold_range (alsa : AlsaAnswers)
    (freq channels use_ac3 : Z) (a : Audio) :
  fst (AlsaSetup alsa freq channels use_ac3 a) = 0 ->
  0 <= AudioStartThreshold (snd (AlsaSetup alsa freq channels use_ac3 a))
    <= AudioRingBufferSize / 3.
Proof.
  intros Hret. unfold AlsaSetup in *.
  destruct (negb (AlsaPCMHandle alsa)); [discriminate Hret |].
  destruct (negb (AlsaOpenPCM alsa)); [discriminate Hret |].
  destruct (truthy (snd_pcm_set_params alsa)); [discriminate Hret |].
  cbn [snd AudioStartThreshold set_AudioStartThreshold].
  change (AudioRingBufferSize / 3) with 560000.
  set (t0 := wrap_u32 (period_size_bytes alsa)).
  set (bytes := wrap_u32 _ / 1000).
  assert (H0 : 0 <= t0).
  { unfold t0, wrap_u32, wrap_u. apply Z.mod_pos_bound. reflexivity. }
  assert (H1 : 0 <= bytes).
  { unfold bytes, wrap_u32, wrap_u. apply Z.div_pos; [| lia].
    apply Z.mod_pos_bound. reflexivity. }
  destruct (Z.ltb_spec t0 bytes);
    match goal with
    | |- context [?x >? 560000] => destruct (Z.gtb_spec x 560000)
    end; lia.
Qed.

Lemma AlsaSetup_start_threshold_witness :
  AudioStartThreshold
    (snd (AlsaSetup (mkAlsaAnswers true true 0 4608) 48000 2 0 init_audio))
  = Z.min (1680000 / 3) (Z.max 4608 (48000 * 2 * 2 * (336 + Z.max 0 (0 / 90)) / 1000)).
Proof.
  apply (AlsaSetup_start_threshold (mkAlsaAnswers true true 0 4608)
           48000 2 0 init_audio).
  - reflexivity.
  - vm_compute. split; [discriminate | reflexivity].
  - vm_compute. split; discriminate.
  - vm_compute. split; discriminate.
Defined.


(** * Further properties *)

(** ** Store loops *)

(** A loop that stores [v i] at [op + i] for [i] from [lo] up to [hi]
    changes exactly the samples from [op + lo] up to [op + hi]. *)
Lemma c_for_store (v : Z -> Z) (op hi : Z) (fuel : nat) (lo : Z)
    (p : samples) (k : Z) :
  0 <= op + lo -> hi - lo <= Z.of_nat fuel ->
  rd (c_for fuel lo hi 1 (fun i q => wr q (op + i) (v i)) p) k =
  if (op + lo <=? k) && (k <? op + hi) && (k <? Z.of_nat (length p))
  then wrap_s16 (v (k - op)) else rd p k.
Proof.
  revert lo p. induction fuel as [| fuel IH]; intros lo p Hlo Hfuel.
  - simpl. destruct (Z.leb_spec (op + lo) k), (Z.ltb_spec k (op + hi));
      simpl; try reflexivity; lia.
  - simpl. destruct (Z.ltb_spec lo hi) as [Hlt | Hge].
    + rewrite IH by lia. rewrite length_wr.
      destruct (Z.eq_dec k (op + lo)) as [-> | Hne].
      * destruct (Z.leb_spec (op + (lo + 1)) (op + lo)); [lia |]. simpl.
        destruct (Z.leb_spec (op + lo) (op + lo)); [| lia].
        destruct (Z.ltb_spec (op + lo) (op + hi)); [| lia]. simpl.
        replace (op + lo - op) with lo by lia.
        destruct (Z.ltb_spec (op + lo) (Z.of_nat (length p))).
        -- apply rd_wr_eq; lia.
        -- unfold wr. destruct (op + lo <? 0); [reflexivity |].
           rewrite list_insert_ge by lia. reflexivity.
      * rewrite !rd_wr_ne by lia.
        destruct (Z.leb_spec (op + (lo + 1)) k), (Z.leb_spec (op + lo) k);
          simpl; try reflexivity; lia.
    + destruct (Z.leb_spec (op + lo) k), (Z.ltb_spec k (op + hi)); simpl;
        try reflexivity; lia.
Qed.

Lemma c_for_length (body : Z -> samples -> samples) (fuel : nat)
    (lo hi step : Z) (p : samples) :
  (forall i q, length (body i q) = length q) ->
  length (c_for fuel lo hi step body p) = length p.
Proof.
  intros Hbody. revert lo p. induction fuel as [| fuel IH]; intros lo p.
  - reflexivity.
  - simpl. destruct (lo <? hi); [| reflexivity].
    rewrite IH. apply Hbody.
Qed.

Lemma rd_int16 (p : samples) (i : Z) :
  Forall is_int16 p -> is_int16 (rd p i).
Proof.
  intros Hall. unfold rd.
  destruct (i <? 0); [unfold is_int16, INT16_MIN, INT16_MAX; lia |].
  destruct (nth_in_or_default (Z.to_nat i) p 0) as [Hin | ->].
  - rewrite List.Forall_forall in Hall. apply Hall. exact Hin.
  - unfold is_int16, INT16_MIN, INT16_MAX. lia.
Qed.

(** ** Mono to stereo *)

Lemma AudioMono2Stereo_loop_below (in_ : samples) (frames : Z) (fuel : nat)
    (i : Z) (out : samples) (k : Z) :
  0 <= i -> k < 2 * i ->
  rd (c_for fuel i frames 1
        (fun i out =>
           let t := rd in_ i in wr (wr out (i * 2 + 0) t) (i * 2 + 1) t)
        out) k
  = rd out k.
Proof.
  revert i out. induction fuel as [| fuel IH]; intros i out Hi Hk.
  - reflexivity.
  - simpl. destruct (i <? frames); [| reflexivity].
    rewrite IH by lia. rewrite !rd_wr_ne by lia. reflexivity.
Qed.

Lemma AudioMono2Stereo_loop_frame (in_ : samples) (frames : Z) (fuel : nat)
    (i : Z) (out : samples) (j : Z) :
  0 <= i -> frames - i <= Z.of_nat fuel -> i <= j < frames ->
  (Z.to_nat (2 * j + 1) < length out)%nat ->
  rd (c_for fuel i frames 1
        (fun i out =>
           let t := rd in_ i in wr (wr out (i * 2 + 0) t) (i * 2 + 1) t)
        out) (2 * j) = wrap_s16 (rd in_ j)
  /\ rd (c_for fuel i frames 1
           (fun i out =>
              let t := rd in_ i in wr (wr out (i * 2 + 0) t) (i * 2 + 1) t)
           out) (2 * j + 1) = wrap_s16 (rd in_ j).
Proof.
  revert i out. induction fuel as [| fuel IH]; intros i out Hi Hfuel Hj Hl.
  - simpl in Hfuel. lia.
  - simpl. destruct (Z.ltb_spec i frames); [| lia].
    destruct (Z.eq_dec j i) as [-> | Hne].
    + rewrite !AudioMono2Stereo_loop_below by lia.
      replace (i * 2 + 0) with (2 * i) by lia.
      replace (i * 2 + 1) with (2 * i + 1) by lia. split.
      * rewrite rd_wr_ne by lia. apply rd_wr_eq; lia.
      * apply rd_wr_eq; [lia |]. rewrite length_wr. exact Hl.
    + apply IH; try lia. rewrite !length_wr. exact Hl.
Qed.

(** X1. [AudioMono2Stereo] writes every frame: output samples [2j] and
    [2j + 1] are both input sample [j], for every [j] below
    [frames]. *)
Theorem AudioMono2Stereo_duplicates (in_ out : samples) (frames j : Z) :
  0 <= j < frames ->
  (Z.to_nat (2 * j + 1) < length out)%nat ->
  is_int16 (rd in_ j) ->
  rd (Remix.AudioMono2Stereo in_ frames out) (2 * j) = rd in_ j
  /\ rd (Remix.AudioMono2Stereo in_ frames out) (2 * j + 1) = rd in_ j.
Proof.
  intros Hj Hl Hfit. unfold Remix.AudioMono2Stereo.
  destruct (AudioMono2Stereo_loop_frame in_ frames (Z.to_nat frames) 0 out j)
    as [H0 H1]; try lia.
  cbv zeta in H0, H1 |- *.
  rewrite H0, H1, wrap_s16_small by exact Hfit. auto.
Qed.

Lemma AudioMono2Stereo_duplicates_witness :
  rd (Remix.AudioMono2Stereo [100; 200; 300] 3 [7; 7; 7; 7; 7; 7]) (2 * 2)
    = 300
  /\ rd (Remix.AudioMono2Stereo [100; 200; 300] 3 [7; 7; 7; 7; 7; 7])
       (2 * 2 + 1) = 300.
Proof.
  apply (AudioMono2Stereo_duplicates [100; 200; 300] [7; 7; 7; 7; 7; 7] 3 2).
  - lia.
  - simpl. lia.
  - vm_compute. split; discriminate.
Defined.

(** ** Upmix *)

(** One round of [AudioUpmix]: [in_chan] samples copied from [ip] to
    [op], the samples up to [op + out_chan] cleared. *)
Lemma AudioUpmix_frame (in_ : samples) (ip in_chan out_chan op : Z)
    (out : samples) (k : Z) :
  0 <= in_chan <= out_chan -> 0 <= op ->
  rd (c_for (Z.to_nat (out_chan - Z.max 0 in_chan)) (Z.max 0 in_chan)
        out_chan 1 (fun i q => wr q (op + i) 0)
        (c_for (Z.to_nat in_chan) 0 in_chan 1
           (fun i q => wr q (op + i) (rd in_ (ip + i))) out)) k
  = if (op <=? k) && (k <? op + out_chan) && (k <? Z.of_nat (length out))
    then (if k - op <? in_chan then wrap_s16 (rd in_ (ip + (k - op))) else 0)
    else rd out k.
Proof.
  intros Hc Hop. rewrite Z.max_r by lia.
  rewrite (c_for_store (fun _ => 0)) by lia.
  rewrite c_for_length by (intros; apply length_wr).
  rewrite (c_for_store (fun i => rd in_ (ip + i))) by lia.
  replace (op + 0) with op by lia.
  destruct (Z.leb_spec (op + in_chan) k), (Z.ltb_spec k (op + out_chan)),
    (Z.ltb_spec k (Z.of_nat (length out))), (Z.leb_spec op k),
    (Z.ltb_spec k (op + in_chan)), (Z.ltb_spec (k - op) in_chan);
    simpl; try reflexivity; lia.
Qed.

Lemma AudioUpmix_loop_length (in_ : samples) (in_chan out_chan : Z)
    (n : nat) (ip op : Z) (out : samples) :
  length (Remix.AudioUpmix_loop n in_ ip in_chan out op out_chan)
  = length out.
Proof.
  revert ip op out. induction n as [| n IH]; intros ip op out; simpl.
  - reflexivity.
  - rewrite IH, !c_for_length by (intros; apply length_wr). reflexivity.
Qed.

Lemma AudioUpmix_loop_sample (in_ : samples) (in_chan out_chan : Z)
    (n : nat) (ip op : Z) (out : samples) (k : Z) :
  0 <= in_chan <= out_chan -> 0 < out_chan -> 0 <= op ->
  rd (Remix.AudioUpmix_loop n in_ ip in_chan out op out_chan) k
  = if (op <=? k) && (k <? op + Z.of_nat n * out_chan)
       && (k <? Z.of_nat (length out))
    then (if (k - op) mod out_chan <? in_chan
          then wrap_s16
                 (rd in_ (ip + (k - op) / out_chan * in_chan
                          + (k - op) mod out_chan))
          else 0)
    else rd out k.
Proof.
  intros Hc Hoc. revert ip op out.
  induction n as [| n IH]; intros ip op out Hop.
  - cbn [Remix.AudioUpmix_loop]. change (Z.of_nat 0) with 0.
    destruct (Z.leb_spec op k), (Z.ltb_spec k (op + 0 * out_chan));
      simpl; try reflexivity; lia.
  - cbn [Remix.AudioUpmix_loop]. rewrite !Z.max_r by lia.
    replace (Z.max in_chan out_chan) with out_chan by lia.
    rewrite IH by lia.
    rewrite !c_for_length by (intros; apply length_wr).
    pose proof (AudioUpmix_frame in_ ip in_chan out_chan op out k Hc Hop)
      as Hframe.
    rewrite Z.max_r in Hframe by lia. rewrite Hframe. clear Hframe.
    rewrite Nat2Z.inj_succ, Z.mul_succ_l.
    replace (op + (Z.of_nat n * out_chan + out_chan))
      with (op + out_chan + Z.of_nat n * out_chan) by lia.
    destruct (Z.ltb_spec k (Z.of_nat (length out))) as [Hlen | Hlen];
      [| repeat rewrite andb_false_r; reflexivity].
    rewrite !andb_true_r.
    destruct (Z.leb_spec (op + out_chan) k) as [Hhi | Hlo].
    + destruct (Z.leb_spec op k); [| lia]. simpl.
      destruct (Z.ltb_spec k (op + out_chan)); [lia |].
      assert (Hmod : (k - op) mod out_chan = (k - (op + out_chan)) mod out_chan).
      { replace (k - op) with (k - (op + out_chan) + 1 * out_chan) by lia.
        apply Z.mod_add. lia. }
      assert (Hdiv : (k - op) / out_chan = (k - (op + out_chan)) / out_chan + 1).
      { replace (k - op) with (k - (op + out_chan) + 1 * out_chan) by lia.
        apply Z.div_add. lia. }
      rewrite Hmod, Hdiv.
      destruct (Z.ltb_spec k (op + out_chan + Z.of_nat n * out_chan));
        simpl; [| reflexivity].
      replace (ip + in_chan + (k - (op + out_chan)) / out_chan * in_chan)
        with (ip + ((k - (op + out_chan)) / out_chan + 1) * in_chan) by lia.
      reflexivity.
    + simpl.
      destruct (Z.leb_spec op k) as [Hge | Hlt]; simpl; [| reflexivity].
      destruct (Z.ltb_spec k (op + out_chan)); [| lia].
      assert (Hn : 0 <= Z.of_nat n * out_chan) by nia.
      destruct (Z.ltb_spec k (op + out_chan + Z.of_nat n * out_chan));
        [| lia].
      simpl.
      rewrite Z.mod_small by lia. rewrite Z.div_small by lia.
      replace (ip + 0 * in_chan + (k - op)) with (ip + (k - op)) by lia.
      reflexivity.
Qed.

(** X2. [AudioUpmix] from [in_chan] to [out_chan] channels
    ([in_chan <= out_chan], the code uses 5 to 6): in every output
    frame the first [in_chan] samples are those of the input frame and
    the remaining ones are 0. *)
Theorem AudioUpmix_frames (in_ out : samples) (in_chan out_chan frames : Z)
    (j c : Z) :
  0 <= in_chan <= out_chan ->
  0 <= j < frames -> 0 <= c < out_chan ->
  (Z.to_nat (j * out_chan + c) < length out)%nat ->
  Forall is_int16 in_ ->
  rd (Remix.AudioUpmix in_ in_chan frames out out_chan) (j * out_chan + c)
  = if c <? in_chan then rd in_ (j * in_chan + c) else 0.
Proof.
  intros Hc Hj Hch Hlen Hin. unfold Remix.AudioUpmix.
  rewrite AudioUpmix_loop_sample by lia.
  replace (j * out_chan + c - 0) with (c + j * out_chan) by lia.
  rewrite Z.mod_add, Z.div_add by lia.
  rewrite Z.mod_small, Z.div_small by lia.
  assert (Hk : 0 <= j * out_chan) by nia.
  destruct (Z.leb_spec 0 (j * out_chan + c)); [| lia].
  destruct (Z.ltb_spec (j * out_chan + c) (0 + Z.of_nat (Z.to_nat frames)
                                            * out_chan)); [| nia].
  destruct (Z.ltb_spec (j * out_chan + c) (Z.of_nat (length out))); [| lia].
  simpl. destruct (c <? in_chan); [| reflexivity].
  replace (0 + (0 + j) * in_chan + c) with (j * in_chan + c) by lia.
  apply wrap_s16_small, rd_int16, Hin.
Qed.

Lemma AudioUpmix_frames_witness :
  rd (Remix.AudioUpmix [1; 2; 3; 4; 5; 6; 7; 8; 9; 10] 5 2 (replicate 12 7) 6)
     (1 * 6 + 5) = 0
  /\ rd (Remix.AudioUpmix [1; 2; 3; 4; 5; 6; 7; 8; 9; 10] 5 2
           (replicate 12 7) 6) (1 * 6 + 4) = 10.
Proof.
  split.
  - apply (AudioUpmix_frames [1; 2; 3; 4; 5; 6; 7; 8; 9; 10]
             (replicate 12 7) 5 6 2 1 5); try lia.
    + simpl. lia.
    + repeat constructor; vm_compute; discriminate.
  - apply (AudioUpmix_frames [1; 2; 3; 4; 5; 6; 7; 8; 9; 10]
             (replicate 12 7) 5 6 2 1 4); try lia.
    + simpl. lia.
    + repeat constructor; vm_compute; discriminate.
Defined.

(** ** Surround to stereo, all channel counts *)

Lemma AudioSurround2Stereo_loop_frames (in_ : samples) (in_chan : Z)
    (n : nat) (ip : Z) (out : samples) (op : Z) :
  3 <= in_chan <= 8 -> 0 <= op ->
  exists out',
    Remix.AudioSurround2Stereo_loop n in_ ip in_chan out op = Some out' /\
    forall j : Z,
      0 <= j < Z.of_nat n ->
      (Z.to_nat (op + 2 * j + 1) < length out)%nat ->
      exists l r,
        Remix.surround_lr in_chan (fun k => rd in_ (ip + in_chan * j + k))
        = Some (l, r)
        /\ rd out' (op + 2 * j) = wrap_s16 (Z.quot l 1000)
        /\ rd out' (op + 2 * j + 1) = wrap_s16 (Z.quot r 1000).
Proof.
  intros Hc. revert ip out op. induction n as [| n IH]; intros ip out op Hop.
  - exists out. split; [reflexivity | intros j Hj; lia].
  - cbn [Remix.AudioSurround2Stereo_loop].
    destruct (Remix.surround_lr in_chan (fun k => rd in_ (ip + k)))
      as [[l r] |] eqn:Hlr.
    2:{ exfalso.
        assert (Hcases : in_chan = 3 \/ in_chan = 4 \/ in_chan = 5
                         \/ in_chan = 6 \/ in_chan = 7 \/ in_chan = 8) by lia.
        destruct Hcases as [-> | [-> | [-> | [-> | [-> | ->]]]]];
          discriminate Hlr. }
    set (out1 := wr (wr out (op + 0) _) (op + 1) _).
    destruct (IH (ip + in_chan) out1 (op + 2) ltac:(lia))
      as (out' & Hrun & Hfr).
    exists out'. split; [exact Hrun |].
    intros j Hj Hlen.
    assert (Hlen1 : length out1 = length out)
      by (unfold out1; rewrite !length_wr; reflexivity).
    destruct (Z.eq_dec j 0) as [-> | Hne].
    + exists l, r.
      rewrite !(AudioSurround2Stereo_loop_below _ _ _ _ _ _ _ _ Hrun)
        by lia.
      replace (op + 2 * 0) with (op + 0) by lia.
      replace (ip + in_chan * 0) with ip by lia.
      unfold out1. split; [exact Hlr |]. split.
      * rewrite rd_wr_ne by lia. rewrite rd_wr_eq by lia. reflexivity.
      * replace (op + 0 + 1) with (op + 1) by lia.
        rewrite rd_wr_eq; [reflexivity | lia |].
        rewrite length_wr. lia.
    + specialize (Hfr (j - 1) ltac:(lia)).
      replace (op + 2 + 2 * (j - 1)) with (op + 2 * j) in Hfr by lia.
      replace (ip + in_chan + in_chan * (j - 1)) with (ip + in_chan * j)
        in Hfr by lia.
      apply Hfr. rewrite Hlen1. exact Hlen.
Qed.

(** For every channel count but six both weight rows add up to 1000. *)
Lemma surround_lr_fits (in_chan : Z) (f : Z -> Z) (l r : Z) :
  in_chan <> 6 ->
  (forall k, is_int16 (f k)) ->
  Remix.surround_lr in_chan f = Some (l, r) ->
  is_int16 (Z.quot l 1000) /\ is_int16 (Z.quot r 1000).
Proof.
  intros Hsix Hf. unfold Remix.surround_lr.
  pose proof (Hf 0) as H0. pose proof (Hf 1) as H1. pose proof (Hf 2) as H2.
  pose proof (Hf 3) as H3. pose proof (Hf 4) as H4. pose proof (Hf 5) as H5.
  pose proof (Hf 6) as H6. pose proof (Hf 7) as H7.
  unfold is_int16, INT16_MIN, INT16_MAX in *.
  repeat match goal with
         | |- context [?a =? ?b] => destruct (Z.eqb_spec a b)
         end; try lia; intros [= <- <-];
    try (split; Z.to_euclidean_division_equations; lia).
Qed.

(** X3. For 3, 4, 5, 7 and 8 input channels the downmix cannot
    overflow: for every frame of 16-bit samples the two stored
    values are the accumulated weighted sums divided by 1000, and they
    lie in the 16-bit range. *)
Theorem AudioSurround2Stereo_exact (in_ out : samples)
    (in_chan frames j : Z) :
  3 <= in_chan <= 8 -> in_chan <> 6 ->
  Forall is_int16 in_ ->
  0 <= j < frames ->
  (Z.to_nat (2 * j + 1) < length out)%nat ->
  exists out' l r,
    Remix.AudioSurround2Stereo in_ in_chan frames out = Some out'
    /\ Remix.surround_lr in_chan (fun k => rd in_ (in_chan * j + k))
       = Some (l, r)
    /\ rd out' (2 * j) = Z.quot l 1000
    /\ rd out' (2 * j + 1) = Z.quot r 1000
    /\ is_int16 (Z.quot l 1000) /\ is_int16 (Z.quot r 1000).
Proof.
  intros Hc Hsix Hin Hj Hlen. unfold Remix.AudioSurround2Stereo.
  destruct (AudioSurround2Stereo_loop_frames in_ in_chan (Z.to_nat frames)
              0 out 0 Hc ltac:(lia)) as (out' & Hrun & Hfr).
  destruct (Hfr j ltac:(lia) Hlen) as (l & r & Hlr & Hl & Hr).
  replace (0 + in_chan * j) with (in_chan * j) in Hlr by lia.
  replace (0 + 2 * j) with (2 * j) in Hl, Hr by lia.
  destruct (surround_lr_fits in_chan _ l r Hsix
              (fun k => rd_int16 in_ _ Hin) Hlr) as [Hfl Hfr'].
  exists out', l, r.
  rewrite Hl, Hr, !wrap_s16_small by assumption. auto 6.
Qed.

Lemma AudioSurround2Stereo_exact_witness :
  exists out' l r,
    Remix.AudioSurround2Stereo
      [32767; 32767; 32767; 32767; 32767; 32767; 32767; 32767] 8 1 [0; 0]
    = Some out'
    /\ Remix.surround_lr 8
         (fun k => rd [32767; 32767; 32767; 32767; 32767; 32767; 32767; 32767]
                     (8 * 0 + k)) = Some (l, r)
    /\ rd out' (2 * 0) = Z.quot l 1000
    /\ rd out' (2 * 0 + 1) = Z.quot r 1000
    /\ is_int16 (Z.quot l 1000) /\ is_int16 (Z.quot r 1000).
Proof.
  apply (AudioSurround2Stereo_exact
           [32767; 32767; 32767; 32767; 32767; 32767; 32767; 32767]
           [0; 0] 8 1 0); try lia.
  - repeat constructor; vm_compute; discriminate.
  - simpl. lia.
Defined.

(** ** Dispatch of the remixer *)

(** X4. For channel counts from 1 to 8 on both sides [AudioResample]
    always returns: the [abort()] of the downmix is out of reach. *)
Theorem AudioResample_never_aborts (in_ out : samples)
    (in_chan out_chan frames : Z) :
  1 <= in_chan <= 8 -> 1 <= out_chan <= 8 ->
  exists out', Remix.AudioResample in_ in_chan frames out out_chan = Some out'.
Proof.
  intros Hi Ho.
  destruct (AudioResample_returns in_ in_chan frames out out_chan Hi Ho)
    as [out' H].
  exists out'. exact H.
Qed.

Lemma AudioResample_never_aborts_witness :
  exists out',
    Remix.AudioResample [1; 2; 3; 4; 5; 6; 7] 7 1 [0; 0] 2 = Some out'.
Proof.
  apply (AudioResample_never_aborts [1; 2; 3; 4; 5; 6; 7] [0; 0] 7 2 1); lia.
Defined.

(** X5. With equal channel counts [AudioResample] copies: every
    sample of the [frames] frames is the input sample. *)
Theorem AudioResample_same_channels (in_ out : samples) (chan frames k : Z) :
  1 <= chan <= 8 ->
  0 <= k < frames * chan ->
  (Z.to_nat k < length out)%nat ->
  Forall is_int16 in_ ->
  exists out',
    Remix.AudioResample in_ chan frames out chan = Some out'
    /\ rd out' k = rd in_ k.
Proof.
  intros Hc Hk Hlen Hin. unfold Remix.AudioResample.
  assert (Hsel : (chan * 8 + chan =? 1 * 8 + 1) || (chan * 8 + chan =? 2 * 8 + 2)
                 || (chan * 8 + chan =? 3 * 8 + 3)
                 || (chan * 8 + chan =? 4 * 8 + 4)
                 || (chan * 8 + chan =? 5 * 8 + 5)
                 || (chan * 8 + chan =? 6 * 8 + 6)
                 || (chan * 8 + chan =? 7 * 8 + 7)
                 || (chan * 8 + chan =? 8 * 8 + 8) = true).
  { assert (Hcases : chan = 1 \/ chan = 2 \/ chan = 3 \/ chan = 4
                     \/ chan = 5 \/ chan = 6 \/ chan = 7 \/ chan = 8) by lia.
    destruct Hcases as [-> | [-> | [-> | [-> | [-> | [-> | [-> | ->]]]]]]];
      reflexivity. }
  cbv zeta. rewrite Hsel. eexists. split; [reflexivity |].
  unfold memcpy16, Remix.AudioBytesProSample.
  replace (frames * chan * 2 / 2) with (frames * chan)
    by (rewrite Z.div_mul; lia).
  change (fun (i : Z) (q : samples) => wr q i (rd in_ i))
    with (fun (i : Z) (q : samples) => wr q (0 + i) (rd in_ i)).
  rewrite (c_for_store (fun i => rd in_ i)) by lia.
  replace (k - 0) with k by lia.
  destruct (Z.leb_spec (0 + 0) k); [| lia].
  destruct (Z.ltb_spec k (0 + frames * chan)); [| lia].
  destruct (Z.ltb_spec k (Z.of_nat (length out))); [| lia].
  simpl. apply wrap_s16_small, rd_int16, Hin.
Qed.

Lemma AudioResample_same_channels_witness :
  exists out',
    Remix.AudioResample [1; -2; 3; -4] 2 2 [0; 0; 0; 0] 2 = Some out'
    /\ rd out' 3 = rd [1; -2; 3; -4] 3.
Proof.
  apply (AudioResample_same_channels [1; -2; 3; -4] [0; 0; 0; 0] 2 2 3);
    try lia.
  - simpl. lia.
  - repeat constructor; vm_compute; discriminate.
Defined.

(** X6. A pair of channel counts the remixer has no case for is
    played as silence: every byte of the [frames * out_chan * 2] bytes
    of output is zero. *)
Theorem AudioResample_unsupported_is_silence (in_ out : samples)
    (in_chan out_chan frames b : Z) :
  1 <= in_chan <= 8 -> 1 <= out_chan <= 8 ->
  in_chan <> out_chan -> out_chan <> 2 ->
  ~ (in_chan = 2 /\ out_chan = 1) -> ~ (in_chan = 5 /\ out_chan = 6) ->
  0 <= b < frames * out_chan * 2 ->
  exists out',
    Remix.AudioResample in_ in_chan frames out out_chan = Some out'
    /\ byte_at out' b = 0.
Proof.
  intros Hi Ho Hne H2 H21 H56 Hb. unfold Remix.AudioResample. cbv zeta.
  repeat match goal with
         | |- context [?a =? ?c] =>
             destruct (Z.eqb_spec a c); [exfalso; lia |]
         end.
  simpl. eexists. split; [reflexivity |].
  apply memset0_byte. unfold Remix.AudioBytesProSample. exact Hb.
Qed.

Lemma AudioResample_unsupported_is_silence_witness :
  exists out',
    Remix.AudioResample [100; 200; 300; 400] 2 2 (replicate 8 7) 4 = Some out'
    /\ byte_at out' 15 = 0.
Proof.
  apply (AudioResample_unsupported_is_silence [100; 200; 300; 400]
           (replicate 8 7) 2 4 2 15); lia.
Defined.

(** ** Compressor *)

Lemma peak_loop_bounds (p : samples) (n : Z) (fuel : nat) (lo m : Z) :
  n - lo <= Z.of_nat fuel ->
  m <= c_for fuel lo n 1 (peak_step p) m
  /\ (forall i, lo <= i < n ->
        Z.abs (rd p i) <= c_for fuel lo n 1 (peak_step p) m)
  /\ (c_for fuel lo n 1 (peak_step p) m = m
      \/ exists i, lo <= i < n
                   /\ c_for fuel lo n 1 (peak_step p) m = Z.abs (rd p i)).
Proof.
  revert lo m. induction fuel as [| fuel IH]; intros lo m Hfuel.
  - simpl. split; [lia |]. split; [intros i Hi; simpl in Hfuel; lia | auto].
  - simpl. destruct (Z.ltb_spec lo n) as [Hlt | Hge].
    + destruct (IH (lo + 1) (peak_step p lo m) ltac:(lia))
        as (Hm & Hall & Hex).
      assert (Hstep : m <= peak_step p lo m
                      /\ Z.abs (rd p lo) <= peak_step p lo m
                      /\ (peak_step p lo m = m
                          \/ peak_step p lo m = Z.abs (rd p lo))).
      { unfold peak_step. cbv zeta.
        destruct (Z.gtb_spec (Z.abs (rd p lo)) m); lia. }
      destruct Hstep as (Hs1 & Hs2 & Hs3).
      split; [lia |]. split.
      * intros i Hi. destruct (Z.eq_dec i lo) as [-> | Hne]; [lia |].
        apply Hall. lia.
      * destruct Hex as [Heq | (i & Hi & Heq)].
        -- rewrite Heq. destruct Hs3 as [-> | ->]; [auto |].
           right. exists lo. split; [lia | reflexivity].
        -- right. exists i. split; [lia | exact Heq].
    + split; [lia |]. split; [intros i Hi; lia | auto].
Qed.

Lemma half_count (count : Z) (i : Z) :
  0 <= i < count / 2 -> Z.quot count 2 = count / 2.
Proof.
  intros Hi. apply Z.quot_div_nonneg; [| lia].
  destruct (Z.lt_ge_cases count 0) as [Hneg |]; [| assumption].
  pose proof (Z.div_lt_upper_bound count 2 0 ltac:(lia) ltac:(lia)). lia.
Qed.

(** X7. [AudioCompressor] leaves a buffer of silence and its own
    state exactly as they are. *)
Theorem AudioCompressor_silence (f : Filter.Filters) (p : samples)
    (count : Z) :
  (forall i, 0 <= i < Z.quot count 2 -> rd p i = 0) ->
  Filter.AudioCompressor f p count = (f, p).
Proof.
  intros Hzero. unfold Filter.AudioCompressor, Remix.AudioBytesProSample.
  cbv zeta.
  change (fun (i m : Z) =>
            if Z.abs (rd p i) >? m then Z.abs (rd p i) else m)
    with (peak_step p).
  destruct (peak_loop_bounds p (Z.quot count 2) (Z.to_nat (Z.quot count 2))
              0 0 ltac:(lia)) as (_ & _ & [Heq | (i & Hi & Heq)]).
  - rewrite Heq. reflexivity.
  - rewrite Heq, (Hzero i Hi). reflexivity.
Qed.

Lemma AudioCompressor_silence_witness :
  Filter.AudioCompressor default_filters [0; 0; 0; 5] 6
  = (default_filters, [0; 0; 0; 5]).
Proof.
  apply (AudioCompressor_silence default_filters [0; 0; 0; 5] 6).
  intros i Hi. change (Z.quot 6 2) with 3 in Hi.
  assert (Hcases : i = 0 \/ i = 1 \/ i = 2) by lia.
  destruct Hcases as [-> | [-> | ->]]; reflexivity.
Defined.

(** X8. [AudioCompressor] never clips while its factor stays in range:
    with a factor from 0 to 500000 on entry and a maximum that is not
    negative, every sample of a 16-bit buffer comes out as
    [sample * factor / 1000] for the factor the call leaves, and its
    magnitude is at most [INT16_MAX]; the saturation is never used.
    (The bound keeps the [int] sum [factor * 950 + peak_factor * 50]
    from overflowing; above it the new factor can come out negative.) *)
Theorem AudioCompressor_no_clipping (f : Filter.Filters) (p : samples)
    (count i : Z) :
  Forall is_int16 p ->
  0 <= Filter.AudioCompressionFactor f <= 500000 ->
  0 <= Filter.AudioMaxCompression f ->
  0 <= i < count / 2 -> (Z.to_nat i < length p)%nat ->
  rd (snd (Filter.AudioCompressor f p count)) i
  = Z.quot (rd p i
            * Filter.AudioCompressionFactor
                (fst (Filter.AudioCompressor f p count))) 1000
  /\ - INT16_MAX <= rd (snd (Filter.AudioCompressor f p count)) i
     <= INT16_MAX.
Proof.
  intros Hin Hfac Hmax Hi Hlen.
  pose proof (half_count count i Hi) as Hq.
  unfold Filter.AudioCompressor, Remix.AudioBytesProSample.
  cbv zeta.
  change (fun (i m : Z) =>
            if Z.abs (rd p i) >? m then Z.abs (rd p i) else m)
    with (peak_step p). rewrite Hq.
  destruct (peak_loop_bounds p (count / 2) (Z.to_nat (count / 2)) 0 0
              ltac:(lia)) as (Hpos & Hall & Hex).
  set (peak := c_for (Z.to_nat (count / 2)) 0 (count / 2) 1 (peak_step p) 0)
    in *.
  assert (Hpeak : peak <= 32768).
  { destruct Hex as [-> | (k & _ & ->)]; [lia |].
    pose proof (rd_int16 p k Hin) as Hk.
    unfold is_int16, INT16_MIN, INT16_MAX in Hk. lia. }
  pose proof (Hall i ltac:(lia)) as Hsi.
  unfold INT16_MAX.
  destruct (Z.gtb_spec peak 0) as [Hgt | Hle].
  - cbn [fst snd Filter.AudioCompressionFactor].
    set (factor := Z.quot (32767 * 1000) peak).
    assert (Hfactor : 0 <= factor /\ factor * peak <= 32767000
                      /\ factor <= 32767000).
    { unfold factor. rewrite Z.quot_div_nonneg by lia.
      change (32767 * 1000) with 32767000.
      pose proof (Z.mul_div_le 32767000 peak ltac:(lia)).
      assert (0 <= 32767000 / peak) by (apply Z.div_pos; lia).
      assert (32767000 / peak <= 32767000)
        by (apply Z.div_le_upper_bound; nia).
      lia. }
    set (c0 := Z.quot (wrap_s32 (Filter.AudioCompressionFactor f * 950
                                 + factor * 50)) 1000).
    assert (Hc0 : 0 <= c0).
    { unfold c0. rewrite wrap_s32_small
        by (unfold is_int32, INT32_MIN, INT32_MAX; lia).
      apply Z.quot_pos; lia. }
    set (c2 := if (if c0 >? factor then factor else c0)
                  >? Filter.AudioMaxCompression f
               then Filter.AudioMaxCompression f
               else (if c0 >? factor then factor else c0)).
    assert (Hc2 : 0 <= c2 <= factor).
    { unfold c2. destruct (Z.gtb_spec c0 factor);
        match goal with
        | |- context [?x >? ?y] => destruct (Z.gtb_spec x y)
        end; lia. }
    rewrite scale_buffer_sample by assumption.
    assert (Hprod : - 32767000 <= rd p i * c2 <= 32767000) by nia.
    rewrite wrap_s32_small
      by (unfold is_int32, INT32_MIN, INT32_MAX; lia).
    assert (Hquot : - 32767 <= Z.quot (rd p i * c2) 1000 <= 32767).
    { Z.to_euclidean_division_equations. lia. }
    rewrite clamp16_min_max. unfold INT16_MIN, INT16_MAX. lia.
  - cbn [fst snd]. assert (Hz : rd p i = 0) by lia.
    rewrite Hz, Z.mul_0_l. split; [reflexivity | lia].
Qed.

Lemma AudioCompressor_no_clipping_witness :
  rd (snd (Filter.AudioCompressor default_filters
             [100; -20000; 30000; 5] 8)) 2
  = Z.quot (30000
            * Filter.AudioCompressionFactor
                (fst (Filter.AudioCompressor default_filters
                        [100; -20000; 30000; 5] 8))) 1000
  /\ - INT16_MAX
     <= rd (snd (Filter.AudioCompressor default_filters
                   [100; -20000; 30000; 5] 8)) 2
     <= INT16_MAX.
Proof.
  apply (AudioCompressor_no_clipping default_filters
           [100; -20000; 30000; 5] 8 2).
  - repeat constructor; vm_compute; discriminate.
  - vm_compute. split; discriminate.
  - vm_compute. discriminate.
  - split; [lia | reflexivity].
  - simpl. lia.
Defined.

(** X9. The compression factor never exceeds its configured maximum:
    [AudioSetCompression] and [AudioResetCompressor] establish
    [AudioCompressionFactor <= AudioMaxCompression], and
    [AudioCompressor] keeps it, whatever the buffer. *)
Theorem compression_factor_bounded :
  (forall (onoff maxfac flag : Z) (f : Filter.Filters),
      Filter.AudioCompressionFactor
        (snd (AudioSetCompression onoff maxfac flag f)) <= maxfac
      /\ Filter.AudioMaxCompression
           (snd (AudioSetCompression onoff maxfac flag f)) = maxfac)
  /\ (forall f : Filter.Filters,
         Filter.AudioCompressionFactor (Filter.AudioResetCompressor f)
         <= Filter.AudioMaxCompression (Filter.AudioResetCompressor f))
  /\ (forall (f : Filter.Filters) (p : samples) (count : Z),
         Filter.AudioCompressionFactor f <= Filter.AudioMaxCompression f ->
         Filter.AudioCompressionFactor
           (fst (Filter.AudioCompressor f p count))
         <= Filter.AudioMaxCompression
              (fst (Filter.AudioCompressor f p count))).
Proof.
  split; [| split].
  - intros onoff maxfac flag f. unfold AudioSetCompression. cbv zeta.
    cbn [snd Filter.AudioCompressionFactor Filter.AudioMaxCompression].
    split; [| reflexivity].
    match goal with
    | |- context [?x >? maxfac] => destruct (Z.gtb_spec x maxfac)
    end; lia.
  - intros f. unfold Filter.AudioResetCompressor.
    cbn [Filter.AudioCompressionFactor Filter.AudioMaxCompression].
    destruct (Z.gtb_spec 2000 (Filter.AudioMaxCompression f)); lia.
  - intros f p count Hinv. unfold Filter.AudioCompressor. cbv zeta.
    match goal with
    | |- context [if ?c >? 0 then _ else _] => destruct (c >? 0)
    end; [| exact Hinv].
    cbn [fst Filter.AudioCompressionFactor Filter.AudioMaxCompression].
    match goal with
    | |- context [?x >? Filter.AudioMaxCompression f] =>
        destruct (Z.gtb_spec x (Filter.AudioMaxCompression f))
    end; lia.
Qed.

Lemma compression_factor_bounded_witness :
  Filter.AudioCompressionFactor
    (fst (Filter.AudioCompressor
            (snd (AudioSetCompression 1 1500 0 default_filters))
            [100; -20000; 30000; 5] 8))
  <= Filter.AudioMaxCompression
       (fst (Filter.AudioCompressor
               (snd (AudioSetCompression 1 1500 0 default_filters))
               [100; -20000; 30000; 5] 8)).
Proof.
  apply (proj2 (proj2 compression_factor_bounded)).
  pose proof (proj1 compression_factor_bounded 1 1500 0 default_filters)
    as [Hle Hmax].
  rewrite Hmax. exact Hle.
Defined.

(** ** Normaliser *)

(** One pass of the normaliser's loop body: what it keeps and when it
    leaves the factor alone. *)
Lemma normalizer_block_step (f : Filter.Filters) (p : samples) (data l : Z) :
  norm_wf f -> 0 <= l ->
  let f' := fst (Filter.normalizer_block f p data l) in
  let n := snd (Filter.normalizer_block f p data l) in
  norm_wf f'
  /\ 0 <= n <= l /\ (0 < l -> 0 < n)
  /\ Filter.AudioMaxNormalize f' = Filter.AudioMaxNormalize f
  /\ (Filter.AudioMinNormalize <= Filter.AudioMaxNormalize f ->
      Filter.AudioMinNormalize <= Filter.AudioNormalizeFactor f
        <= Filter.AudioMaxNormalize f ->
      Filter.AudioMinNormalize <= Filter.AudioNormalizeFactor f'
        <= Filter.AudioMaxNormalize f)
  /\ (Filter.AudioNormCounter f + l < Filter.AudioNormSamples ->
      n = l /\ Filter.AudioNormalizeFactor f' = Filter.AudioNormalizeFactor f)
  /\ (Filter.AudioNormSamples <= Filter.AudioNormCounter f + l ->
      Filter.AudioNormReady f < Filter.AudioNormMaxIndex ->
      n = Filter.AudioNormSamples - Filter.AudioNormCounter f
      /\ Filter.AudioNormCounter f' = 0
      /\ Filter.AudioNormReady f' = Filter.AudioNormReady f + 1
      /\ Filter.AudioNormalizeFactor f' = Filter.AudioNormalizeFactor f).
Proof.
  intros (Hcnt & Hidx & Hlen) Hl. unfold norm_wf.
  unfold Filter.normalizer_block, Filter.AudioNormSamples,
    Filter.AudioNormMaxIndex, Filter.AudioMinNormalize in *.
  cbv zeta.
  pose proof (Z.rem_bound_pos (Filter.AudioNormIndex f + 1) 128
                ltac:(lia) ltac:(lia)) as Hrem.
  repeat match goal with
         | |- context [?a >? ?b] => destruct (Z.gtb_spec a b)
         | |- context [?a >=? ?b] => destruct (Z.geb_spec a b)
         | |- context [?a <? ?b] => destruct (Z.ltb_spec a b)
         end;
    cbn [fst snd Filter.AudioNormAverage Filter.AudioNormIndex
         Filter.AudioNormReady Filter.AudioNormCounter
         Filter.AudioNormalizeFactor Filter.AudioMaxNormalize];
    rewrite ?length_insert; repeat split; try lia.
Qed.

Lemma normalizer_loop_keeps (p : samples) (fuel : nat) (f : Filter.Filters)
    (data l : Z) :
  norm_wf f -> 0 <= l ->
  let f' := Filter.normalizer_loop fuel f p data l in
  norm_wf f'
  /\ Filter.AudioMaxNormalize f' = Filter.AudioMaxNormalize f
  /\ (Filter.AudioMinNormalize <= Filter.AudioMaxNormalize f ->
      Filter.AudioMinNormalize <= Filter.AudioNormalizeFactor f
        <= Filter.AudioMaxNormalize f ->
      Filter.AudioMinNormalize <= Filter.AudioNormalizeFactor f'
        <= Filter.AudioMaxNormalize f)
  /\ (Filter.AudioNormReady f
      + (Filter.AudioNormCounter f + l) / Filter.AudioNormSamples
      <= Filter.AudioNormMaxIndex ->
      Filter.AudioNormalizeFactor f' = Filter.AudioNormalizeFactor f).
Proof.
  revert f data l. induction fuel as [| fuel IH]; intros f data l Hwf Hl.
  - simpl. auto.
  - cbn [Filter.normalizer_loop].
    destruct (normalizer_block_step f p data l Hwf Hl)
      as (Hwf1 & Hn & Hpos & Hmax1 & Hfac1 & Hpart & Hfull).
    destruct (Filter.normalizer_block f p data l) as [f1 n] eqn:Hblock.
    cbn [fst snd] in *.
    destruct (Z.gtb_spec (l - n) 0) as [Hmore | Hdone].
    + destruct (IH f1 (data + n) (l - n) Hwf1 ltac:(lia))
        as (Hwf2 & Hmax2 & Hfac2 & Hwarm2).
      split; [exact Hwf2 |]. split; [congruence |]. split.
      * intros Hmm Hff. rewrite Hmax1 in Hfac2.
        apply Hfac2; [exact Hmm | apply Hfac1; assumption].
      * intros Hwarm. unfold Filter.AudioNormSamples,
          Filter.AudioNormMaxIndex in *.
        destruct Hwf as (Hcnt & _).
        unfold Filter.AudioNormSamples in Hcnt.
        assert (Hover : 4096 <= Filter.AudioNormCounter f + l).
        { destruct (Z.lt_ge_cases (Filter.AudioNormCounter f + l) 4096)
            as [Hlt |]; [| assumption].
          destruct (Hpart Hlt) as [Hnl _]. lia. }
        assert (Hready : Filter.AudioNormReady f < 128).
        { assert (1 <= (Filter.AudioNormCounter f + l) / 4096)
            by (apply Z.div_le_lower_bound; lia).
          lia. }
        destruct (Hfull Hover Hready) as (Hn' & Hc1 & Hr1 & Hf1).
        rewrite <- Hf1. apply Hwarm2. rewrite Hc1, Hr1, Hn'.
        replace (0 + (l - (4096 - Filter.AudioNormCounter f)))
          with (Filter.AudioNormCounter f + l - 1 * 4096) by lia.
        rewrite <- Z.add_opp_r, <- Z.mul_opp_l, Z.div_add by lia. lia.
    + split; [exact Hwf1 |]. split; [exact Hmax1 |].
      split; [exact Hfac1 |].
      intros Hwarm. unfold Filter.AudioNormSamples,
        Filter.AudioNormMaxIndex in *.
      destruct (Z.lt_ge_cases (Filter.AudioNormCounter f + l) 4096)
        as [Hlt | Hge].
      * apply Hpart. exact Hlt.
      * apply Hfull; [exact Hge |].
        assert (1 <= (Filter.AudioNormCounter f + l) / 4096)
          by (apply Z.div_le_lower_bound; lia).
        lia.
Qed.

(** X10. [AudioNormalizer] keeps its table accesses in bounds and its
    factor in range: the sample counter stays below 4096, the block
    index below 128, the table keeps its 128 entries, the configured
    maximum is not touched, and a factor between the minimum 100 and
    the maximum stays between them. *)
Theorem AudioNormalizer_keeps_bounds (f : Filter.Filters) (p : samples)
    (count : Z) :
  norm_wf f -> 0 <= count ->
  norm_wf (fst (Filter.AudioNormalizer f p count))
  /\ Filter.AudioMaxNormalize (fst (Filter.AudioNormalizer f p count))
     = Filter.AudioMaxNormalize f
  /\ (100 <= Filter.AudioMaxNormalize f ->
      100 <= Filter.AudioNormalizeFactor f <= Filter.AudioMaxNormalize f ->
      100 <= Filter.AudioNormalizeFactor
               (fst (Filter.AudioNormalizer f p count))
        <= Filter.AudioMaxNormalize f).
Proof.
  intros Hwf Hcount. unfold Filter.AudioNormalizer. cbv zeta. cbn [fst].
  assert (Hl : 0 <= Z.quot count Remix.AudioBytesProSample)
    by (apply Z.quot_pos; unfold Remix.AudioBytesProSample; lia).
  destruct (normalizer_loop_keeps p
              (S (Z.to_nat (Z.quot count Remix.AudioBytesProSample))) f 0
              (Z.quot count Remix.AudioBytesProSample) Hwf Hl)
    as (H1 & H2 & H3 & _).
  auto.
Qed.

Lemma AudioNormalizer_keeps_bounds_witness :
  norm_wf (fst (Filter.AudioNormalizer
                  (Filter.mkFilters (replicate 128 0) 127 128 4090 1000
                     2000 2000 3000)
                  (replicate 10 1000) 20)).
Proof.
  apply (AudioNormalizer_keeps_bounds
           (Filter.mkFilters (replicate 128 0) 127 128 4090 1000
              2000 2000 3000)
           (replicate 10 1000) 20).
  - unfold norm_wf. vm_compute. repeat split; discriminate.
  - lia.
Defined.

Lemma scale_by_unity (p : samples) (count i : Z) :
  Forall is_int16 p -> rd (Filter.scale_buffer 1000 p count) i = rd p i.
Proof.
  intros Hin. unfold Filter.scale_buffer.
  change (Filter.scale_sample 1000) with
    (fun (i : Z) (q : samples) =>
       wr q i ((fun x => Filter.clamp16 (Z.quot (wrap_s32 (x * 1000)) 1000))
                 (rd q i))).
  rewrite c_for_pointwise by lia.
  destruct (_ && _); [| reflexivity].
  pose proof (rd_int16 p i Hin) as Hi.
  assert (Hfit : is_int32 (rd p i * 1000)).
  { unfold is_int16, is_int32, INT16_MIN, INT16_MAX, INT32_MIN,
      INT32_MAX in *. lia. }
  rewrite wrap_s32_small by exact Hfit.
  rewrite Z.quot_mul by lia.
  rewrite clamp16_min_max.
  unfold is_int16, INT16_MIN, INT16_MAX in Hi.
  unfold INT16_MIN, INT16_MAX.
  rewrite Z.min_r, Z.max_r by lia.
  apply wrap_s16_small. exact Hi.
Qed.

(** X11. The normaliser warms up silently: as long as fewer than 128
    blocks of 4096 samples have been completed, including those this
    call completes, the factor is not recomputed; with the factor at
    its reset value 1000 the buffer passes through unchanged. *)
Theorem AudioNormalizer_warm_up (f : Filter.Filters) (p : samples)
    (count : Z) :
  norm_wf f -> 0 <= count ->
  Filter.AudioNormReady f
  + (Filter.AudioNormCounter f + count / 2) / 4096 <= 128 ->
  Filter.AudioNormalizeFactor f = 1000 ->
  Forall is_int16 p ->
  Filter.AudioNormalizeFactor (fst (Filter.AudioNormalizer f p count)) = 1000
  /\ forall i, rd (snd (Filter.AudioNormalizer f p count)) i = rd p i.
Proof.
  intros Hwf Hcount Hwarm Hfac Hin.
  unfold Filter.AudioNormalizer. cbv zeta. cbn [fst snd].
  assert (Hq : Z.quot count Remix.AudioBytesProSample = count / 2)
    by (apply Z.quot_div_nonneg; unfold Remix.AudioBytesProSample; lia).
  assert (Hl : 0 <= count / 2) by (apply Z.div_pos; lia).
  rewrite Hq.
  destruct (normalizer_loop_keeps p (S (Z.to_nat (count / 2))) f 0
              (count / 2) Hwf Hl) as (_ & _ & _ & Hkeep).
  rewrite (Hkeep Hwarm), Hfac.
  split; [reflexivity |]. intros i. apply scale_by_unity. exact Hin.
Qed.

Lemma AudioNormalizer_warm_up_witness :
  Filter.AudioNormalizeFactor
    (fst (Filter.AudioNormalizer
            (Filter.AudioResetNormalizer default_filters)
            (replicate 10 1000) 20)) = 1000
  /\ forall i,
       rd (snd (Filter.AudioNormalizer
                  (Filter.AudioResetNormalizer default_filters)
                  (replicate 10 1000) 20)) i
       = rd (replicate 10 1000) i.
Proof.
  apply (AudioNormalizer_warm_up
           (Filter.AudioResetNormalizer default_filters)
           (replicate 10 1000) 20).
  - unfold norm_wf. vm_compute. repeat split; discriminate.
  - lia.
  - vm_compute. discriminate.
  - reflexivity.
  - repeat constructor; vm_compute; discriminate.
Defined.

(** ** Allocation and flush *)

Lemma ring_at_set_ring_at_ne (a : Audio) (i j : Z) (r : AudioRingRing) :
  Z.to_nat i <> Z.to_nat j ->
  ring_at (set_ring_at i r a) j = ring_at a j.
Proof.
  intros H. unfold ring_at, set_ring_at. simpl.
  rewrite !nth_lookup, list_lookup_insert_ne by exact H. reflexivity.
Qed.

Lemma next_index_bounds (i : Z) :
  0 <= i ->
  0 <= Z.rem (i + 1) AUDIO_RING_MAX < AUDIO_RING_MAX
  /\ Z.rem (i + 1) AUDIO_RING_MAX = (i + 1) mod 8.
Proof.
  intros Hi. unfold AUDIO_RING_MAX. split.
  - apply Z.rem_bound_pos; lia.
  - apply Z.rem_mod_nonneg; lia.
Qed.

(** X12. A successful [AudioRingAdd] takes the slot after the write
    index (modulo 8), counts it, and initialises it: flush flag set,
    packet size 0, both rates the requested rate, the hardware channel
    count from the matrix, the PTS unknown and the ring empty. Every
    other slot, the read index, the start threshold, the video-ready
    flag and the pending skip are left alone. *)
Theorem AudioRingAdd_allocates (sample_rate channels use_ac3 : Z)
    (a : Audio) :
  ring_ok a ->
  fst (AudioRingAdd sample_rate channels use_ac3 a) = 0 ->
  let a' := snd (AudioRingAdd sample_rate channels use_ac3 a) in
  let w' := (AudioRingWrite a + 1) mod 8 in
  AudioRingWrite a' = w'
  /\ AudioRingFilled a' = AudioRingFilled a + 1
  /\ ring_at a' w' =
     mkAudioRingRing true (wrap_s8 use_ac3) 0 sample_rate
       (wrap_u32
          (matrix_at a (search_rate AudioRatesTable 0 sample_rate) channels))
       sample_rate (wrap_u32 channels) PTS_SENTINEL
       (RingBufferReset (RingBuffer_ (ring_at a w')))
  /\ used_at a' w' = 0
  /\ (forall i, 0 <= i < 8 -> i <> w' -> ring_at a' i = ring_at a i)
  /\ AudioRingRead a' = AudioRingRead a
  /\ AudioStartThreshold a' = AudioStartThreshold a
  /\ AudioVideoIsReady a' = AudioVideoIsReady a
  /\ AudioSkip a' = AudioSkip a.
Proof.
  intros (Hlen & Hw & Hr) Hret a' w'. subst a' w'.
  destruct (next_index_bounds (AudioRingWrite a) ltac:(lia)) as [Hb He].
  unfold AudioRingAdd in *.
  destruct (_ =? AudioRatesMax); [discriminate Hret |].
  destruct (negb (truthy (matrix_at a _ channels))); [discriminate Hret |].
  destruct (AudioRingFilled a =? AUDIO_RING_MAX); [discriminate Hret |].
  cbv zeta. cbn [snd]. rewrite <- He.
  set (w' := Z.rem (AudioRingWrite a + 1) AUDIO_RING_MAX) in *.
  assert (Hin : (Z.to_nat w' < length (AudioRing a))%nat)
    by (rewrite Hlen; unfold AUDIO_RING_MAX in *; lia).
  assert (Hstate :
            forall b : Audio,
              (if AudioThread
                    (config
                       (set_AudioRingFilled (AudioRingFilled b + 1) b))
               then set_AudioRunning true
                      (set_AudioRingFilled (AudioRingFilled b + 1) b)
               else set_AudioRingFilled (AudioRingFilled b + 1) b)
              = set_AudioRunning
                  (AudioThread (config b) || AudioRunning b)
                  (set_AudioRingFilled (AudioRingFilled b + 1) b)).
  { intros b. cbn [config set_AudioRingFilled].
    destruct (AudioThread (config b)); simpl; [reflexivity |].
    destruct b; reflexivity. }
  rewrite Hstate. clear Hstate.
  unfold used_at, ring_at.
  cbn [AudioRing AudioRingWrite AudioRingRead AudioRingFilled
       AudioStartThreshold AudioVideoIsReady AudioSkip set_AudioRunning
       set_AudioRingFilled set_ring_at set_AudioRing set_AudioRingWrite].
  rewrite !nth_lookup, !list_lookup_insert_eq by exact Hin.
  cbn [default from_option id RingBuffer_].
  repeat split.
  intros i Hi Hne.
  rewrite !nth_lookup, list_lookup_insert_ne by lia. reflexivity.
Qed.

Lemma AudioRingAdd_allocates_witness :
  AudioRingWrite (snd (AudioRingAdd 44100 6 1 waiting_audio)) = (1 + 1) mod 8
  /\ HwChannels (ring_at (snd (AudioRingAdd 44100 6 1 waiting_audio)) 2) = 2
  /\ ring_at (snd (AudioRingAdd 44100 6 1 waiting_audio)) 1
     = ring_at waiting_audio 1.
Proof.
  destruct (AudioRingAdd_allocates 44100 6 1 waiting_audio)
    as (Hw & _ & Hnew & _ & Hold & _).
  - unfold ring_ok. vm_compute. repeat split; discriminate.
  - reflexivity.
  - split; [exact Hw |]. split.
    + change 2 with ((AudioRingWrite waiting_audio + 1) mod 8) at 1.
      rewrite Hnew. reflexivity.
    + apply Hold; [lia | vm_compute; discriminate].
Defined.

(** The polling loop of [AudioFlushBuffers] leaves the running flag
    set. *)
Lemma AudioFlushBuffers_wait_running (n : nat) (a : Audio) :
  AudioFlushBuffers_wait (S n) a = set_AudioRunning true a.
Proof.
  revert a. induction n as [| n IH]; intros a.
  - simpl. destruct (AudioRunning a) eqn:Hrun; simpl.
    + destruct (truthy (AudioRingFilled a)); destruct a; simpl in *;
        subst; reflexivity.
    + destruct (truthy (AudioRingFilled a)); reflexivity.
  - change (AudioFlushBuffers_wait (S (S n)) a)
      with (let a1 := if negb (AudioRunning a)
                      then set_AudioRunning true a else a in
            if negb (truthy (AudioRingFilled a1)) then a1
            else AudioFlushBuffers_wait (S n) a1).
    cbv zeta. rewrite IH.
    destruct (AudioRunning a) eqn:Hrun; simpl.
    + destruct (truthy (AudioRingFilled a)); destruct a; simpl in *;
        subst; reflexivity.
    + destruct (truthy (AudioRingFilled a)); reflexivity.
Qed.

(** X13. [AudioFlushBuffers] always takes the slot after the write
    index: the new segment inherits the format of the segment written
    until now, has the flush flag set, an unknown PTS and an empty
    ring; the count goes up by one, the video-ready flag and the
    pending skip are cleared, the running flag is set, and every other
    slot is left alone. *)
Theorem AudioFlushBuffers_segment (a : Audio) :
  ring_ok a ->
  let a' := AudioFlushBuffers a in
  let w' := (AudioRingWrite a + 1) mod 8 in
  let old := ring_at a (AudioRingWrite a) in
  AudioRingWrite a' = w'
  /\ AudioRingFilled a' = AudioRingFilled a + 1
  /\ ring_at a' w' =
     mkAudioRingRing true (UseAc3 old) (PacketSize (ring_at a w'))
       (HwSampleRate old) (HwChannels old) (InSampleRate old)
       (InChannels old) PTS_SENTINEL
       (RingBufferReadAdvance (RingBuffer_ (ring_at a w'))
          (RingBufferUsedBytes (RingBuffer_ (ring_at a w'))))
  /\ used_at a' w' = 0
  /\ (forall i, 0 <= i < 8 -> i <> w' -> ring_at a' i = ring_at a i)
  /\ AudioVideoIsReady a' = false
  /\ AudioSkip a' = 0
  /\ AudioRunning a' = true
  /\ AudioRingRead a' = AudioRingRead a.
Proof.
  intros (Hlen & Hw & Hr) a' w' old. subst a' w' old.
  destruct (next_index_bounds (AudioRingWrite a) ltac:(lia)) as [Hb He].
  unfold AudioFlushBuffers. cbv zeta.
  change (Z.to_nat (24 * 2)) with (S 47).
  rewrite AudioFlushBuffers_wait_running. rewrite <- He.
  set (w' := Z.rem (AudioRingWrite a + 1) AUDIO_RING_MAX) in *.
  assert (Hin : (Z.to_nat w' < length (AudioRing a))%nat)
    by (rewrite Hlen; unfold AUDIO_RING_MAX in *; lia).
  unfold used_at, ring_at.
  cbn [AudioRing AudioRingWrite AudioRingRead AudioRingFilled
       AudioStartThreshold AudioVideoIsReady AudioSkip AudioRunning
       set_AudioRunning set_AudioRingFilled set_ring_at set_AudioRing
       set_AudioRingWrite set_AudioSkip set_AudioVideoIsReady].
  rewrite !nth_lookup, !list_lookup_insert_eq by exact Hin.
  cbn [default from_option id RingBuffer_].
  repeat split.
  - unfold RingBufferReadAdvance, RingBufferUsedBytes. cbn [Bytes].
    rewrite Z.min_id, Z.max_r by lia.
    rewrite Nat2Z.id, length_drop. lia.
  - intros i Hi Hne.
    rewrite !nth_lookup, list_lookup_insert_ne by lia. reflexivity.
Qed.

Lemma AudioFlushBuffers_segment_witness :
  AudioRingWrite (AudioFlushBuffers waiting_audio) = (1 + 1) mod 8
  /\ HwSampleRate (ring_at (AudioFlushBuffers waiting_audio) 2) = 48000
  /\ PTS (ring_at (AudioFlushBuffers waiting_audio) 2) = PTS_SENTINEL.
Proof.
  destruct (AudioFlushBuffers_segment waiting_audio)
    as (Hw & _ & Hnew & _).
  - unfold ring_ok. vm_compute. repeat split; discriminate.
  - split; [exact Hw |].
    change 2 with ((AudioRingWrite waiting_audio + 1) mod 8).
    rewrite Hnew. split; reflexivity.
Defined.

(** ** What the producer's operations leave alone *)

Lemma producer_frame_refl (a : Audio) : producer_frame a a.
Proof. unfold producer_frame. repeat split; reflexivity. Qed.

(** Storing into the write slot a record with the same format. *)
Lemma producer_frame_store (a b : Audio) (r : AudioRingRing) :
  (Z.to_nat (AudioRingWrite a) < length (AudioRing a))%nat ->
  producer_frame a b ->
  slot_format r = slot_format (ring_at b (AudioRingWrite b)) ->
  producer_frame a (set_ring_at (AudioRingWrite b) r b).
Proof.
  intros Hin (Hw & Hr & Hf & Ht & Hv & Hc & Hl & Hs & Ho) Hfmt.
  unfold producer_frame.
  cbn [AudioRingWrite AudioRingRead AudioRingFilled AudioStartThreshold
       AudioVideoIsReady config set_ring_at set_AudioRing AudioRing].
  rewrite length_insert.
  repeat split; try assumption.
  - rewrite Hw in *. rewrite <- Hs, <- Hfmt.
    fold (set_ring_at (AudioRingWrite a) r b).
    rewrite ring_at_set_ring_at by (rewrite Hl; exact Hin). reflexivity.
  - intros i Hi. rewrite <- (Ho i Hi).
    fold (set_ring_at (AudioRingWrite b) r b).
    apply ring_at_set_ring_at_ne. rewrite Hw. auto.
Qed.

Lemma producer_frame_range (a b : Audio) :
  (Z.to_nat (AudioRingWrite a) < length (AudioRing a))%nat ->
  producer_frame a b ->
  (Z.to_nat (AudioRingWrite b) < length (AudioRing b))%nat.
Proof.
  intros Hin (Hw & _ & _ & _ & _ & _ & Hl & _). rewrite Hw, Hl. exact Hin.
Qed.

Lemma producer_frame_enqueue_start (a b : Audio) :
  (Z.to_nat (AudioRingWrite a) < length (AudioRing a))%nat ->
  producer_frame a b -> producer_frame a (enqueue_start b).
Proof.
  intros Hin Hab. unfold enqueue_start.
  set (b1 := if truthy (AudioSkip b) then _ else b).
  assert (H1 : producer_frame a b1).
  { unfold b1. destruct (truthy (AudioSkip b)); [| exact Hab].
    set (b' := set_AudioSkip _ b).
    assert (Hb' : producer_frame a b') by exact Hab.
    change (AudioRingWrite b) with (AudioRingWrite b').
    apply producer_frame_store; [exact Hin | exact Hb' | reflexivity]. }
  destruct (_ || _); [| exact H1]. exact H1.
Qed.

Lemma producer_frame_enqueue_clock (a b : Audio) (count : Z) :
  (Z.to_nat (AudioRingWrite a) < length (AudioRing a))%nat ->
  producer_frame a b -> producer_frame a (enqueue_clock count b).
Proof.
  intros Hin Hab. unfold enqueue_clock.
  destruct (negb _); [| exact Hab].
  apply producer_frame_store; [exact Hin | exact Hab | reflexivity].
Qed.

Lemma AudioEnqueue_frame (scratch samples_ : samples)
    (count : Z) (a a' : Audio) :
  (Z.to_nat (AudioRingWrite a) < length (AudioRing a))%nat ->
  AudioEnqueue scratch samples_ count a = Some a' ->
  producer_frame a a'.
Proof.
  intros Hin Henq. unfold AudioEnqueue in Henq.
  destruct (negb (truthy (HwSampleRate (ring_at a (AudioRingWrite a))))).
  { injection Henq as <-. apply producer_frame_refl. }
  set (a1 := if negb (truthy (PacketSize (ring_at a (AudioRingWrite a))))
             then _ else a) in Henq.
  assert (H1 : producer_frame a a1).
  { unfold a1. destruct (negb _); [| apply producer_frame_refl].
    apply producer_frame_store;
      [exact Hin | apply producer_frame_refl | reflexivity]. }
  destruct (enqueue_convert scratch samples_ count a1)
    as [[[buffer c] f] |]; [| discriminate].
  injection Henq as <-.
  apply producer_frame_enqueue_clock; [exact Hin |].
  set (a2 := set_filters f a1).
  assert (H2 : producer_frame a a2) by exact H1.
  assert (H3 : producer_frame a
                 (set_ring_at (AudioRingWrite a)
                    (with_RingBuffer
                       (fst (RingBufferWrite
                               (RingBuffer_ (ring_at a2 (AudioRingWrite a)))
                               buffer (wrap_u64 c)))
                       (ring_at a2 (AudioRingWrite a))) a2)).
  { assert (Hw2 : AudioRingWrite a2 = AudioRingWrite a) by apply H2.
    rewrite <- Hw2.
    apply producer_frame_store; [exact Hin | exact H2 | reflexivity]. }
  destruct (negb (AudioRunning _)); [| exact H3].
  apply producer_frame_enqueue_start; assumption.
Qed.

(** X14. [AudioEnqueue] works on the write segment only: both
    indices, the count of queued segments, the start threshold, the
    video-ready flag and the configuration are what they were, every
    other slot is untouched, and in the write slot the format (flush
    flag, pass-through flag, rates and channel counts) is kept. *)
Theorem AudioEnqueue_touches_write_segment_only (scratch samples_ : samples)
    (count : Z) (a a' : Audio) :
  (Z.to_nat (AudioRingWrite a) < length (AudioRing a))%nat ->
  AudioEnqueue scratch samples_ count a = Some a' ->
  producer_frame a a'.
Proof. apply AudioEnqueue_frame. Qed.

Lemma AudioEnqueue_touches_write_segment_only_witness :
  producer_frame quick_audio
    (default quick_audio (AudioEnqueue [] (replicate 400 0) 800 quick_audio)).
Proof.
  apply (AudioEnqueue_touches_write_segment_only [] (replicate 400 0) 800
           quick_audio).
  - vm_compute. lia.
  - vm_compute. reflexivity.
Defined.

Lemma used_after_advance (rb : RingBuffer) (cnt : Z) :
  RingBufferUsedBytes (RingBufferReadAdvance rb cnt)
  = RingBufferUsedBytes rb
    - Z.max 0 (Z.min cnt (RingBufferUsedBytes rb)).
Proof.
  unfold RingBufferReadAdvance, RingBufferUsedBytes. cbn [Bytes].
  rewrite length_drop. lia.
Qed.

Lemma producer_frame_skip (a b : Audio) (v : Z) :
  producer_frame a b -> producer_frame a (set_AudioSkip v b).
Proof. intros H. exact H. Qed.

Lemma producer_frame_running (a b : Audio) (v : bool) :
  producer_frame a b -> producer_frame a (set_AudioRunning v b).
Proof. intros H. exact H. Qed.

(** The part of [AudioVideoReady] that drops [skip] bytes, for any
    value of [skip]. *)
Lemma video_ready_skip_frame (a : Audio) (skip1 : Z) :
  (Z.to_nat (AudioRingWrite a) < length (AudioRing a))%nat ->
  AudioRunning a = false ->
  let used := RingBufferUsedBytes (RingBuffer_ (ring_at a (AudioRingWrite a))) in
  let a3 := if wrap_u32 skip1 >? used
            then set_AudioSkip (wrap_s32 (wrap_u64 (wrap_u64 skip1 - used))) a
            else a in
  let skip2 := if wrap_u32 skip1 >? used then wrap_s32 used else skip1 in
  let a2 :=
    set_ring_at (AudioRingWrite a)
      (with_RingBuffer
         (RingBufferReadAdvance (RingBuffer_ (ring_at a3 (AudioRingWrite a)))
            (wrap_u64 skip2))
         (ring_at a3 (AudioRingWrite a))) a3 in
  producer_frame a a2
  /\ PTS (ring_at a2 (AudioRingWrite a)) = PTS (ring_at a (AudioRingWrite a))
  /\ used_at a2 (AudioRingWrite a) <= used_at a (AudioRingWrite a)
  /\ AudioRunning a2 = false.
Proof.
  intros Hin Hrun used a3 skip2 a2.
  assert (H3 : producer_frame a a3 /\ AudioRing a3 = AudioRing a
               /\ AudioRunning a3 = false /\ AudioRingWrite a3 = AudioRingWrite a).
  { unfold a3. destruct (_ >? _).
    - split; [apply producer_frame_skip, producer_frame_refl | auto].
    - split; [apply producer_frame_refl | auto]. }
  destruct H3 as (Hf3 & Hr3 & Hrun3 & Hw3).
  assert (Hat : ring_at a3 (AudioRingWrite a) = ring_at a (AudioRingWrite a))
    by (unfold ring_at; rewrite Hr3; reflexivity).
  assert (Hin3 : (Z.to_nat (AudioRingWrite a) < length (AudioRing a3))%nat)
    by (rewrite Hr3; exact Hin).
  clearbody a3 skip2. subst a2. split.
  - match goal with
    | |- producer_frame a (set_ring_at _ ?r a3) =>
        pose proof (producer_frame_store a a3 r Hin Hf3) as Hst
    end.
    rewrite Hw3 in Hst. apply Hst. reflexivity.
  - unfold used_at. rewrite ring_at_set_ring_at by exact Hin3.
    cbn [PTS RingBuffer_ with_RingBuffer]. rewrite Hat.
    split; [reflexivity |]. split; [| exact Hrun3].
    rewrite used_after_advance. lia.
Qed.

(** [AudioVideoReady] cut before its last assignment. *)
Lemma AudioVideoReady_frame (pts : Z) (a : Audio) :
  (Z.to_nat (AudioRingWrite a) < length (AudioRing a))%nat ->
  exists b,
    producer_frame a b
    /\ (AudioVideoReady pts a = b
        \/ AudioVideoReady pts a = set_AudioVideoIsReady true b)
    /\ PTS (ring_at b (AudioRingWrite a)) = PTS (ring_at a (AudioRingWrite a))
    /\ used_at b (AudioRingWrite a) <= used_at a (AudioRingWrite a)
    /\ (AudioRunning a = true -> b = a)
    /\ (AudioRunning a = false -> AudioRunning b = true ->
        AudioStartThreshold a < used_at b (AudioRingWrite a)).
Proof.
  intros Hin. unfold AudioVideoReady.
  destruct (pts =? PTS_SENTINEL).
  { exists a. split; [apply producer_frame_refl |].
    split; [auto |]. split; [reflexivity |]. split; [lia |].
    split; [auto | congruence]. }
  destruct (_ || _).
  { exists a. split; [apply producer_frame_refl |].
    split; [auto |]. split; [reflexivity |]. split; [lia |].
    split; [auto | congruence]. }
  destruct (AudioRunning a) eqn:Hrun; cbn [negb].
  { exists a. split; [apply producer_frame_refl |].
    split; [auto |]. split; [reflexivity |]. split; [lia |].
    split; [auto | congruence]. }
  cbv zeta.
  match goal with
  | |- context [(?s >? 0) && (?s <? 2000 * 90)] => set (skip := s)
  end.
  match goal with
  | |- context [wrap_u32 ?s1 >? _] => set (skip1 := s1)
  end.
  clearbody skip1. clearbody skip.
  pose proof (video_ready_skip_frame a skip1 Hin Hrun) as Hskip.
  cbv zeta in Hskip.
  match type of Hskip with
  | producer_frame a ?x /\ _ => set (a2' := x) in *
  end.
  clearbody a2'.
  set (a2 := if (skip >? 0) && (skip <? 2000 * 90) then a2' else a).
  assert (H2 : producer_frame a a2
               /\ PTS (ring_at a2 (AudioRingWrite a))
                  = PTS (ring_at a (AudioRingWrite a))
               /\ used_at a2 (AudioRingWrite a)
                  <= used_at a (AudioRingWrite a)
               /\ AudioRunning a2 = false).
  { unfold a2. destruct (_ && _); [exact Hskip |].
    split; [apply producer_frame_refl |]. split; [reflexivity |].
    split; [lia | exact Hrun]. }
  clearbody a2. destruct H2 as (Hf2 & Hp2 & Hu2 & Hrun2).
  assert (Ht2 : AudioStartThreshold a2 = AudioStartThreshold a) by apply Hf2.
  fold (used_at a2 (AudioRingWrite a)).
  destruct (Z.ltb_spec (AudioStartThreshold a2)
              (used_at a2 (AudioRingWrite a))) as [Hlt | Hge].
  - exists (set_AudioRunning true a2).
    split; [apply producer_frame_running; exact Hf2 |].
    split; [auto |]. split; [exact Hp2 |].
    split; [exact Hu2 |]. split; [discriminate |].
    intros _ _. rewrite <- Ht2. exact Hlt.
  - exists a2. split; [exact Hf2 |]. split; [auto |]. split; [exact Hp2 |].
    split; [exact Hu2 |]. split; [discriminate |]. congruence.
Qed.

(** X15. The layout of the ring of rings survives every operation of
    the producer: after [AudioSetup], [AudioFlushBuffers],
    [AudioSetClock], [AudioVideoReady] and [AudioEnqueue] there are
    still eight slots and both indices lie inside them; [AudioSetup]
    also keeps the count of queued segments between 0 and 8. *)
Theorem ring_ok_kept (a : Audio) :
  ring_ok a ->
  (forall freq channels use_ac3,
      ring_ok (snd (AudioSetup freq channels use_ac3 a))
      /\ (0 <= AudioRingFilled a <= 8 ->
          0 <= AudioRingFilled (snd (AudioSetup freq channels use_ac3 a))
            <= 8))
  /\ ring_ok (AudioFlushBuffers a)
  /\ (forall pts, ring_ok (AudioSetClock pts a))
  /\ (forall pts, ring_ok (AudioVideoReady pts a))
  /\ (forall scratch samples_ count a',
         AudioEnqueue scratch samples_ count a = Some a' -> ring_ok a').
Proof.
  intros Hok. pose proof Hok as (Hlen & Hw & Hr).
  destruct (next_index_bounds (AudioRingWrite a) ltac:(lia)) as [Hb _].
  assert (Hin : (Z.to_nat (AudioRingWrite a) < length (AudioRing a))%nat)
    by (rewrite Hlen; unfold AUDIO_RING_MAX in *; lia).
  assert (Hframe : forall b, producer_frame a b -> ring_ok b).
  { intros b (Hbw & Hbr & _ & _ & _ & _ & Hbl & _).
    unfold ring_ok. rewrite Hbw, Hbr, Hbl. exact Hok. }
  split; [| split; [| split; [| split]]].
  - intros freq channels use_ac3. unfold AudioSetup.
    destruct (_ || _); [cbn [snd]; auto |].
    unfold AudioRingAdd.
    destruct (_ =? AudioRatesMax); [cbn [snd]; auto |].
    destruct (negb (truthy (matrix_at a _ channels))); [cbn [snd]; auto |].
    destruct (Z.eqb_spec (AudioRingFilled a) AUDIO_RING_MAX);
      [cbn [snd]; auto |].
    cbv zeta. cbn [snd config set_AudioRingFilled set_ring_at set_AudioRing
                   set_AudioRingWrite].
    destruct (AudioThread (config a)); unfold ring_ok;
      cbn [AudioRing AudioRingWrite AudioRingRead AudioRingFilled
           set_AudioRunning set_AudioRingFilled set_ring_at set_AudioRing
           set_AudioRingWrite];
      rewrite length_insert; unfold AUDIO_RING_MAX in *;
      (split; [auto | lia]).
  - unfold AudioFlushBuffers. cbv zeta.
    change (Z.to_nat (24 * 2)) with (S 47).
    rewrite AudioFlushBuffers_wait_running. unfold ring_ok.
    cbn [AudioRing AudioRingWrite AudioRingRead set_AudioRunning
         set_AudioRingFilled set_ring_at set_AudioRing set_AudioRingWrite
         set_AudioSkip set_AudioVideoIsReady].
    rewrite length_insert. auto.
  - intros pts. unfold AudioSetClock, ring_ok.
    cbn [AudioRing AudioRingWrite AudioRingRead set_ring_at set_AudioRing].
    rewrite length_insert. exact Hok.
  - intros pts.
    destruct (AudioVideoReady_frame pts a Hin)
      as (b & Hfb & [-> | ->] & _); [apply Hframe; exact Hfb |].
    apply Hframe in Hfb. exact Hfb.
  - intros scratch samples_ count a' Henq. apply Hframe.
    apply (AudioEnqueue_frame scratch samples_ count a a' Hin Henq).
Qed.

Lemma ring_ok_kept_witness :
  ring_ok (snd (AudioSetup 48000 2 0 full_audio))
  /\ ring_ok (AudioFlushBuffers waiting_audio)
  /\ ring_ok (AudioVideoReady 180000 waiting_audio).
Proof.
  assert (H1 : ring_ok full_audio)
    by (unfold ring_ok; vm_compute; repeat split; discriminate).
  assert (H2 : ring_ok waiting_audio)
    by (unfold ring_ok; vm_compute; repeat split; discriminate).
  split; [| split].
  - apply (proj1 (ring_ok_kept full_audio H1)).
  - apply (proj1 (proj2 (ring_ok_kept waiting_audio H2))).
  - apply (proj1 (proj2 (proj2 (proj2 (ring_ok_kept waiting_audio H2))))).
Defined.

(** ** Clock *)

Lemma AudioGetDelay_zero (module_delay : Z) (a : Audio) :
  AudioRunning a = false \/ AudioRingFilled a <> 0 ->
  AudioGetDelay module_delay a = 0.
Proof.
  intros H. unfold AudioGetDelay.
  destruct (AudioRunning a); cbn [negb]; [| reflexivity].
  destruct (negb (truthy (HwSampleRate _))); [reflexivity |].
  destruct H as [H | H]; [discriminate |].
  unfold truthy. destruct (Z.eqb_spec (AudioRingFilled a) 0);
    [contradiction | reflexivity].
Qed.

Lemma AudioGetClock_no_delay (module_delay : Z) (a : Audio) :
  AudioGetDelay module_delay a = 0 ->
  AudioGetClock module_delay a = PTS_SENTINEL.
Proof.
  intros H. unfold AudioGetClock. rewrite H.
  destruct (negb _); reflexivity.
Qed.

(** X16. While a segment is queued the clock is unknown: with a count
    of queued segments that is not negative, right after a successful
    [AudioSetup] and right after [AudioFlushBuffers] the delay is 0
    and [AudioGetClock] returns the sentinel, whatever the driver
    reports. *)
Theorem clock_unknown_after_allocation (module_delay : Z) (a : Audio) :
  0 <= AudioRingFilled a ->
  (forall freq channels use_ac3,
      fst (AudioSetup freq channels use_ac3 a) = 0 ->
      AudioGetDelay module_delay (snd (AudioSetup freq channels use_ac3 a))
      = 0
      /\ AudioGetClock module_delay
           (snd (AudioSetup freq channels use_ac3 a)) = PTS_SENTINEL)
  /\ AudioGetDelay module_delay (AudioFlushBuffers a) = 0
  /\ AudioGetClock module_delay (AudioFlushBuffers a) = PTS_SENTINEL.
Proof.
  intros Hfilled.
  assert (Hflush : AudioRingFilled (AudioFlushBuffers a) <> 0).
  { unfold AudioFlushBuffers. cbv zeta.
    change (Z.to_nat (24 * 2)) with (S 47).
    rewrite AudioFlushBuffers_wait_running.
    cbn [AudioRingFilled set_AudioRunning set_AudioRingFilled set_AudioSkip
         set_AudioVideoIsReady set_ring_at set_AudioRing set_AudioRingWrite].
    lia. }
  split; [| split].
  - intros freq channels use_ac3 Hret.
    assert (Hadd : AudioRingFilled (snd (AudioSetup freq channels use_ac3 a))
                   <> 0).
    { unfold AudioSetup in *.
      destruct (_ || _); [discriminate Hret |].
      unfold AudioRingAdd in *.
      destruct (_ =? AudioRatesMax); [discriminate Hret |].
      destruct (negb (truthy (matrix_at a _ channels)));
        [discriminate Hret |].
      destruct (AudioRingFilled a =? AUDIO_RING_MAX); [discriminate Hret |].
      cbv zeta. cbn [snd config set_AudioRingFilled set_ring_at set_AudioRing
                     set_AudioRingWrite].
      destruct (AudioThread (config a));
        cbn [AudioRingFilled set_AudioRunning set_AudioRingFilled
             set_ring_at set_AudioRing set_AudioRingWrite]; lia. }
    pose proof (AudioGetDelay_zero module_delay _ (or_intror Hadd)) as Hd.
    split; [exact Hd | apply AudioGetClock_no_delay; exact Hd].
  - apply AudioGetDelay_zero. right. exact Hflush.
  - apply AudioGetClock_no_delay, AudioGetDelay_zero. right. exact Hflush.
Qed.

Lemma clock_unknown_after_allocation_witness :
  AudioGetClock 2700 (snd (AudioSetup 44100 2 0
                             (set_AudioRunning true waiting_audio)))
  = PTS_SENTINEL
  /\ AudioGetClock 2700 (AudioFlushBuffers
                           (set_AudioRunning true waiting_audio))
     = PTS_SENTINEL.
Proof.
  destruct (clock_unknown_after_allocation 2700
              (set_AudioRunning true waiting_audio)) as (H1 & _ & H2).
  - vm_compute. discriminate.
  - split; [| exact H2]. apply H1. reflexivity.
Defined.

(** X17. [AudioSetClock] writes the write segment and [AudioGetClock]
    reads the read segment. When both indices name the same slot, the
    clock after [AudioSetClock(pts)] is [pts] minus the delay (the
    sentinel if [pts] is the sentinel or the delay is 0); when they
    differ, [AudioSetClock] does not change what [AudioGetClock]
    returns. The delay is the same before and after in both cases. *)
Theorem AudioSetClock_then_GetClock (module_delay pts : Z) (a : Audio) :
  ring_ok a ->
  AudioGetDelay module_delay (AudioSetClock pts a)
  = AudioGetDelay module_delay a
  /\ (AudioRingRead a = AudioRingWrite a ->
      AudioGetClock module_delay (AudioSetClock pts a)
      = if (pts =? PTS_SENTINEL) || (AudioGetDelay module_delay a =? 0)
        then PTS_SENTINEL
        else wrap_s64 (pts - AudioGetDelay module_delay a))
  /\ (AudioRingRead a <> AudioRingWrite a ->
      AudioGetClock module_delay (AudioSetClock pts a)
      = AudioGetClock module_delay a).
Proof.
  intros (Hlen & Hw & Hr).
  assert (Hin : (Z.to_nat (AudioRingWrite a) < length (AudioRing a))%nat)
    by (rewrite Hlen; unfold AUDIO_RING_MAX in *; lia).
  assert (Hread : AudioRingRead (AudioSetClock pts a) = AudioRingRead a)
    by reflexivity.
  assert (Hdelay : AudioGetDelay module_delay (AudioSetClock pts a)
                   = AudioGetDelay module_delay a).
  { unfold AudioGetDelay. rewrite Hread.
    change (AudioRunning (AudioSetClock pts a)) with (AudioRunning a).
    change (AudioRingFilled (AudioSetClock pts a)) with (AudioRingFilled a).
    destruct (Z.eq_dec (AudioRingRead a) (AudioRingWrite a)) as [E | N].
    - rewrite E. unfold AudioSetClock.
      rewrite ring_at_set_ring_at by exact Hin. reflexivity.
    - unfold AudioSetClock.
      rewrite ring_at_set_ring_at_ne by lia. reflexivity. }
  split; [exact Hdelay |]. split.
  - intros E. unfold AudioGetClock. rewrite Hdelay, Hread, E.
    assert (Hat : ring_at (AudioSetClock pts a) (AudioRingWrite a)
                  = with_PTS pts (ring_at a (AudioRingWrite a)))
      by (unfold AudioSetClock; apply ring_at_set_ring_at; exact Hin).
    rewrite !Hat.
    cbn [PTS UseAc3 with_PTS]. unfold truthy.
    replace (pts + 0 * 90 - AudioGetDelay module_delay a)
      with (pts - AudioGetDelay module_delay a) by lia.
    destruct (pts =? PTS_SENTINEL); [reflexivity |]. cbn [negb orb].
    destruct (AudioGetDelay module_delay a =? 0); [reflexivity |].
    cbn [negb]. destruct (negb _); reflexivity.
  - intros N. unfold AudioGetClock. rewrite Hdelay, Hread.
    assert (Hat : ring_at (AudioSetClock pts a) (AudioRingRead a)
                  = ring_at a (AudioRingRead a))
      by (unfold AudioSetClock; apply ring_at_set_ring_at_ne; lia).
    rewrite !Hat. reflexivity.
Qed.

Lemma AudioSetClock_then_GetClock_witness :
  AudioGetClock 2700 (AudioSetClock 180000
                        (set_AudioRunning true waiting_audio))
  = wrap_s64 (180000 - 2700).
Proof.
  pose proof (proj1 (proj2 (AudioSetClock_then_GetClock 2700 180000
                              (set_AudioRunning true waiting_audio)
                              ltac:(unfold ring_ok; vm_compute;
                                    repeat split; discriminate)))
                eq_refl) as H.
  exact H.
Defined.

(** X18. [AudioVideoReady]: with the sentinel as video PTS nothing
    changes, not even the video-ready flag. With any other PTS the
    flag is set; the write segment keeps its PTS and never gains
    bytes; the indices, the count, the threshold and the other slots
    are left alone; a running thread means nothing but the flag
    changes; and a waiting thread is started only on more than one
    start threshold of bytes left after the skip. *)
Theorem AudioVideoReady_effects (pts : Z) (a : Audio) :
  (Z.to_nat (AudioRingWrite a) < length (AudioRing a))%nat ->
  AudioVideoReady PTS_SENTINEL a = a
  /\ (pts <> PTS_SENTINEL ->
      let a' := AudioVideoReady pts a in
      AudioVideoIsReady a' = true
      /\ producer_frame a (set_AudioVideoIsReady (AudioVideoIsReady a) a')
      /\ PTS (ring_at a' (AudioRingWrite a))
         = PTS (ring_at a (AudioRingWrite a))
      /\ used_at a' (AudioRingWrite a) <= used_at a (AudioRingWrite a)
      /\ (AudioRunning a = true -> a' = set_AudioVideoIsReady true a)
      /\ (AudioRunning a = false -> AudioRunning a' = true ->
          AudioStartThreshold a < used_at a' (AudioRingWrite a))).
Proof.
  intros Hin. split; [reflexivity |].
  intros Hpts a'. subst a'.
  destruct (AudioVideoReady_frame pts a Hin)
    as (b & Hfb & Hcases & Hp & Hu & Hrun & Hstart).
  assert (Hset : AudioVideoReady pts a = set_AudioVideoIsReady true b).
  { destruct Hcases as [H | H]; [| exact H].
    unfold AudioVideoReady in *.
    destruct (Z.eqb_spec pts PTS_SENTINEL); [contradiction |].
    destruct (_ || _).
    - rewrite <- H. reflexivity.
    - rewrite <- H. reflexivity. }
  rewrite Hset.
  split; [reflexivity |]. split.
  { destruct Hfb as (H1 & H2 & H3 & H4 & H5 & H6 & H7 & H8 & H9).
    unfold producer_frame. repeat split; assumption. }
  split; [exact Hp |]. split; [exact Hu |]. split.
  - intros Hr. rewrite (Hrun Hr). reflexivity.
  - intros Hr Hr'. apply Hstart; assumption.
Qed.

Lemma AudioVideoReady_effects_witness :
  AudioVideoIsReady (AudioVideoReady 180000 waiting_audio) = true
  /\ used_at (AudioVideoReady 180000 waiting_audio)
       (AudioRingWrite waiting_audio)
     <= used_at waiting_audio (AudioRingWrite waiting_audio).
Proof.
  destruct (AudioVideoReady_effects 180000 waiting_audio) as [_ H].
  - vm_compute. lia.
  - destruct H as (H1 & _ & _ & H2 & _).
    + vm_compute. discriminate.
    + split; [exact H1 | exact H2].
Defined.

(** ** Start and skip in [AudioEnqueue] *)

(** [AudioEnqueue] on a set-up segment, cut after the write into the
    ring, with what the start check needs to know of that state. *)
Lemma AudioEnqueue_written (scratch samples_ : samples) (count : Z)
    (a : Audio) :
  (Z.to_nat (AudioRingWrite a) < length (AudioRing a))%nat ->
  HwSampleRate (ring_at a (AudioRingWrite a)) <> 0 ->
  channels_ok (ring_at a (AudioRingWrite a)) ->
  exists a3 buffer b,
    AudioEnqueue scratch samples_ count a
    = Some (enqueue_clock b
              (if negb (AudioRunning a) then enqueue_start a3 else a3))
    /\ producer_frame a a3
    /\ AudioRunning a3 = AudioRunning a
    /\ AudioSkip a3 = AudioSkip a
    /\ RingBuffer_ (ring_at a3 (AudioRingWrite a))
       = fst (RingBufferWrite (RingBuffer_ (ring_at a (AudioRingWrite a)))
                buffer (wrap_u64 b)).
Proof.
  intros Hin Hrate Hok. unfold AudioEnqueue.
  assert (Ht : truthy (HwSampleRate (ring_at a (AudioRingWrite a))) = true).
  { unfold truthy. destruct (Z.eqb_spec (HwSampleRate
      (ring_at a (AudioRingWrite a))) 0); [contradiction | reflexivity]. }
  rewrite Ht. cbn [negb].
  set (a1 := if negb (truthy (PacketSize (ring_at a (AudioRingWrite a))))
             then _ else a).
  assert (H1 : producer_frame a a1 /\ AudioRunning a1 = AudioRunning a
               /\ AudioSkip a1 = AudioSkip a
               /\ RingBuffer_ (ring_at a1 (AudioRingWrite a))
                  = RingBuffer_ (ring_at a (AudioRingWrite a))
               /\ format_of a1 = format_of a).
  { unfold a1. destruct (negb _).
    - split; [apply producer_frame_store;
              [exact Hin | apply producer_frame_refl | reflexivity] |].
      split; [reflexivity |]. split; [reflexivity |]. split.
      + rewrite ring_at_set_ring_at by exact Hin. reflexivity.
      + apply format_of_set_ring_at; [exact Hin | reflexivity ..].
    - split; [apply producer_frame_refl | auto]. }
  destruct H1 as (Hf1 & Hr1 & Hs1 & Hb1 & Hfmt1).
  destruct (format_of_fields a a1 count Hfmt1) as (_ & Hok1 & _).
  destruct (enqueue_convert_returns scratch samples_ count a1 (Hok1 Hok))
    as (buffer & f & Hconv).
  rewrite Hconv.
  set (b := hw_count count (ring_at a1 (AudioRingWrite a1))).
  set (a2 := set_filters f a1).
  assert (Hw2 : AudioRingWrite a2 = AudioRingWrite a) by apply Hf1.
  assert (Hin2 : (Z.to_nat (AudioRingWrite a) < length (AudioRing a2))%nat).
  { pose proof (producer_frame_range a a1 Hin Hf1) as H.
    rewrite <- Hw2. exact H. }
  set (a3 := set_ring_at (AudioRingWrite a) _ a2).
  exists a3, buffer, b.
  change (AudioRunning a3) with (AudioRunning a1). rewrite Hr1.
  split; [reflexivity |]. split.
  { unfold a3. rewrite <- Hw2.
    apply producer_frame_store; [exact Hin | exact Hf1 | reflexivity]. }
  split; [reflexivity |]. split; [exact Hs1 |].
  unfold a3. rewrite ring_at_set_ring_at by exact Hin2.
  cbn [RingBuffer_ with_RingBuffer].
  change (ring_at a2 (AudioRingWrite a)) with (ring_at a1 (AudioRingWrite a)).
  rewrite Hb1. reflexivity.
Qed.

(** What the start check does to the pending skip, the ring and the
    running flag. *)
Lemma enqueue_start_result (a : Audio) :
  (Z.to_nat (AudioRingWrite a) < length (AudioRing a))%nat ->
  0 <= AudioSkip a <= INT32_MAX ->
  0 <= used_at a (AudioRingWrite a) <= INT32_MAX ->
  let a4 := enqueue_start a in
  let w := AudioRingWrite a in
  let k := Z.min (AudioSkip a) (used_at a w) in
  AudioSkip a4 = AudioSkip a - k
  /\ used_at a4 w = used_at a w - k
  /\ AudioRunning a4
     = AudioRunning a
       || ((wrap_u32 (AudioStartThreshold a * 4) <? used_at a4 w)
           || (AudioVideoIsReady a && (AudioStartThreshold a <? used_at a4 w))).
Proof.
  intros Hin Hskip Hused a4 w k. subst a4 w k.
  unfold INT32_MAX in *. unfold enqueue_start.
  set (a1 := if truthy (AudioSkip a) then _ else a).
  assert (H1 : AudioSkip a1
               = AudioSkip a - Z.min (AudioSkip a) (used_at a (AudioRingWrite a))
               /\ used_at a1 (AudioRingWrite a)
                  = used_at a (AudioRingWrite a)
                    - Z.min (AudioSkip a) (used_at a (AudioRingWrite a))
               /\ AudioRunning a1 = AudioRunning a
               /\ AudioVideoIsReady a1 = AudioVideoIsReady a
               /\ AudioStartThreshold a1 = AudioStartThreshold a).
  { unfold a1, truthy. destruct (Z.eqb_spec (AudioSkip a) 0) as [Hz | Hnz];
      cbn [negb].
    - rewrite Hz. rewrite Z.min_l by lia. repeat split; lia.
    - fold (used_at a (AudioRingWrite a)).
      set (n := used_at a (AudioRingWrite a)) in *.
      rewrite (wrap_u32_small (AudioSkip a))
        by (change (2 ^ 32) with 4294967296; lia).
      assert (Hsk : (if n <? AudioSkip a then wrap_s32 n else AudioSkip a)
                    = Z.min (AudioSkip a) n).
      { destruct (Z.ltb_spec n (AudioSkip a)).
        - rewrite wrap_s32_small
            by (unfold is_int32, INT32_MIN, INT32_MAX; lia). lia.
        - lia. }
      rewrite Hsk.
      set (a' := set_AudioSkip _ a).
      change (ring_at a' (AudioRingWrite a))
        with (ring_at a (AudioRingWrite a)).
      assert (Hin' : (Z.to_nat (AudioRingWrite a) < length (AudioRing a'))%nat)
        by exact Hin.
      assert (Hmin : 0 <= Z.min (AudioSkip a) n <= 2147483647) by lia.
      split; [| split; [| auto]].
      + cbn [AudioSkip set_ring_at set_AudioRing]. unfold a'.
        cbn [AudioSkip set_AudioSkip].
        apply wrap_s32_small.
        unfold is_int32, INT32_MIN, INT32_MAX. lia.
      + unfold used_at. rewrite ring_at_set_ring_at by exact Hin'.
        cbn [RingBuffer_ with_RingBuffer]. rewrite used_after_advance.
        fold (used_at a (AudioRingWrite a)). fold n.
        unfold wrap_u64, wrap_u. rewrite Z.mod_small
          by (change (2 ^ 64) with 18446744073709551616; lia).
        lia. }
  destruct H1 as (Hs1 & Hu1 & Hr1 & Hv1 & Ht1).
  fold (used_at a1 (AudioRingWrite a)).
  rewrite Hv1, Ht1.
  destruct ((wrap_u32 (AudioStartThreshold a * 4)
             <? used_at a1 (AudioRingWrite a))
            || (AudioVideoIsReady a
                && (AudioStartThreshold a <? used_at a1 (AudioRingWrite a))))
    eqn:Hcond.
  - change (used_at (set_AudioRunning true a1) (AudioRingWrite a))
      with (used_at a1 (AudioRingWrite a)).
    cbn [AudioSkip AudioRunning set_AudioRunning].
    rewrite Hcond, orb_true_r. auto.
  - rewrite Hcond, orb_false_r. auto.
Qed.

Lemma enqueue_clock_keeps (count : Z) (a : Audio) :
  (Z.to_nat (AudioRingWrite a) < length (AudioRing a))%nat ->
  AudioRunning (enqueue_clock count a) = AudioRunning a
  /\ AudioSkip (enqueue_clock count a) = AudioSkip a
  /\ used_at (enqueue_clock count a) (AudioRingWrite a)
     = used_at a (AudioRingWrite a).
Proof.
  intros Hin. unfold enqueue_clock, used_at.
  destruct (negb _); [| auto].
  rewrite ring_at_set_ring_at by exact Hin. auto.
Qed.

Lemma used_after_write (rb : RingBuffer) (buf : samples) (cnt : Z) :
  0 <= RingBufferUsedBytes rb <= Size rb ->
  0 <= RingBufferUsedBytes (fst (RingBufferWrite rb buf cnt)) <= Size rb.
Proof.
  unfold RingBufferWrite, RingBufferFreeBytes, RingBufferUsedBytes, bytes_of.
  cbn [fst Bytes]. rewrite length_app, length_map, length_seq. lia.
Qed.

(** X19. Once the video is ready, [AudioEnqueue] on a waiting thread
    sets the running flag exactly when the write segment, after the
    write and after any pending skip has been dropped from it, holds
    more than one start threshold of bytes. *)
Theorem AudioEnqueue_start_when_video_ready (scratch samples_ : samples)
    (count : Z) (a : Audio) :
  let w := AudioRingWrite a in
  let rb := RingBuffer_ (ring_at a w) in
  (Z.to_nat w < length (AudioRing a))%nat ->
  HwSampleRate (ring_at a w) <> 0 ->
  channels_ok (ring_at a w) ->
  0 <= AudioStartThreshold a <= AudioRingBufferSize / 3 ->
  0 <= AudioSkip a <= INT32_MAX ->
  0 <= RingBufferUsedBytes rb <= Size rb -> Size rb <= INT32_MAX ->
  AudioVideoIsReady a = true ->
  AudioRunning a = false ->
  exists a',
    AudioEnqueue scratch samples_ count a = Some a'
    /\ (AudioRunning a' = true <-> AudioStartThreshold a < used_at a' w).
Proof.
  intros w rb Hin Hrate Hok Hthr Hskip Hused Hsize Hvideo Hrun.
  subst w rb.
  destruct (AudioEnqueue_written scratch samples_ count a Hin Hrate Hok)
    as (a3 & buffer & b & Henq & Hf3 & Hr3 & Hs3 & Hb3).
  rewrite Hrun in Henq. cbn [negb] in Henq.
  pose proof (producer_frame_range a a3 Hin Hf3) as Hin3.
  assert (Hw3 : AudioRingWrite a3 = AudioRingWrite a) by apply Hf3.
  assert (Ht3 : AudioStartThreshold a3 = AudioStartThreshold a) by apply Hf3.
  assert (Hv3 : AudioVideoIsReady a3 = AudioVideoIsReady a) by apply Hf3.
  assert (Hu3 : 0 <= used_at a3 (AudioRingWrite a3) <= INT32_MAX).
  { unfold used_at. rewrite Hw3, Hb3.
    pose proof (used_after_write _ buffer (wrap_u64 b) Hused). lia. }
  destruct (enqueue_start_result a3 Hin3 ltac:(rewrite Hs3; exact Hskip) Hu3)
    as (_ & _ & Hrun4).
  assert (Hin4 : (Z.to_nat (AudioRingWrite (enqueue_start a3))
                  < length (AudioRing (enqueue_start a3)))%nat).
  { apply (producer_frame_range a3); [exact Hin3 |].
    apply producer_frame_enqueue_start;
      [exact Hin3 | apply producer_frame_refl]. }
  assert (Hw4 : AudioRingWrite (enqueue_start a3) = AudioRingWrite a3).
  { apply (producer_frame_enqueue_start a3 a3 Hin3 (producer_frame_refl a3)). }
  destruct (enqueue_clock_keeps b (enqueue_start a3) Hin4)
    as (Hrc & _ & Huc).
  exists (enqueue_clock b (enqueue_start a3)). split; [exact Henq |].
  rewrite Hrc, Hrun4, Hr3, Hrun, Hv3, Hvideo, Ht3.
  rewrite <- Hw3, <- Hw4, Huc, Hw4.
  cbn [orb andb].
  rewrite wrap_u32_small.
  2:{ change (AudioRingBufferSize / 3) with 560000 in Hthr.
      change (2 ^ 32) with 4294967296. lia. }
  destruct (Z.ltb_spec (AudioStartThreshold a * 4)
              (used_at (enqueue_start a3) (AudioRingWrite a3))),
    (Z.ltb_spec (AudioStartThreshold a)
       (used_at (enqueue_start a3) (AudioRingWrite a3)));
    cbn [orb]; split; intros; try reflexivity; try discriminate; lia.
Qed.

Lemma AudioEnqueue_start_when_video_ready_witness :
  exists a',
    AudioEnqueue [] (replicate 100 0) 200
      (AudioVideoReady 90000 quick_audio) = Some a'
    /\ (AudioRunning a' = true
        <-> AudioStartThreshold (AudioVideoReady 90000 quick_audio)
            < used_at a' (AudioRingWrite (AudioVideoReady 90000 quick_audio))).
Proof.
  apply (AudioEnqueue_start_when_video_ready [] (replicate 100 0) 200
           (AudioVideoReady 90000 quick_audio)).
  - vm_compute. lia.
  - vm_compute. discriminate.
  - right. vm_compute. repeat split; discriminate.
  - vm_compute. split; discriminate.
  - vm_compute. split; discriminate.
  - vm_compute. split; discriminate.
  - vm_compute. discriminate.
  - reflexivity.
  - reflexivity.
Defined.

(** X20. A pending skip is taken out of what [AudioEnqueue] has just
    queued, while the thread waits: the call writes some buffer into the
    write segment, then drops [dropped] bytes from it and lowers the
    pending skip by the same amount; afterwards either the pending skip
    is used up or the write segment is empty. *)
Theorem AudioEnqueue_consumes_skip (scratch samples_ : samples)
    (count : Z) (a : Audio) :
  let w := AudioRingWrite a in
  let rb := RingBuffer_ (ring_at a w) in
  (Z.to_nat w < length (AudioRing a))%nat ->
  HwSampleRate (ring_at a w) <> 0 ->
  channels_ok (ring_at a w) ->
  0 <= AudioSkip a <= INT32_MAX ->
  0 <= RingBufferUsedBytes rb <= Size rb -> Size rb <= INT32_MAX ->
  AudioRunning a = false ->
  exists a' buffer bytes dropped,
    AudioEnqueue scratch samples_ count a = Some a'
    /\ 0 <= dropped
    /\ AudioSkip a' = AudioSkip a - dropped
    /\ used_at a' w
       = RingBufferUsedBytes (fst (RingBufferWrite rb buffer bytes)) - dropped
    /\ (AudioSkip a' = 0 \/ used_at a' w = 0).
Proof.
  intros w rb Hin Hrate Hok Hskip Hused Hsize Hrun. subst w rb.
  destruct (AudioEnqueue_written scratch samples_ count a Hin Hrate Hok)
    as (a3 & buffer & b & Henq & Hf3 & Hr3 & Hs3 & Hb3).
  rewrite Hrun in Henq. cbn [negb] in Henq.
  pose proof (producer_frame_range a a3 Hin Hf3) as Hin3.
  assert (Hw3 : AudioRingWrite a3 = AudioRingWrite a) by apply Hf3.
  assert (Hu3 : 0 <= used_at a3 (AudioRingWrite a3) <= INT32_MAX).
  { unfold used_at. rewrite Hw3, Hb3.
    pose proof (used_after_write _ buffer (wrap_u64 b) Hused). lia. }
  destruct (enqueue_start_result a3 Hin3 ltac:(rewrite Hs3; exact Hskip) Hu3)
    as (Hs4 & Hu4 & _).
  assert (Hin4 : (Z.to_nat (AudioRingWrite (enqueue_start a3))
                  < length (AudioRing (enqueue_start a3)))%nat).
  { apply (producer_frame_range a3); [exact Hin3 |].
    apply producer_frame_enqueue_start;
      [exact Hin3 | apply producer_frame_refl]. }
  assert (Hw4 : AudioRingWrite (enqueue_start a3) = AudioRingWrite a3).
  { apply (producer_frame_enqueue_start a3 a3 Hin3 (producer_frame_refl a3)). }
  destruct (enqueue_clock_keeps b (enqueue_start a3) Hin4)
    as (_ & Hsc & Huc).
  rewrite Hw4, Hw3 in Huc.
  assert (Hwr : used_at a3 (AudioRingWrite a)
                = RingBufferUsedBytes
                    (fst (RingBufferWrite
                            (RingBuffer_ (ring_at a (AudioRingWrite a)))
                            buffer (wrap_u64 b)))).
  { unfold used_at. rewrite Hb3. reflexivity. }
  exists (enqueue_clock b (enqueue_start a3)), buffer, (wrap_u64 b),
    (Z.min (AudioSkip a3) (used_at a3 (AudioRingWrite a3))).
  split; [exact Henq |].
  rewrite Hsc, Huc, Hs4. rewrite Hw3 in Hu4, Hu3 |- *. rewrite Hu4.
  rewrite <- Hwr. rewrite Hs3 in *.
  split; [lia |]. split; [reflexivity |]. split; [reflexivity | lia].
Qed.

Lemma AudioEnqueue_consumes_skip_witness :
  exists a' buffer bytes dropped,
    AudioEnqueue [] (replicate 100 0) 200
      (set_AudioSkip 120 quick_audio) = Some a'
    /\ 0 <= dropped
    /\ AudioSkip a' = AudioSkip (set_AudioSkip 120 quick_audio) - dropped
    /\ used_at a' (AudioRingWrite (set_AudioSkip 120 quick_audio))
       = RingBufferUsedBytes
           (fst (RingBufferWrite
                   (RingBuffer_
                      (ring_at (set_AudioSkip 120 quick_audio)
                         (AudioRingWrite (set_AudioSkip 120 quick_audio))))
                   buffer bytes)) - dropped
    /\ (AudioSkip a' = 0
        \/ used_at a' (AudioRingWrite (set_AudioSkip 120 quick_audio)) = 0).
Proof.
  apply (AudioEnqueue_consumes_skip [] (replicate 100 0) 200
           (set_AudioSkip 120 quick_audio)).
  - vm_compute. lia.
  - vm_compute. discriminate.
  - right. vm_compute. repeat split; discriminate.
  - vm_compute. split; discriminate.
  - vm_compute. split; discriminate.
  - vm_compute. discriminate.
  - reflexivity.
Defined.

(** ** The channel table of [AudioInit] *)

Lemma truthy_true (x : Z) : truthy x = true -> x <> 0.
Proof.
  unfold truthy. destruct (Z.eqb_spec x 0); [discriminate | auto].
Qed.

Lemma truthy_false (x : Z) : truthy x = false -> x = 0.
Proof.
  unfold truthy. destruct (Z.eqb_spec x 0); [auto | discriminate].
Qed.

Lemma one_to_eight (chan : Z) :
  1 <= chan <= 8 ->
  chan = 1 \/ chan = 2 \/ chan = 3 \/ chan = 4 \/ chan = 5 \/ chan = 6
  \/ chan = 7 \/ chan = 8.
Proof. lia. Qed.

Ltac each_channel H :=
  destruct (one_to_eight _ H)
    as [-> | [-> | [-> | [-> | [-> | [-> | [-> | ->]]]]]]].

(** What the [switch] picks is a count the hardware plays. *)
Lemma matrix_switch_playable (hw : Z -> Z) (chan : Z) :
  1 <= chan <= 8 ->
  matrix_switch hw chan <> 0 ->
  1 <= matrix_switch hw chan <= 8 /\ hw (matrix_switch hw chan) <> 0.
Proof.
  intros Hc. each_channel Hc;
    unfold matrix_switch, matrix_case2, matrix_case4, matrix_case5,
      matrix_case6, matrix_case7, matrix_case8;
    cbn [Z.eqb Pos.eqb orb];
    split_truthy; intros Hne; try (exfalso; apply Hne; reflexivity);
    (split; [lia | apply truthy_true; assumption]).
Qed.

Lemma matrix_entry_unfold (rate_in_hw : Z) (hwl : list Z) (chan : Z) :
  matrix_entry rate_in_hw hwl chan
  = if negb (truthy rate_in_hw) then 0
    else if truthy (nth (Z.to_nat chan) hwl 0) then chan
         else matrix_switch (fun c => nth (Z.to_nat c) hwl 0) chan.
Proof. reflexivity. Qed.

Lemma matrix_entry_playable (rate_in_hw : Z) (hwl : list Z) (chan : Z) :
  1 <= chan <= 8 ->
  matrix_entry rate_in_hw hwl chan <> 0 ->
  rate_in_hw <> 0
  /\ 1 <= matrix_entry rate_in_hw hwl chan <= 8
  /\ nth (Z.to_nat (matrix_entry rate_in_hw hwl chan)) hwl 0 <> 0
  /\ (nth (Z.to_nat chan) hwl 0 <> 0
      -> matrix_entry rate_in_hw hwl chan = chan).
Proof.
  intros Hc. rewrite matrix_entry_unfold.
  destruct (truthy rate_in_hw) eqn:Hr; cbn [negb];
    [| intros H; exfalso; apply H; reflexivity].
  apply truthy_true in Hr.
  destruct (truthy (nth (Z.to_nat chan) hwl 0)) eqn:Hh.
  - intros _. apply truthy_true in Hh. auto.
  - intros Hne. apply truthy_false in Hh.
    destruct (matrix_switch_playable
                (fun c => nth (Z.to_nat c) hwl 0) chan Hc Hne) as [H1 H2].
    repeat split; try assumption; try lia.
Qed.

(** Reading the table built by [build_matrix]. *)
Lemma build_matrix_at (rates hwl : list Z) (u : nat) (chan : Z) :
  0 <= chan <= 8 ->
  nth (Z.to_nat chan) (nth u (build_matrix rates hwl) []) 0
  = if (u <? length rates)%nat && (1 <=? chan)
    then matrix_entry (nth u rates 0) hwl chan
    else 0.
Proof.
  intros Hc. unfold build_matrix.
  destruct (Nat.ltb_spec u (length rates)) as [Hu | Hu].
  - set (f := fun rate_in_hw : Z => _ :: _).
    rewrite (nth_indep (map f rates) [] (f 0))
      by (rewrite length_map; exact Hu).
    rewrite map_nth. unfold f.
    assert (H : chan = 0 \/ 1 <= chan <= 8) by lia.
    destruct H as [-> | H]; [reflexivity |].
    each_channel H; reflexivity.
  - set (f := fun rate_in_hw : Z => _ :: _).
    rewrite (nth_overflow (map f rates) [])
      by (rewrite length_map; exact Hu).
    cbn [andb]. destruct (Z.to_nat chan); reflexivity.
Qed.

Lemma build_matrix_nonzero (rates hwl : list Z) (u : nat) (chan : Z) :
  0 <= chan <= 8 ->
  nth (Z.to_nat chan) (nth u (build_matrix rates hwl) []) 0 <> 0 ->
  1 <= chan
  /\ nth u rates 0 <> 0
  /\ 1 <= nth (Z.to_nat chan) (nth u (build_matrix rates hwl) []) 0 <= 8
  /\ nth (Z.to_nat
            (nth (Z.to_nat chan) (nth u (build_matrix rates hwl) []) 0))
       hwl 0 <> 0
  /\ (nth (Z.to_nat chan) hwl 0 <> 0
      -> nth (Z.to_nat chan) (nth u (build_matrix rates hwl) []) 0 = chan).
Proof.
  intros Hc. rewrite build_matrix_at by exact Hc.
  destruct (Nat.ltb_spec u (length rates)) as [Hu | Hu]; cbn [andb];
    [| intros H; exfalso; apply H; reflexivity].
  destruct (Z.leb_spec 1 chan) as [H1 | H1];
    [| intros H; exfalso; apply H; reflexivity].
  intros Hne.
  destruct (matrix_entry_playable (nth u rates 0) hwl chan
              ltac:(lia) Hne) as (Ha & Hb & Hd & He).
  auto.
Qed.

(** X21. Every non-zero entry of the channel table [AudioInit] builds
    stands for a supported rate and is a channel count, from 1 to 8,
    that the hardware plays; an input count the hardware plays itself
    is mapped to itself; column 0 and rows of unsupported rates hold
    only zeros. *)
Theorem build_matrix_playable (rates hwl : list Z) (u : nat) (chan : Z) :
  let e := nth (Z.to_nat chan) (nth u (build_matrix rates hwl) []) 0 in
  0 <= chan <= 8 ->
  e <> 0 ->
  1 <= chan
  /\ nth u rates 0 <> 0
  /\ 1 <= e <= 8
  /\ nth (Z.to_nat e) hwl 0 <> 0
  /\ (nth (Z.to_nat chan) hwl 0 <> 0 -> e = chan).
Proof.
  intros e Hc Hne. subst e. apply build_matrix_nonzero; assumption.
Qed.

Lemma build_matrix_playable_witness :
  1 <= 7
  /\ nth 1 [0; 4] 0 <> 0
  /\ 1 <= nth (Z.to_nat 7)
            (nth 1 (build_matrix [0; 4] [0; 0; 2; 0; 0; 0; 6; 0; 0]) []) 0
       <= 8
  /\ nth (Z.to_nat
            (nth (Z.to_nat 7)
               (nth 1 (build_matrix [0; 4] [0; 0; 2; 0; 0; 0; 6; 0; 0]) [])
               0))
       [0; 0; 2; 0; 0; 0; 6; 0; 0] 0 <> 0
  /\ (nth (Z.to_nat 7) [0; 0; 2; 0; 0; 0; 6; 0; 0] 0 <> 0
      -> nth (Z.to_nat 7)
           (nth 1 (build_matrix [0; 4] [0; 0; 2; 0; 0; 0; 6; 0; 0]) []) 0
         = 7).
Proof.
  apply (build_matrix_playable [0; 4] [0; 0; 2; 0; 0; 0; 6; 0; 0] 1 7).
  - lia.
  - vm_compute. discriminate.
Defined.

(** X22. On hardware that plays stereo and nothing with more channels,
    every input channel count from 1 to 8 gets an entry at a supported
    rate, 1 for mono input the hardware plays and 2 otherwise, and the
    remixer has a real conversion for it: a copy, the mono to stereo
    doubling or the downmix, never the silence of its default case. *)
Theorem stereo_hardware_plays_all_counts (rate_in_hw : Z) (hwl : list Z)
    (chan : Z) (in_ out : samples) (frames : Z) :
  let e := matrix_entry rate_in_hw hwl chan in
  rate_in_hw <> 0 ->
  nth 2 hwl 0 <> 0 ->
  (forall c, 3 <= c <= 8 -> nth (Z.to_nat c) hwl 0 = 0) ->
  1 <= chan <= 8 ->
  e = (if (chan =? 1) && truthy (nth 1 hwl 0) then 1 else 2)
  /\ Remix.AudioResample in_ chan frames out e
     = if chan =? e
       then Some (memcpy16 out in_ (frames * chan * Remix.AudioBytesProSample))
       else if chan =? 1 then Some (Remix.AudioMono2Stereo in_ frames out)
            else Remix.AudioSurround2Stereo in_ chan frames out.
Proof.
  intros e Hr H2 Hno Hc. subst e. rewrite matrix_entry_unfold.
  assert (Tr : truthy rate_in_hw = true).
  { unfold truthy. destruct (Z.eqb_spec rate_in_hw 0);
      [contradiction | reflexivity]. }
  assert (T2 : truthy (nth 2 hwl 0) = true).
  { unfold truthy. destruct (Z.eqb_spec (nth 2 hwl 0) 0);
      [contradiction | reflexivity]. }
  assert (T3 : forall c, 3 <= c <= 8 ->
                 truthy (nth (Z.to_nat c) hwl 0) = false).
  { intros c Hc3. rewrite (Hno c Hc3). reflexivity. }
  pose proof (T3 3 ltac:(lia)) as H3. pose proof (T3 4 ltac:(lia)) as H4.
  pose proof (T3 5 ltac:(lia)) as H5. pose proof (T3 6 ltac:(lia)) as H6.
  pose proof (T3 7 ltac:(lia)) as H7. pose proof (T3 8 ltac:(lia)) as H8.
  change (Z.to_nat 3) with 3%nat in H3. change (Z.to_nat 4) with 4%nat in H4.
  change (Z.to_nat 5) with 5%nat in H5. change (Z.to_nat 6) with 6%nat in H6.
  change (Z.to_nat 7) with 7%nat in H7. change (Z.to_nat 8) with 8%nat in H8.
  rewrite Tr. cbn [negb].
  each_channel Hc;
    unfold matrix_switch, matrix_case2, matrix_case4, matrix_case5,
      matrix_case6, matrix_case7, matrix_case8;
    repeat match goal with
           | |- context [Z.to_nat (Zpos ?p)] =>
               let n := eval vm_compute in (Z.to_nat (Zpos p)) in
               change (Z.to_nat (Zpos p)) with n
           end;
    rewrite ?T2, ?H3, ?H4, ?H5, ?H6, ?H7, ?H8;
    cbn [Z.eqb Pos.eqb orb andb];
    rewrite ?T2, ?H3, ?H4, ?H5, ?H6, ?H7, ?H8;
    try (destruct (truthy (nth 1 hwl 0)));
    split; reflexivity.
Qed.

Lemma stereo_hardware_plays_all_counts_witness :
  matrix_entry 4 [0; 0; 2; 0; 0; 0; 0; 0; 0] 6 = 2
  /\ Remix.AudioResample [1; 2; 3; 4; 5; 6] 6 1 [0; 0]
       (matrix_entry 4 [0; 0; 2; 0; 0; 0; 0; 0; 0] 6)
     = Remix.AudioSurround2Stereo [1; 2; 3; 4; 5; 6] 6 1 [0; 0].
Proof.
  apply (stereo_hardware_plays_all_counts 4 [0; 0; 2; 0; 0; 0; 0; 0; 0] 6
           [1; 2; 3; 4; 5; 6] [0; 0] 1).
  - discriminate.
  - discriminate.
  - intros c Hc.
    assert (H : c = 3 \/ c = 4 \/ c = 5 \/ c = 6 \/ c = 7 \/ c = 8) by lia.
    destruct H as [-> | [-> | [-> | [-> | [-> | ->]]]]]; reflexivity.
  - lia.
Defined.

(** X23. Stereo, three- or four-channel input on hardware that does not
    play that count but plays a larger one is mapped by the table to
    the larger count, for which the remixer has no conversion: every
    byte queued for the hardware is zero. *)
Theorem more_hardware_channels_is_silence (rate_in_hw : Z) (hwl : list Z)
    (chan c : Z) (in_ out : samples) (frames b : Z) :
  let e := matrix_entry rate_in_hw hwl chan in
  rate_in_hw <> 0 ->
  2 <= chan <= 4 ->
  nth (Z.to_nat chan) hwl 0 = 0 ->
  4 <= c <= 8 -> chan < c -> nth (Z.to_nat c) hwl 0 <> 0 ->
  0 <= b < frames * e * 2 ->
  chan < e <= c
  /\ nth (Z.to_nat e) hwl 0 <> 0
  /\ exists out',
       Remix.AudioResample in_ chan frames out e = Some out'
       /\ byte_at out' b = 0.
Proof.
  intros e Hr Hc Hown Hc4 Hlt Hhw. subst e. rewrite matrix_entry_unfold.
  assert (Tr : truthy rate_in_hw = true).
  { unfold truthy. destruct (Z.eqb_spec rate_in_hw 0);
      [contradiction | reflexivity]. }
  assert (To : truthy (nth (Z.to_nat chan) hwl 0) = false).
  { rewrite Hown. reflexivity. }
  rewrite Tr, To. cbn [negb].
  set (hw := fun c0 : Z => nth (Z.to_nat c0) hwl 0).
  assert (Hsw : chan < matrix_switch hw chan <= c
                /\ hw (matrix_switch hw chan) <> 0).
  { assert (Tc : truthy (hw c) = true).
    { unfold truthy, hw. destruct (Z.eqb_spec (nth (Z.to_nat c) hwl 0) 0);
        [contradiction | reflexivity]. }
    assert (Hcc : c = 4 \/ c = 5 \/ c = 6 \/ c = 7 \/ c = 8) by lia.
    assert (Hch : chan = 2 \/ chan = 3 \/ chan = 4) by lia.
    destruct Hch as [-> | [-> | ->]];
      destruct Hcc as [-> | [-> | [-> | [-> | ->]]]]; try lia;
      unfold matrix_switch, matrix_case2, matrix_case4, matrix_case5,
        matrix_case6, matrix_case7, matrix_case8;
      cbn [Z.eqb Pos.eqb orb];
      split_truthy; try discriminate;
      (split; [lia | apply truthy_true; assumption]). }
  destruct Hsw as [Hrange Hplay].
  set (e := matrix_switch hw chan) in *.
  intros Hb. split; [exact Hrange |]. split; [exact Hplay |].
  unfold Remix.AudioResample. cbv zeta.
  repeat match goal with
         | |- context [?x =? ?y] =>
             destruct (Z.eqb_spec x y); [exfalso; lia |]
         end.
  cbn [orb]. eexists. split; [reflexivity |].
  apply memset0_byte. unfold Remix.AudioBytesProSample. exact Hb.
Qed.

Lemma more_hardware_channels_is_silence_witness :
  2 < matrix_entry 4 [0; 0; 0; 0; 0; 0; 6; 0; 0] 2 <= 6
  /\ nth (Z.to_nat (matrix_entry 4 [0; 0; 0; 0; 0; 0; 6; 0; 0] 2))
       [0; 0; 0; 0; 0; 0; 6; 0; 0] 0 <> 0
  /\ exists out',
       Remix.AudioResample [100; 200] 2 1 (replicate 6 7)
         (matrix_entry 4 [0; 0; 0; 0; 0; 0; 6; 0; 0] 2) = Some out'
       /\ byte_at out' 11 = 0.
Proof.
  apply (more_hardware_channels_is_silence 4 [0; 0; 0; 0; 0; 0; 6; 0; 0]
           2 6 [100; 200] (replicate 6 7) 1 11).
  - discriminate.
  - lia.
  - reflexivity.
  - lia.
  - lia.
  - discriminate.
  - vm_compute. split; [discriminate | reflexivity].
Defined.

(** Reading the table in range, and past the end of a row. *)
Lemma matrix_at_entry (a : Audio) (u channels : Z) :
  0 <= u < AudioRatesMax -> 0 <= channels <= 8 ->
  matrix_at a u channels
  = nth (Z.to_nat channels)
      (nth (Z.to_nat u) (AudioChannelMatrix (config a)) []) 0.
Proof.
  intros Hu Hc. unfold matrix_at, AudioRatesMax in *. cbv zeta.
  destruct (Z.leb_spec 0 (u * 9 + channels)); [| lia].
  destruct (Z.ltb_spec (u * 9 + channels) (2 * 9)); [| lia].
  cbn [andb].
  assert (Hm : (u * 9 + channels) mod 9 = channels).
  { rewrite Z.add_comm, Z.mod_add by lia. apply Z.mod_small. lia. }
  assert (Hd : (u * 9 + channels) / 9 = u).
  { rewrite Z.add_comm, Z.div_add by lia.
    rewrite Z.div_small by lia. reflexivity. }
  rewrite Hm, Hd. reflexivity.
Qed.

Lemma matrix_at_other_row (a : Audio) (u channels : Z) :
  0 <= u < AudioRatesMax ->
  0 <= u * 9 + channels < AudioRatesMax * 9 ->
  matrix_at a u channels
  = nth (Z.to_nat ((u * 9 + channels) mod 9))
      (nth (Z.to_nat ((u * 9 + channels) / 9))
         (AudioChannelMatrix (config a)) []) 0.
Proof.
  intros Hu Hk. unfold matrix_at. cbv zeta.
  destruct (Z.leb_spec 0 (u * 9 + channels)); [| lia].
  destruct (Z.ltb_spec (u * 9 + channels) (AudioRatesMax * 9)); [| lia].
  reflexivity.
Qed.

Lemma search_rate_bounds (sample_rate : Z) :
  search_rate AudioRatesTable 0 sample_rate <> AudioRatesMax ->
  0 <= search_rate AudioRatesTable 0 sample_rate < AudioRatesMax.
Proof.
  rewrite search_rate_table. unfold AudioRatesMax.
  destruct (44100 =? sample_rate); [lia |].
  destruct (48000 =? sample_rate); lia.
Qed.

(** X24. With the channel table [AudioInit] builds, every segment a
    successful [AudioRingAdd] hands out plays on the hardware: for a
    request of 0 to 8 channels the input count is at least 1 and is
    stored as it is, the hardware count lies between 1 and 8, is one
    the hardware plays, and is the input count itself whenever the
    hardware plays that. *)
Theorem AudioRingAdd_segment_is_playable (rates hwl : list Z)
    (sample_rate channels use_ac3 : Z) (a : Audio) :
  let a' := snd (AudioRingAdd sample_rate channels use_ac3 a) in
  let r := ring_at a' (AudioRingWrite a') in
  ring_ok a ->
  AudioChannelMatrix (config a) = build_matrix rates hwl ->
  0 <= channels <= 8 ->
  fst (AudioRingAdd sample_rate channels use_ac3 a) = 0 ->
  1 <= channels
  /\ InChannels r = channels
  /\ 1 <= HwChannels r <= 8
  /\ nth (Z.to_nat (HwChannels r)) hwl 0 <> 0
  /\ (nth (Z.to_nat channels) hwl 0 <> 0 -> HwChannels r = channels)
  /\ channels_ok r.
Proof.
  intros a' r (Hlen & Hw & Hr) Hm Hc Hret. subst r a'.
  destruct (next_index_bounds (AudioRingWrite a) ltac:(lia)) as [Hb He].
  unfold AudioRingAdd in *.
  destruct (Z.eqb_spec (search_rate AudioRatesTable 0 sample_rate)
              AudioRatesMax) as [| Hu]; [discriminate Hret |].
  apply search_rate_bounds in Hu.
  destruct (truthy (matrix_at a _ channels)) eqn:Hentry;
    [| discriminate Hret].
  cbn [negb] in *.
  destruct (AudioRingFilled a =? AUDIO_RING_MAX); [discriminate Hret |].
  cbv zeta. cbn [snd].
  set (w' := Z.rem (AudioRingWrite a + 1) AUDIO_RING_MAX) in *.
  set (u := search_rate AudioRatesTable 0 sample_rate) in *.
  assert (Hin : (Z.to_nat w' < length (AudioRing a))%nat)
    by (rewrite Hlen; unfold AUDIO_RING_MAX in *; lia).
  match goal with
  | |- context [ring_at ?s (AudioRingWrite ?s)] =>
      assert (Hslot : ring_at s (AudioRingWrite s)
                      = mkAudioRingRing true (wrap_s8 use_ac3) 0 sample_rate
                          (wrap_u32 (matrix_at a u channels)) sample_rate
                          (wrap_u32 channels) PTS_SENTINEL
                          (RingBufferReset
                             (RingBuffer_
                                (ring_at (set_AudioRingWrite w' a) w'))))
  end.
  { destruct (AudioThread _); unfold ring_at, set_ring_at; simpl;
      rewrite nth_lookup, list_lookup_insert_eq by exact Hin; reflexivity. }
  rewrite Hslot. cbn [InChannels HwChannels].
  apply truthy_true in Hentry.
  rewrite (matrix_at_entry a u channels Hu Hc) in *. rewrite Hm in *.
  destruct (build_matrix_nonzero rates hwl (Z.to_nat u) channels Hc Hentry)
    as (H1 & _ & H8 & Hplay & Hown).
  set (e := nth (Z.to_nat channels)
              (nth (Z.to_nat u) (build_matrix rates hwl) []) 0) in *.
  rewrite !wrap_u32_small by (change (2 ^ 32) with 4294967296; lia).
  repeat split; try assumption; try lia.
  right. cbn [InChannels HwChannels]. lia.
Qed.

Lemma AudioRingAdd_segment_is_playable_witness :
  let a' := snd (AudioRingAdd 48000 6 0 init_audio) in
  let r := ring_at a' (AudioRingWrite a') in
  1 <= 6
  /\ InChannels r = 6
  /\ 1 <= HwChannels r <= 8
  /\ nth (Z.to_nat (HwChannels r)) [0; 0; 2; 0; 0; 0; 0; 0; 0] 0 <> 0
  /\ (nth (Z.to_nat 6) [0; 0; 2; 0; 0; 0; 0; 0; 0] 0 <> 0
      -> HwChannels r = 6)
  /\ channels_ok r.
Proof.
  apply (AudioRingAdd_segment_is_playable [4; 4]
           [0; 0; 2; 0; 0; 0; 0; 0; 0] 48000 6 0 init_audio).
  - vm_compute. repeat split; discriminate.
  - reflexivity.
  - lia.
  - reflexivity.
Defined.

(** ** The flush scan of the playback thread *)

Lemma flush_scan_step (fuel : nat) (filled read : Z) (flush : bool)
    (a : Audio) :
  filled <> 0 ->
  flush_scan (S fuel) filled read flush a
  = if FlushBuffers (ring_at a (slot_after read 1))
    then flush_scan fuel (filled - 1) (slot_after read 1) true
           (scan_hit (slot_after read 1) (filled - 1) a)
    else flush_scan fuel (filled - 1) (slot_after read 1) flush a.
Proof.
  intros H. cbn [flush_scan].
  assert (Ht : truthy filled = true).
  { unfold truthy. destruct (Z.eqb_spec filled 0);
      [contradiction | reflexivity]. }
  rewrite Ht. reflexivity.
Qed.

Lemma slot_after_step (read j : Z) :
  0 <= read -> 0 <= j ->
  slot_after (slot_after read 1) j = slot_after read (j + 1).
Proof.
  intros Hr Hj. unfold slot_after, AUDIO_RING_MAX.
  rewrite (Z.rem_mod_nonneg (read + 1) 8) by lia.
  pose proof (Z.mod_pos_bound (read + 1) 8 ltac:(lia)) as Hm.
  rewrite (Z.rem_mod_nonneg ((read + 1) mod 8 + j) 8) by lia.
  rewrite (Z.rem_mod_nonneg (read + (j + 1)) 8) by lia.
  rewrite Z.add_mod_idemp_l by lia. f_equal. lia.
Qed.

Lemma slot_after_bounds (read j : Z) :
  0 <= read -> 0 <= j -> 0 <= slot_after read j < AUDIO_RING_MAX.
Proof.
  intros Hr Hj. unfold slot_after, AUDIO_RING_MAX.
  apply Z.rem_bound_pos; lia.
Qed.

Lemma slot_after_distinct (read j : Z) :
  0 <= read -> 1 <= j < AUDIO_RING_MAX ->
  slot_after (slot_after read 1) j <> slot_after read 1.
Proof.
  intros Hr Hj. rewrite slot_after_step by lia.
  unfold slot_after, AUDIO_RING_MAX in *.
  rewrite !Z.rem_mod_nonneg by lia.
  intros Heq.
  assert (H : (read + (j + 1) - (read + 1)) mod 8 = 0).
  { rewrite Zminus_mod, Heq, Z.sub_diag. reflexivity. }
  replace (read + (j + 1) - (read + 1)) with j in H by lia.
  rewrite Z.mod_small in H by lia. lia.
Qed.

(** What [scan_hit] changes in the segments. *)
Lemma scan_hit_slots (read filled : Z) (a : Audio) (i : Z) :
  slot_data (ring_at (scan_hit read filled a) i) = slot_data (ring_at a i)
  /\ (FlushBuffers (ring_at (scan_hit read filled a) i) = true
      -> FlushBuffers (ring_at a i) = true)
  /\ (Z.to_nat i <> Z.to_nat read
      -> ring_at (scan_hit read filled a) i = ring_at a i)
  /\ ((Z.to_nat read < length (AudioRing a))%nat
      -> FlushBuffers (ring_at (scan_hit read filled a) read) = false).
Proof.
  unfold scan_hit, ring_at, set_ring_at.
  cbn [AudioRing set_AudioRingFilled set_AudioRingRead set_AudioRing].
  rewrite !nth_lookup.
  assert (Hread : (Z.to_nat read < length (AudioRing a))%nat ->
                  FlushBuffers
                    (default zero_ring
                       (<[Z.to_nat read :=
                            mkAudioRingRing false
                              (UseAc3 (default zero_ring
                                         (AudioRing a !! Z.to_nat read)))
                              (PacketSize (default zero_ring
                                             (AudioRing a !! Z.to_nat read)))
                              (HwSampleRate (default zero_ring
                                               (AudioRing a !! Z.to_nat read)))
                              (HwChannels (default zero_ring
                                             (AudioRing a !! Z.to_nat read)))
                              (InSampleRate (default zero_ring
                                               (AudioRing a !! Z.to_nat read)))
                              (InChannels (default zero_ring
                                             (AudioRing a !! Z.to_nat read)))
                              (PTS (default zero_ring
                                      (AudioRing a !! Z.to_nat read)))
                              (RingBuffer_ (default zero_ring
                                              (AudioRing a !! Z.to_nat read)))]>
                          (AudioRing a) !! Z.to_nat read)) = false).
  { intros Hin. rewrite list_lookup_insert_eq by exact Hin. reflexivity. }
  destruct (Nat.eq_dec (Z.to_nat i) (Z.to_nat read)) as [He | Hne].
  - rewrite He.
    destruct (Nat.lt_ge_cases (Z.to_nat read) (length (AudioRing a)))
      as [Hin | Hout].
    + rewrite list_lookup_insert_eq by exact Hin.
      cbn [default from_option id]. unfold slot_data.
      cbn [FlushBuffers UseAc3 PacketSize HwSampleRate HwChannels
           InSampleRate InChannels PTS RingBuffer_].
      repeat split; try discriminate; try contradiction; auto.
    + rewrite list_insert_ge by exact Hout.
      repeat split; try contradiction; auto. intros Hin. lia.
  - rewrite list_lookup_insert_ne by auto.
    repeat split; auto.
Qed.

Lemma scan_hit_length (read filled : Z) (a : Audio) :
  length (AudioRing (scan_hit read filled a)) = length (AudioRing a).
Proof.
  unfold scan_hit, set_ring_at.
  cbn [AudioRing set_AudioRingFilled set_AudioRingRead set_AudioRing].
  apply length_insert.
Qed.

(** The scan only clears flush flags and moves the read index and the
    count of queued segments. *)
Lemma flush_scan_frame (fuel : nat) :
  forall (filled read : Z) (flush : bool) (a : Audio),
    let a' := snd (flush_scan fuel filled read flush a) in
    length (AudioRing a') = length (AudioRing a)
    /\ AudioRingWrite a' = AudioRingWrite a
    /\ AudioRunning a' = AudioRunning a
    /\ (forall i, slot_data (ring_at a' i) = slot_data (ring_at a i))
    /\ (forall i, FlushBuffers (ring_at a' i) = true
                  -> FlushBuffers (ring_at a i) = true).
Proof.
  induction fuel as [| fuel IH]; intros filled read flush a; cbv zeta.
  - cbn [flush_scan snd]. auto.
  - destruct (Z.eq_dec filled 0) as [-> | Hf].
    + cbn [flush_scan truthy Z.eqb negb snd]. auto.
    + rewrite flush_scan_step by exact Hf.
      destruct (FlushBuffers (ring_at a (slot_after read 1))).
      * specialize (IH (filled - 1) (slot_after read 1) true
                      (scan_hit (slot_after read 1) (filled - 1) a)).
        cbv zeta in IH. destruct IH as (H1 & H2 & H3 & H4 & H5).
        rewrite H1, H2, H3, scan_hit_length.
        repeat split.
        -- intros i. rewrite H4. apply scan_hit_slots.
        -- intros i Hi. apply H5 in Hi.
           apply (scan_hit_slots (slot_after read 1) (filled - 1) a i).
           exact Hi.
      * apply IH.
Qed.

Lemma flush_scan_none (fuel : nat) :
  forall (filled read : Z) (flush : bool) (a : Audio),
    0 <= filled -> 0 <= read ->
    (forall j, 1 <= j <= filled ->
       FlushBuffers (ring_at a (slot_after read j)) = false) ->
    flush_scan fuel filled read flush a = (flush, a).
Proof.
  induction fuel as [| fuel IH]; intros filled read flush a Hf Hr Hno;
    [reflexivity |].
  destruct (Z.eq_dec filled 0) as [-> | Hne]; [reflexivity |].
  rewrite flush_scan_step by exact Hne.
  rewrite (Hno 1) by lia.
  apply IH; [lia | apply slot_after_bounds; lia |].
  intros j Hj. rewrite slot_after_step by lia. apply Hno. lia.
Qed.

Lemma not_true_false (b : bool) : (b = true -> False) -> b = false.
Proof. destruct b; [intros H; exfalso; auto | reflexivity]. Qed.

Lemma flush_scan_last (fuel : nat) :
  forall (filled read : Z) (flush : bool) (a : Audio) (k : Z),
    length (AudioRing a) = Z.to_nat AUDIO_RING_MAX ->
    0 <= read ->
    0 <= filled <= AUDIO_RING_MAX -> (Z.to_nat filled <= fuel)%nat ->
    1 <= k <= filled ->
    FlushBuffers (ring_at a (slot_after read k)) = true ->
    (forall j, k < j <= filled ->
       FlushBuffers (ring_at a (slot_after read j)) = false) ->
    let res := flush_scan fuel filled read flush a in
    fst res = true
    /\ AudioRingRead (snd res) = slot_after read k
    /\ AudioRingFilled (snd res) = filled - k
    /\ (forall j, 1 <= j <= filled ->
          FlushBuffers (ring_at (snd res) (slot_after read j)) = false).
Proof.
  induction fuel as [| fuel IH];
    intros filled read flush a k Hlen Hr Hf Hfuel Hk Hat Hno; cbv zeta;
    [lia |].
  rewrite flush_scan_step by lia.
  pose proof (slot_after_bounds read 1 Hr ltac:(lia)) as Hb.
  set (read' := slot_after read 1) in *.
  assert (Hin : (Z.to_nat read' < length (AudioRing a))%nat) by lia.
  destruct (Z.eq_dec k 1) as [-> | Hk1].
  - (* the last marker is the next segment *)
    fold read' in Hat. rewrite Hat.
    set (a3 := scan_hit read' (filled - 1) a).
    assert (Hclean : forall j, 1 <= j <= filled ->
                       FlushBuffers (ring_at a3 (slot_after read j)) = false).
    { intros j Hj. destruct (Z.eq_dec j 1) as [-> | Hj1].
      - apply (scan_hit_slots read' (filled - 1) a read'). exact Hin.
      - apply not_true_false. intros Habs.
        apply (scan_hit_slots read' (filled - 1) a (slot_after read j))
          in Habs.
        rewrite Hno in Habs by lia. discriminate. }
    rewrite (flush_scan_none fuel (filled - 1) read' true a3);
      [| lia | lia |].
    + cbn [fst snd]. repeat split; exact Hclean.
    + intros j Hj. unfold read'. rewrite slot_after_step by lia.
      apply Hclean. lia.
  - assert (Hstep : slot_after read' (k - 1) = slot_after read k).
    { unfold read'. rewrite slot_after_step by lia. f_equal. lia. }
    assert (Hfinal :
              forall (fl : bool) (b : Audio),
                length (AudioRing b) = Z.to_nat AUDIO_RING_MAX ->
                FlushBuffers (ring_at b read') = false ->
                FlushBuffers (ring_at b (slot_after read k)) = true ->
                (forall i, FlushBuffers (ring_at b i) = true
                           -> FlushBuffers (ring_at a i) = true) ->
                let res := flush_scan fuel (filled - 1) read' fl b in
                fst res = true
                /\ AudioRingRead (snd res) = slot_after read k
                /\ AudioRingFilled (snd res) = filled - k
                /\ (forall j, 1 <= j <= filled ->
                      FlushBuffers (ring_at (snd res) (slot_after read j))
                      = false)).
    { intros fl b Hlenb Hoff Hon Hsub. cbv zeta.
      destruct (IH (filled - 1) read' fl b (k - 1) Hlenb ltac:(lia)
                  ltac:(lia) ltac:(lia) ltac:(lia)) as (R1 & R2 & R3 & R4).
      - rewrite Hstep. exact Hon.
      - intros j Hj. unfold read'. rewrite slot_after_step by lia.
        apply not_true_false. intros Habs. apply Hsub in Habs.
        rewrite Hno in Habs by lia. discriminate.
      - split; [exact R1 |]. split; [rewrite R2; exact Hstep |].
        split; [lia |].
        intros j Hj. destruct (Z.eq_dec j 1) as [-> | Hj1].
        + fold read'. apply not_true_false. intros Habs.
          apply (flush_scan_frame fuel (filled - 1) read' fl b) in Habs.
          rewrite Hoff in Habs. discriminate.
        + replace j with ((j - 1) + 1) by lia.
          rewrite <- slot_after_step by lia. apply R4. lia. }
    destruct (FlushBuffers (ring_at a read')) eqn:Hflag.
    + apply Hfinal.
      * rewrite scan_hit_length. exact Hlen.
      * apply (scan_hit_slots read' (filled - 1) a read'). exact Hin.
      * assert (Hd : slot_after read k <> read').
        { rewrite <- Hstep. unfold read'. apply slot_after_distinct; lia. }
        pose proof (slot_after_bounds read k Hr ltac:(lia)) as Hbk.
        destruct (scan_hit_slots read' (filled - 1) a (slot_after read k))
          as (_ & _ & Hsame & _).
        rewrite Hsame by lia. exact Hat.
      * intros i. apply scan_hit_slots.
    + apply Hfinal; auto.
Qed.

(** X25. The playback thread's scan of the queued segments stops at
    the last one marked for flushing: it reports a flush, makes that
    segment the one being played, leaves queued only the segments
    behind it, and clears every mark in the queue; nothing else of the
    segments, and neither the write index nor the running flag, is
    changed. *)
Theorem thread_flush_scan_last_marker (a : Audio) (k : Z) :
  let res := thread_flush_scan a in
  ring_ok a ->
  0 <= AudioRingFilled a <= AUDIO_RING_MAX ->
  1 <= k <= AudioRingFilled a ->
  FlushBuffers (ring_at a (slot_after (AudioRingRead a) k)) = true ->
  (forall j, k < j <= AudioRingFilled a ->
     FlushBuffers (ring_at a (slot_after (AudioRingRead a) j)) = false) ->
  fst res = true
  /\ AudioRingRead (snd res) = slot_after (AudioRingRead a) k
  /\ AudioRingFilled (snd res) = AudioRingFilled a - k
  /\ (forall j, 1 <= j <= AudioRingFilled a ->
        FlushBuffers (ring_at (snd res) (slot_after (AudioRingRead a) j))
        = false)
  /\ (forall i, slot_data (ring_at (snd res) i) = slot_data (ring_at a i))
  /\ AudioRingWrite (snd res) = AudioRingWrite a
  /\ AudioRunning (snd res) = AudioRunning a.
Proof.
  intros res (Hlen & Hw & Hr) Hf Hk Hat Hno. subst res.
  unfold thread_flush_scan.
  destruct (flush_scan_last (Z.to_nat (AudioRingFilled a))
              (AudioRingFilled a) (AudioRingRead a) false a k Hlen
              ltac:(lia) Hf ltac:(lia) Hk Hat Hno) as (R1 & R2 & R3 & R4).
  destruct (flush_scan_frame (Z.to_nat (AudioRingFilled a))
              (AudioRingFilled a) (AudioRingRead a) false a)
    as (_ & F2 & F3 & F4 & _).
  auto 10.
Qed.

(** X26. When no queued segment is marked for flushing the scan
    reports nothing and changes nothing. *)
Theorem thread_flush_scan_without_marker (a : Audio) :
  0 <= AudioRingFilled a -> 0 <= AudioRingRead a ->
  (forall j, 1 <= j <= AudioRingFilled a ->
     FlushBuffers (ring_at a (slot_after (AudioRingRead a) j)) = false) ->
  thread_flush_scan a = (false, a).
Proof.
  intros Hf Hr Hno. unfold thread_flush_scan.
  apply flush_scan_none; assumption.
Qed.

Lemma thread_flush_scan_last_marker_witness :
  let a := snd (AudioRingAdd 48000 2 0 init_audio) in
  let res := thread_flush_scan a in
  fst res = true
  /\ AudioRingRead (snd res) = slot_after (AudioRingRead a) 1
  /\ AudioRingFilled (snd res) = AudioRingFilled a - 1
  /\ (forall j, 1 <= j <= AudioRingFilled a ->
        FlushBuffers (ring_at (snd res) (slot_after (AudioRingRead a) j))
        = false)
  /\ (forall i, slot_data (ring_at (snd res) i) = slot_data (ring_at a i))
  /\ AudioRingWrite (snd res) = AudioRingWrite a
  /\ AudioRunning (snd res) = AudioRunning a.
Proof.
  apply (thread_flush_scan_last_marker
           (snd (AudioRingAdd 48000 2 0 init_audio)) 1).
  - vm_compute. repeat split; discriminate.
  - vm_compute. split; discriminate.
  - vm_compute. split; discriminate.
  - reflexivity.
  - intros j Hj. change (AudioRingFilled
                           (snd (AudioRingAdd 48000 2 0 init_audio)))
      with 1 in Hj. lia.
Defined.

Lemma thread_flush_scan_without_marker_witness :
  thread_flush_scan (set_AudioRingFilled 1 init_audio)
  = (false, set_AudioRingFilled 1 init_audio).
Proof.
  apply (thread_flush_scan_without_marker (set_AudioRingFilled 1 init_audio)).
  - simpl. lia.
  - simpl. lia.
  - intros j Hj. change (AudioRingFilled (set_AudioRingFilled 1 init_audio))
      with 1 in Hj.
    assert (Hj1 : j = 1) by lia. subst j. reflexivity.
Defined.

Lemma AudioRingAdd_success_state (sample_rate channels use_ac3 : Z)
    (a : Audio) :
  let a1 := snd (AudioRingAdd sample_rate channels use_ac3 a) in
  ring_ok a ->
  fst (AudioRingAdd sample_rate channels use_ac3 a) = 0 ->
  length (AudioRing a1) = Z.to_nat AUDIO_RING_MAX
  /\ AudioRingRead a1 = AudioRingRead a
  /\ AudioRingFilled a1 = AudioRingFilled a + 1
  /\ AudioRingWrite a1 = slot_after (AudioRingWrite a) 1
  /\ FlushBuffers (ring_at a1 (AudioRingWrite a1)) = true
  /\ AudioRingFilled a <> AUDIO_RING_MAX.
Proof.
  intros a1 (Hlen & Hw & Hr) Hret. subst a1.
  pose proof (slot_after_bounds (AudioRingWrite a) 1 ltac:(lia) ltac:(lia))
    as Hb.
  unfold AudioRingAdd in *.
  destruct (_ =? AudioRatesMax); [discriminate Hret |].
  destruct (negb (truthy (matrix_at a _ channels))); [discriminate Hret |].
  destruct (Z.eqb_spec (AudioRingFilled a) AUDIO_RING_MAX) as [| Hfull];
    [discriminate Hret |].
  cbv zeta. cbn [snd].
  change (Z.rem (AudioRingWrite a + 1) AUDIO_RING_MAX)
    with (slot_after (AudioRingWrite a) 1).
  set (w' := slot_after (AudioRingWrite a) 1) in *.
  assert (Hin : (Z.to_nat w' < length (AudioRing a))%nat) by lia.
  destruct (AudioThread _); unfold ring_at, set_ring_at;
    cbn [AudioRing AudioRingWrite AudioRingRead AudioRingFilled
         set_AudioRunning set_AudioRingFilled set_AudioRing
         set_AudioRingWrite config];
    rewrite !nth_lookup, list_lookup_insert_eq by exact Hin;
    rewrite length_insert; auto 10.
Qed.

(** X27. Every segment [AudioRingAdd] sets up carries a flush mark, so
    with the write index where the queue ends the next scan of the
    playback thread reports a flush, jumps to the new segment and
    leaves nothing queued: whatever was queued before the new segment
    is skipped. *)
Theorem AudioRingAdd_flushes_queue (sample_rate channels use_ac3 : Z)
    (a : Audio) :
  let a1 := snd (AudioRingAdd sample_rate channels use_ac3 a) in
  let res := thread_flush_scan a1 in
  ring_ok a ->
  0 <= AudioRingFilled a <= AUDIO_RING_MAX ->
  AudioRingWrite a = slot_after (AudioRingRead a) (AudioRingFilled a) ->
  fst (AudioRingAdd sample_rate channels use_ac3 a) = 0 ->
  fst res = true
  /\ AudioRingRead (snd res) = AudioRingWrite a1
  /\ AudioRingFilled (snd res) = 0
  /\ FlushBuffers (ring_at (snd res) (AudioRingWrite a1)) = false.
Proof.
  intros a1 res Hok Hf Hqueue Hret. subst res.
  destruct (AudioRingAdd_success_state sample_rate channels use_ac3 a
              Hok Hret) as (Hlen & Hread & Hfilled & Hwrite & Hflag & Hfull).
  fold a1 in Hlen, Hread, Hfilled, Hwrite, Hflag.
  destruct Hok as (_ & Hw & Hr).
  assert (Hslot : AudioRingWrite a1
                  = slot_after (AudioRingRead a1) (AudioRingFilled a1)).
  { rewrite Hwrite, Hqueue, Hread, Hfilled.
    unfold slot_after, AUDIO_RING_MAX.
    rewrite (Z.rem_mod_nonneg (AudioRingRead a + AudioRingFilled a) 8)
      by lia.
    pose proof (Z.mod_pos_bound (AudioRingRead a + AudioRingFilled a) 8
                  ltac:(lia)) as Hm.
    rewrite !Z.rem_mod_nonneg by lia.
    rewrite Z.add_mod_idemp_l by lia. f_equal. lia. }
  unfold thread_flush_scan.
  destruct (flush_scan_last (Z.to_nat (AudioRingFilled a1))
              (AudioRingFilled a1) (AudioRingRead a1) false a1
              (AudioRingFilled a1) Hlen ltac:(lia) ltac:(lia)
              ltac:(lia) ltac:(lia)) as (R1 & R2 & R3 & R4).
  - rewrite <- Hslot. exact Hflag.
  - intros j Hj. lia.
  - rewrite Hslot. split; [exact R1 |]. split; [exact R2 |].
    split; [lia |]. apply R4. lia.
Qed.

Lemma AudioRingAdd_flushes_queue_witness :
  let a1 := snd (AudioRingAdd 48000 2 0
                   (snd (AudioRingAdd 44100 2 0 init_audio))) in
  let res := thread_flush_scan a1 in
  fst res = true
  /\ AudioRingRead (snd res) = AudioRingWrite a1
  /\ AudioRingFilled (snd res) = 0
  /\ FlushBuffers (ring_at (snd res) (AudioRingWrite a1)) = false.
Proof.
  apply (AudioRingAdd_flushes_queue 48000 2 0
           (snd (AudioRingAdd 44100 2 0 init_audio))).
  - vm_compute. repeat split; discriminate.
  - vm_compute. split; discriminate.
  - reflexivity.
  - reflexivity.
Defined.

(** ** Volume *)

Lemma memset0_sample (p : samples) (count i : Z) :
  0 <= i < count / 2 -> rd (memset0 p count) i = 0.
Proof.
  intros Hi. unfold memset0.
  set (whole := c_for _ _ _ _ _ p).
  assert (Hwhole : rd whole i = 0).
  { unfold whole.
    change (fun (i0 : Z) (q : samples) => wr q i0 0)
      with (fun (i0 : Z) (q : samples) =>
              wr q i0 ((fun _ : Z => 0) (rd q i0))).
    rewrite c_for_pointwise by lia.
    destruct ((0 <=? i) && (i <? count / 2) && (i <? Z.of_nat (length p)))
      eqn:E; [reflexivity |].
    destruct (Z.leb_spec 0 i); [| lia].
    destruct (Z.ltb_spec i (count / 2)); [| lia].
    destruct (Z.ltb_spec i (Z.of_nat (length p))); [discriminate E |].
    unfold rd. destruct (i <? 0); [reflexivity |].
    apply nth_overflow. lia. }
  destruct (Z.odd count && (0 <? count)); [| exact Hwhole].
  rewrite rd_wr_ne by lia. exact Hwhole.
Qed.

Lemma scaled_down (x amp : Z) :
  is_int16 x -> 0 <= amp <= 1000 ->
  Filter.clamp16 (Z.quot (wrap_s32 (x * amp)) 1000) = Z.quot (x * amp) 1000
  /\ Z.abs (Z.quot (x * amp) 1000) <= Z.abs x.
Proof.
  intros Hx Ha. unfold is_int16, INT16_MIN, INT16_MAX in Hx.
  assert (Hq : Z.abs (Z.quot (x * amp) 1000) <= Z.abs x).
  { rewrite <- (Z.quot_abs (x * amp) 1000) by lia.
    rewrite Z.abs_mul, (Z.abs_eq amp), (Z.abs_eq 1000) by lia.
    rewrite Z.quot_div_nonneg by lia.
    apply Z.div_le_upper_bound; [lia |]. nia. }
  assert (Hsign : x <= 0 -> Z.quot (x * amp) 1000 <= 0).
  { intros Hneg. assert (Hp : x * amp <= 0) by nia. revert Hp.
    generalize (x * amp). intros y Hy.
    Z.to_euclidean_division_equations. lia. }
  split; [| exact Hq].
  rewrite wrap_s32_small
    by (unfold is_int32, INT32_MIN, INT32_MAX; nia).
  unfold Filter.clamp16, INT16_MIN, INT16_MAX.
  destruct (Z.ltb_spec (Z.quot (x * amp) 1000) (-32768)); [lia |].
  destruct (Z.gtb_spec (Z.quot (x * amp) 1000) 32767); [lia |].
  reflexivity.
Qed.

(** X28. For a volume in its range from 0 to 1000 [AudioSetVolume]
    mutes exactly at volume 0 and leaves an amplifier between 0 and
    1000, also after the stereo descent; with these globals
    [AudioSoftAmplifier] never makes a sample louder: volume 0 gives
    silence, and otherwise each sample becomes
    [sample * amplifier / 1000], which never clips. *)
Theorem soft_volume_never_amplifies (volume : Z) (m : Mixer) (a : Audio)
    (p : samples) (count i : Z) :
  let c := config (snd (fst (AudioSetVolume volume m a))) in
  let out := Filter.AudioSoftAmplifier (AudioMute c) (AudioAmplifier c)
               p count in
  0 <= volume <= 1000 ->
  is_int16 (rd p i) ->
  0 <= i < count / 2 -> (Z.to_nat i < length p)%nat ->
  AudioMute c = (volume =? 0)
  /\ 0 <= AudioAmplifier c <= 1000
  /\ rd out i = (if volume =? 0 then 0
                 else Z.quot (rd p i * AudioAmplifier c) 1000)
  /\ Z.abs (rd out i) <= Z.abs (rd p i).
Proof.
  intros c out Hv Hx Hi Hlen. subst out c. unfold AudioSetVolume.
  cbn [fst snd config set_config with_volume AudioMute AudioAmplifier].
  match goal with
  | |- context [if ?b then ?t else volume] =>
      set (amp := if b then t else volume)
  end.
  assert (Hamp : 0 <= amp <= 1000).
  { unfold amp. destruct (_ && _); [| lia].
    destruct (Z.ltb_spec (wrap_s32 (volume - AudioStereoDescent m)) 0);
      [lia |].
    destruct (Z.gtb_spec (wrap_s32 (volume - AudioStereoDescent m)) 1000);
      lia. }
  clearbody amp.
  assert (Hmute : negb (truthy volume) = (volume =? 0)).
  { unfold truthy. apply negb_involutive. }
  split; [exact Hmute |]. split; [exact Hamp |].
  destruct (scaled_down (rd p i) amp Hx Hamp) as [Hclamp Habs].
  unfold Filter.AudioSoftAmplifier. rewrite Hmute.
  destruct (volume =? 0); cbn [orb].
  - rewrite memset0_sample by exact Hi.
    split; [reflexivity | apply Z.abs_nonneg].
  - destruct (truthy amp) eqn:Ht; cbn [negb].
    + rewrite scale_buffer_sample by assumption. rewrite Hclamp.
      split; [reflexivity | exact Habs].
    + apply truthy_false in Ht. subst amp.
      rewrite memset0_sample by exact Hi. rewrite Z.mul_0_r.
      split; [reflexivity | apply Z.abs_nonneg].
Qed.

Lemma soft_volume_never_amplifies_witness :
  let c := config (snd (fst (AudioSetVolume 500 (mkMixer 1000 100)
                               init_audio))) in
  let out := Filter.AudioSoftAmplifier (AudioMute c) (AudioAmplifier c)
               [100; -20000; 30000; 5] 8 in
  AudioMute c = (500 =? 0)
  /\ 0 <= AudioAmplifier c <= 1000
  /\ rd out 2 = (if 500 =? 0 then 0
                 else Z.quot (rd [100; -20000; 30000; 5] 2
                              * AudioAmplifier c) 1000)
  /\ Z.abs (rd out 2) <= Z.abs (rd [100; -20000; 30000; 5] 2).
Proof.
  apply (soft_volume_never_amplifies 500 (mkMixer 1000 100) init_audio
           [100; -20000; 30000; 5] 8 2).
  - lia.
  - vm_compute. split; discriminate.
  - split; [lia | reflexivity].
  - simpl. lia.
Defined.

(** ** Preparing the next segment *)

(** X29. When the hardware set-up for the segment being played fails,
    [AudioNextRing] returns -1 and takes the segment out of service by
    zeroing its rate: from then on the delay reads 0, the clock is
    unknown, and, while the producer still writes to that segment,
    [AudioEnqueue] drops every buffer. *)
Theorem AudioNextRing_failure_disables_segment
    (Setup : Z -> Z -> Z -> Audio -> Z * Audio) (m : Mixer) (a : Audio)
    (scratch samples_ : samples) (count module_delay : Z) :
  let r := ring_at a (AudioRingRead a) in
  let answer := Setup (wrap_s32 (HwSampleRate r)) (wrap_s32 (HwChannels r))
                  (UseAc3 r) a in
  let res := AudioNextRing Setup m a in
  let a' := snd (fst res) in
  fst answer <> 0 ->
  (Z.to_nat (AudioRingRead (snd answer))
   < length (AudioRing (snd answer)))%nat ->
  fst (fst (fst res)) = -1
  /\ snd res = None
  /\ HwSampleRate (ring_at a' (AudioRingRead a')) = 0
  /\ InSampleRate (ring_at a' (AudioRingRead a')) = 0
  /\ AudioGetDelay module_delay a' = 0
  /\ AudioGetClock module_delay a' = PTS_SENTINEL
  /\ (AudioRingWrite (snd answer) = AudioRingRead (snd answer) ->
      AudioEnqueue scratch samples_ count a' = Some a').
Proof.
  intros r answer res a' Hfail Hin. subst res a'. unfold AudioNextRing.
  fold r. fold answer. destruct answer as [ret a1] eqn:Hans.
  cbn [fst snd] in Hfail, Hin.
  assert (Ht : truthy ret = true).
  { unfold truthy. destruct (Z.eqb_spec ret 0);
      [contradiction | reflexivity]. }
  rewrite Ht. cbn [fst snd].
  set (a' := set_ring_at (AudioRingRead a1) _ a1).
  assert (Hread : AudioRingRead a' = AudioRingRead a1) by reflexivity.
  assert (Hwrite : AudioRingWrite a' = AudioRingWrite a1) by reflexivity.
  assert (Hrate : HwSampleRate (ring_at a' (AudioRingRead a1)) = 0
                  /\ InSampleRate (ring_at a' (AudioRingRead a1)) = 0).
  { unfold a'. rewrite ring_at_set_ring_at by exact Hin. split; reflexivity. }
  destruct Hrate as [Hhw Hinr].
  assert (Hdelay : AudioGetDelay module_delay a' = 0).
  { unfold AudioGetDelay. rewrite Hread, Hhw.
    destruct (negb (AudioRunning a')); reflexivity. }
  rewrite Hread.
  repeat split; try assumption.
  - apply AudioGetClock_no_delay. exact Hdelay.
  - intros Hsame. unfold AudioEnqueue. rewrite Hwrite, Hsame, Hhw.
    reflexivity.
Qed.

Lemma AudioNextRing_failure_disables_segment_witness :
  let a := snd (AudioRingAdd 48000 2 0 init_audio) in
  let a0 := snd (thread_flush_scan a) in
  let Setup := AlsaSetup (mkAlsaAnswers true true (-22) 4608) in
  let res := AudioNextRing Setup (mkMixer 1000 0) a0 in
  let a' := snd (fst res) in
  fst (fst (fst res)) = -1
  /\ snd res = None
  /\ HwSampleRate (ring_at a' (AudioRingRead a')) = 0
  /\ InSampleRate (ring_at a' (AudioRingRead a')) = 0
  /\ AudioGetDelay 0 a' = 0
  /\ AudioGetClock 0 a' = PTS_SENTINEL
  /\ (AudioRingWrite a0 = AudioRingRead a0 ->
      AudioEnqueue [] [1; 2] 4 a' = Some a').
Proof.
  apply (AudioNextRing_failure_disables_segment
           (AlsaSetup (mkAlsaAnswers true true (-22) 4608))
           (mkMixer 1000 0)
           (snd (thread_flush_scan (snd (AudioRingAdd 48000 2 0 init_audio))))
           [] [1; 2] 4 0).
  - vm_compute. discriminate.
  - vm_compute. lia.
Defined.

(** ** Range of the start threshold *)

(** X30. Whatever period size the library reports and whatever buffer
    time and audio/video delay are configured, a successful [AlsaSetup]
    leaves a start threshold that is not negative and not above a third
    of the ring buffer size. *)
Theorem AlsaSetup_threshold_bounded (alsa : AlsaAnswers)
    (freq channels use_ac3 : Z) (a : Audio) :
  fst (AlsaSetup alsa freq channels use_ac3 a) = 0 ->
  0 <= AudioStartThreshold (snd (AlsaSetup alsa freq channels use_ac3 a))
    <= AudioRingBufferSize / 3.
Proof.
  apply AlsaSetup_threshold_range.
Qed.

Lemma AlsaSetup_threshold_bounded_witness :
  0 <= AudioStartThreshold
         (snd (AlsaSetup (mkAlsaAnswers true true 0 (-4)) 192000 8 0
                 (set_config
                    (mkConfig true (-1000) 900000 false false false false
                       1000 stereo_matrix (fun _ => 0)) init_audio)))
    <= AudioRingBufferSize / 3.
Proof.
  apply (AlsaSetup_threshold_bounded (mkAlsaAnswers true true 0 (-4))
           192000 8 0
           (set_config
              (mkConfig true (-1000) 900000 false false false false
                 1000 stereo_matrix (fun _ => 0)) init_audio)).
  reflexivity.
Defined.

(** The bound on the factor is needed: from a factor of 2200000 the
    [int] sum overflows, the factor comes out negative and a sample of
    20 is clipped to [INT16_MIN]. *)
Example AudioCompressor_factor_overflow :
  let res :=
    Filter.AudioCompressor
      (Filter.mkFilters (replicate 128 0) 0 0 0 1000 2000 2200000 3000000)
      [20; 0] 4 in
  Filter.AudioCompressionFactor (fst res) = -2123049
  /\ snd res = [-32768; 0].
Proof. split; reflexivity. Qed.

(** ** The channel index of [AudioRingAdd] *)

(** C5. [AudioRingAdd] does not check the channel count before it
    indexes the channel matrix. For 44100 Hz and a count from 9 to 17
    it reads the entry of the 48000 Hz row for the count less 9, and
    for 48000 Hz and a count from -9 to -1 the entry of the 44100 Hz
    row for the count plus 9; when that entry is not zero and a slot
    is free, the call returns 0 and queues a segment with the
    unsupported count as its input channels and that entry as its
    hardware channels. *)
Theorem AudioRingAdd_unchecked_channels (sample_rate channels use_ac3 : Z)
    (a : Audio) :
  let row := if sample_rate =? 44100 then 1%nat else 0%nat in
  let column := if sample_rate =? 44100 then channels - 9 else channels + 9 in
  let entry :=
    nth (Z.to_nat column) (nth row (AudioChannelMatrix (config a)) []) 0 in
  let a' := snd (AudioRingAdd sample_rate channels use_ac3 a) in
  ring_ok a ->
  (sample_rate = 44100 /\ 9 <= channels <= 17)
  \/ (sample_rate = 48000 /\ -9 <= channels <= -1) ->
  entry <> 0 ->
  AudioRingFilled a <> AUDIO_RING_MAX ->
  fst (AudioRingAdd sample_rate channels use_ac3 a) = 0
  /\ AudioRingWrite a' = (AudioRingWrite a + 1) mod 8
  /\ AudioRingFilled a' = AudioRingFilled a + 1
  /\ InChannels (ring_at a' (AudioRingWrite a')) = wrap_u32 channels
  /\ HwChannels (ring_at a' (AudioRingWrite a')) = wrap_u32 entry
  /\ HwSampleRate (ring_at a' (AudioRingWrite a')) = sample_rate.
Proof.
  intros row column entry a' (Hlen & Hw & Hr) Hcase Hentry Hfree.
  subst a'.
  destruct (next_index_bounds (AudioRingWrite a) ltac:(lia)) as [Hb He].
  assert (Hread : exists u,
             search_rate AudioRatesTable 0 sample_rate = u
             /\ u <> AudioRatesMax
             /\ matrix_at a u channels = entry).
  { destruct Hcase as [[-> Hc] | [-> Hc]].
    - exists 0. split; [reflexivity |]. split; [discriminate |].
      rewrite matrix_at_other_row by (unfold AudioRatesMax; lia).
      subst entry column row. cbn [Z.eqb Pos.eqb].
      replace (0 * 9 + channels) with (channels - 9 + 1 * 9) by lia.
      rewrite Z.mod_add, Z.div_add by lia.
      rewrite Z.mod_small, Z.div_small by lia. reflexivity.
    - exists 1. split; [reflexivity |]. split; [discriminate |].
      rewrite matrix_at_other_row by (unfold AudioRatesMax; lia).
      subst entry column row. cbn [Z.eqb Pos.eqb].
      replace (1 * 9 + channels) with (channels + 9) by lia.
      rewrite Z.mod_small, Z.div_small by lia. reflexivity. }
  destruct Hread as (u & Hu & Hne & Hmat).
  unfold AudioRingAdd. rewrite Hu, Hmat.
  destruct (Z.eqb_spec u AudioRatesMax) as [| _]; [contradiction |].
  assert (Ht : truthy entry = true).
  { unfold truthy. destruct (Z.eqb_spec entry 0);
      [contradiction | reflexivity]. }
  rewrite Ht. cbn [negb].
  destruct (Z.eqb_spec (AudioRingFilled a) AUDIO_RING_MAX) as [| _];
    [contradiction |].
  cbv zeta. cbn [fst snd]. rewrite <- He.
  set (w' := Z.rem (AudioRingWrite a + 1) AUDIO_RING_MAX) in *.
  assert (Hin : (Z.to_nat w' < length (AudioRing a))%nat)
    by (rewrite Hlen; unfold AUDIO_RING_MAX in *; lia).
  destruct (AudioThread _); unfold ring_at, set_ring_at;
    cbn [AudioRing AudioRingWrite AudioRingRead AudioRingFilled
         set_AudioRunning set_AudioRingFilled set_AudioRing
         set_AudioRingWrite config];
    rewrite !nth_lookup, list_lookup_insert_eq by exact Hin;
    cbn [default from_option id InChannels HwChannels HwSampleRate];
    auto 10.
Qed.

Lemma AudioRingAdd_unchecked_channels_witness :
  let a' := snd (AudioRingAdd 44100 11 0 init_audio) in
  fst (AudioRingAdd 44100 11 0 init_audio) = 0
  /\ AudioRingWrite a' = (AudioRingWrite init_audio + 1) mod 8
  /\ AudioRingFilled a' = AudioRingFilled init_audio + 1
  /\ InChannels (ring_at a' (AudioRingWrite a')) = wrap_u32 11
  /\ HwChannels (ring_at a' (AudioRingWrite a'))
     = wrap_u32
         (nth (Z.to_nat (11 - 9))
            (nth 1 (AudioChannelMatrix (config init_audio)) []) 0)
  /\ HwSampleRate (ring_at a' (AudioRingWrite a')) = 44100.
Proof.
  apply (AudioRingAdd_unchecked_channels 44100 11 0 init_audio).
  - vm_compute. repeat split; discriminate.
  - left. split; [reflexivity | lia].
  - vm_compute. discriminate.
  - vm_compute. discriminate.
Defined.

(** The same through [AudioSetup], which only refuses a count of 0:
    eleven channels at 44100 Hz and minus one channel at 48000 Hz are
    accepted on hardware that plays stereo only. *)
Example AudioSetup_accepts_unsupported_channels :
  fst (AudioSetup 44100 11 0 init_audio) = 0
  /\ fst (AudioSetup 48000 (-1) 0 init_audio) = 0
  /\ InChannels
       (ring_at (snd (AudioSetup 44100 11 0 init_audio))
          (AudioRingWrite (snd (AudioSetup 44100 11 0 init_audio)))) = 11.
Proof. repeat split. Qed.

(** ** The start threshold outside its formula *)

(** C7 as stated fails for a negative buffer time, which
    [AudioSetBufferTime] stores like any other value: the [int] byte
    product is negative, the division by [1000U] is unsigned, and the
    threshold is capped at a third of the ring instead of being the
    period size. *)
Lemma AlsaSetup_negative_buffer_time :
  let a :=
    set_config
      (mkConfig true (AudioSetBufferTime (-1000)) 0 false false false false
         1000 stereo_matrix (fun _ => 0)) init_audio in
  AudioBufferTime (config a) = -1000
  /\ fst (AlsaSetup (mkAlsaAnswers true true 0 4608) 48000 2 0 a) = 0
  /\ AudioStartThreshold
       (snd (AlsaSetup (mkAlsaAnswers true true 0 4608) 48000 2 0 a))
     = 560000
  /\ Z.min (1680000 / 3)
       (Z.max 4608 (48000 * 2 * 2 * (-1000 + Z.max 0 (0 / 90)) / 1000))
     = 4608.
Proof. repeat split. Qed.

(** It also fails when the byte product does not fit an [int]: at
    192000 Hz, eight channels and a buffer time of 1400 ms the product
    wraps and the threshold is 5832 bytes, where the formula gives a
    third of the ring. *)
Example AlsaSetup_product_overflow :
  let a :=
    set_config
      (mkConfig true (AudioSetBufferTime 1400) 0 false false false false
         1000 stereo_matrix (fun _ => 0)) init_audio in
  AudioStartThreshold
    (snd (AlsaSetup (mkAlsaAnswers true true 0 4608) 192000 8 0 a))
  = 5832
  /\ Z.min (1680000 / 3)
       (Z.max 4608 (192000 * 8 * 2 * (1400 + Z.max 0 (0 / 90)) / 1000))
     = 560000.
Proof. split; reflexivity. Qed.
